(** * DestructNote backend: note lifecycle, reveal gate, scrub and expiry

    A shallow embedding of the note routes ([src/routes/notes.ts]), the web
    view and reveal action ([src/index.ts]), the cleanup job
    ([lib/noteCleanup.ts]) and the RevenueCat helper ([lib/revenuecat.ts]).

    The handlers are asynchronous functions over a Prisma client.  They are
    embedded as programs over the calls they make; a program is run either in
    one piece (a request served without interruption) or one event-loop turn
    at a time (requests interleaved at their [await]s). *)

From Stdlib Require Import ZArith Lia Ascii String.
From stdpp Require Import base option list strings gmap.

Local Open Scope Z_scope.

(** ** Data model (prisma tables [note] and [noteUsage]) *)

(** A row of table [note]; the primary key [id] is the key of the map that
    stores the rows.  [deviceId] is the column [db.note.create] fills besides
    [content]; the handlers never read it. *)
Record Note := mkNote {
  content : string;
  viewed : bool;
  createdAt : Z;          (* milliseconds since the epoch *)
  deviceId : string;
}.

(** A row of table [noteUsage].  The prisma schema is not among the sources;
    the handlers only need a numeric-like key ordered by [orderBy: id]. *)
Record NoteUsage := mkNoteUsage {
  usageId : Z;
  usageDeviceId : string;
  month : Z;
  year : Z;
  count : Z;
  isPremium : bool;
}.

#[global] Instance Note_eq_dec : EqDecision Note.
Proof. solve_decision. Defined.
#[global] Instance NoteUsage_eq_dec : EqDecision NoteUsage.
Proof. solve_decision. Defined.

(** The closure handed to [setTimeout] by the two reveal handlers captures
    only the note id. *)
Inductive TimerTask := DestroyContent (id : string).

Record Timer := mkTimer { due : Z; task : TimerTask }.

#[global] Instance TimerTask_eq_dec : EqDecision TimerTask.
Proof. solve_decision. Defined.
#[global] Instance Timer_eq_dec : EqDecision Timer.
Proof. solve_decision. Defined.

(** What [getSubscriberInfo] hands back when it does not return [null]: the
    [premium] entitlement, if any, with its parsed [expires_date].  The
    fetch, its abort timer and its own [catch] stay inside the call. *)
Record Subscriber := mkSubscriber {
  premiumEntitlement : option (option Z);
}.

(** The process and what it talks to. *)
Record World := mkWorld {
  note : gmap string Note;            (* db.note *)
  noteUsage : list NoteUsage;         (* db.noteUsage, in insertion order *)
  timers : list Timer;                (* pending setTimeout callbacks *)
  clock : Z;                          (* what new Date() reads *)
  faults : list bool;                 (* does the next storage call reject? *)
  idSupply : list string;             (* ids the store will hand to new notes *)
  REVENUECAT_API_KEY : option string; (* process.env.REVENUECAT_API_KEY *)
  revenuecat : string -> option Subscriber; (* the RevenueCat REST API *)
}.

Definition set_note (m : gmap string Note) (w : World) : World :=
  mkWorld m (noteUsage w) (timers w) (clock w) (faults w) (idSupply w)
          (REVENUECAT_API_KEY w) (revenuecat w).
Definition set_noteUsage (u : list NoteUsage) (w : World) : World :=
  mkWorld (note w) u (timers w) (clock w) (faults w) (idSupply w)
          (REVENUECAT_API_KEY w) (revenuecat w).
Definition set_timers (t : list Timer) (w : World) : World :=
  mkWorld (note w) (noteUsage w) t (clock w) (faults w) (idSupply w)
          (REVENUECAT_API_KEY w) (revenuecat w).
Definition set_clock (c : Z) (w : World) : World :=
  mkWorld (note w) (noteUsage w) (timers w) c (faults w) (idSupply w)
          (REVENUECAT_API_KEY w) (revenuecat w).
Definition set_faults (f : list bool) (w : World) : World :=
  mkWorld (note w) (noteUsage w) (timers w) (clock w) f (idSupply w)
          (REVENUECAT_API_KEY w) (revenuecat w).
Definition set_idSupply (s : list string) (w : World) : World :=
  mkWorld (note w) (noteUsage w) (timers w) (clock w) (faults w) s
          (REVENUECAT_API_KEY w) (revenuecat w).

(** ** The calls a handler makes *)

(** [data] of a [db.note.update]: the fields it assigns. *)
Record NoteData := mkNoteData {
  data_viewed : option bool;
  data_content : option string;
}.

Definition apply_data (d : NoteData) (n : Note) : Note :=
  mkNote (default (content n) (data_content d))
         (default (viewed n) (data_viewed d))
         (createdAt n) (deviceId n).

(** [data] of a [db.noteUsage.update]. *)
Inductive UsageData :=
| SetPremium (b : bool)          (* { isPremium: b } *)
| IncrementCount (k : Z).        (* { count: { increment: k } } *)

Definition apply_usage (d : UsageData) (u : NoteUsage) : NoteUsage :=
  match d with
  | SetPremium b =>
      mkNoteUsage (usageId u) (usageDeviceId u) (month u) (year u) (count u) b
  | IncrementCount k =>
      mkNoteUsage (usageId u) (usageDeviceId u) (month u) (year u)
                  (count u + k) (isPremium u)
  end.

Inductive Call : Type -> Type :=
(* db.note *)
| NoteFindUnique (id : string) : Call (option Note)
| NoteUpdate (id : string) (d : NoteData) : Call Note
| NoteCreate (c dev : string) : Call (string * Note)
| NoteDeleteMany (v : bool) (createdBefore : Z) : Call Z
(* db.noteUsage *)
| UsageFindFirst (dev : string) : Call (option NoteUsage)
| UsageCreate (dev : string) (m y c : Z) (p : bool) : Call NoteUsage
| UsageUpdate (id : Z) (d : UsageData) : Call NoteUsage
(* lib/revenuecat.ts *)
| GetSubscriberInfo (dev : string) : Call (option Subscriber)
(* the runtime: synchronous, no await *)
| IsRevenueCatConfigured : Call bool
| NewDate : Call Z
| SetTimeout (t : TimerTask) (ms : Z) : Call unit.

(** Programs: a result, an exception, or a call and what follows it. *)
Inductive Prog (A : Type) : Type :=
| Ret (a : A)
| Throw
| Do {X : Type} (c : Call X) (k : X -> Prog A).
Arguments Ret {A} a.
Arguments Throw {A}.
Arguments Do {A X} c k.

Fixpoint bind {A B} (p : Prog A) (f : A -> Prog B) : Prog B :=
  match p with
  | Ret a => f a
  | Throw => Throw
  | Do c k => Do c (fun x => bind (k x) f)
  end.

#[global] Instance Prog_ret : MRet Prog := @Ret.
#[global] Instance Prog_bind : MBind Prog := fun A B f p => bind p f.

Definition call {X} (c : Call X) : Prog X := Do c Ret.

(** ** The store and the runtime *)

(** Which calls suspend the handler ([await]). *)
Definition suspends {X} (c : Call X) : bool :=
  match c with
  | IsRevenueCatConfigured | NewDate | SetTimeout _ _ => false
  | _ => true
  end.

(** Which calls go to the database, and so may reject when it is down. *)
Definition is_db {X} (c : Call X) : bool :=
  match c with
  | IsRevenueCatConfigured | NewDate | SetTimeout _ _ | GetSubscriberInfo _ => false
  | _ => true
  end.

Definition pop_fault (w : World) : bool * World :=
  match faults w with
  | [] => (false, w)
  | b :: fs => (b, set_faults fs w)
  end.

(** [deleteMany({ where: { viewed: v, createdAt: { lt: t } } })] *)
Definition expired (v : bool) (t : Z) (n : Note) : bool :=
  bool_decide (viewed n = v) && bool_decide (createdAt n < t).

Definition delete_many (v : bool) (t : Z) (m : gmap string Note) : gmap string Note :=
  filter (fun kv => expired v t kv.2 = false) m.

Definition deleted_count (v : bool) (t : Z) (m : gmap string Note) : Z :=
  Z.of_nat (size (filter (fun kv : string * Note => expired v t kv.2 = true) m)).

(** [findFirst({ where: { deviceId }, orderBy: { id: 'desc' } })] *)
Definition find_first (dev : string) (us : list NoteUsage) : option NoteUsage :=
  foldr (fun u best =>
           if bool_decide (usageDeviceId u = dev) then
             match best with
             | Some b => if bool_decide (usageId b < usageId u) then Some u else Some b
             | None => Some u
             end
           else best) None us.

Definition next_usage_id (us : list NoteUsage) : Z :=
  1 + foldr (fun u m => Z.max (usageId u) m) 0 us.

Fixpoint update_usage (id : Z) (d : UsageData) (us : list NoteUsage)
  : option (NoteUsage * list NoteUsage) :=
  match us with
  | [] => None
  | u :: rest =>
      if bool_decide (usageId u = id) then Some (apply_usage d u, apply_usage d u :: rest)
      else match update_usage id d rest with
           | Some (u', rest') => Some (u', u :: rest')
           | None => None
           end
  end.

(** [!!REVENUECAT_API_KEY] *)
Definition isRevenueCatConfigured (w : World) : bool :=
  match REVENUECAT_API_KEY w with
  | Some k => negb (bool_decide (k = EmptyString))
  | None => false
  end.

(** What a call does once the store has accepted it: its result, or [None]
    when it throws (record to update not found, primary key taken). *)
Definition effect {X} (c : Call X) (w : World) : option X * World :=
  match c in Call T return option T * World with
  | NoteFindUnique id => (Some (note w !! id), w)
  | NoteUpdate id d =>
      match note w !! id with
      | Some n => (Some (apply_data d n), set_note (<[id := apply_data d n]> (note w)) w)
      | None => (None, w)
      end
  | NoteCreate c dev =>
      match idSupply w with
      | id :: ids =>
          let w' := set_idSupply ids w in
          match note w !! id with
          | Some _ => (None, w')
          | None =>
              let n := mkNote c false (clock w) dev in
              (Some (id, n), set_note (<[id := n]> (note w)) w')
          end
      | [] => (None, w)
      end
  | NoteDeleteMany v t =>
      (Some (deleted_count v t (note w)), set_note (delete_many v t (note w)) w)
  | UsageFindFirst dev => (Some (find_first dev (noteUsage w)), w)
  | UsageCreate dev m y c p =>
      let u := mkNoteUsage (next_usage_id (noteUsage w)) dev m y c p in
      (Some u, set_noteUsage (noteUsage w ++ [u]) w)
  | UsageUpdate id d =>
      match update_usage id d (noteUsage w) with
      | Some (u, us) => (Some u, set_noteUsage us w)
      | None => (None, w)
      end
  | GetSubscriberInfo dev =>
      (Some (if isRevenueCatConfigured w then revenuecat w dev else None), w)
  | IsRevenueCatConfigured => (Some (isRevenueCatConfigured w), w)
  | NewDate => (Some (clock w), w)
  | SetTimeout t ms => (Some (), set_timers (timers w ++ [mkTimer (clock w + ms) t]) w)
  end.

(** A call as the handler sees it: a database call first consults the fault
    script. *)
Definition perform {X} (c : Call X) (w : World) : option X * World :=
  if is_db c then
    let '(down, w') := pop_fault w in
    if down then (None, w') else effect c w'
  else effect c w.

(** Running a program in one piece. [None] is an uncaught exception. *)
Fixpoint run {A} (p : Prog A) (w : World) : option A * World :=
  match p with
  | Ret a => (Some a, w)
  | Throw => (None, w)
  | Do c k =>
      match perform c w with
      | (Some x, w') => run (k x) w'
      | (None, w') => (None, w')
      end
  end.

(** [try { p } catch { return r }] where the catch block makes no call. *)
Definition try_catch {A} (p : Prog A) (r : A) (w : World) : A * World :=
  match run p w with
  | (Some a, w') => (a, w')
  | (None, w') => (r, w')
  end.

(** ** Responses *)

Inductive ErrorCode := NOT_FOUND | ALREADY_VIEWED | LIMIT_REACHED.

(** The fixed text of the [renderPage] template literal ([index.ts], lines
    87-552), cut at its interpolations, and the four fixed page bodies the web
    view passes as [content]. *)
Inductive Fragment :=
| DocumentHead        (* up to <title> *)
| TitleToBackground   (* " - DestructNote</title>" ... "background: " *)
| StyleToContainer    (* rest of the style sheet ... <div class="container"> *)
| Footer              (* the footer, up to the script interpolation *)
| ScriptOpening       (* <script>, the AES-256-CTR code, up to "const noteId = '" *)
| ScriptClosing       (* after the encryptedContent line, to </script> *)
| DocumentEnd         (* </body></html> *)
| NotFoundBody | DestroyedBody | RevealBody | ErrorBody.

Inductive Segment :=
| Fixed (f : Fragment)      (* fixed text, by name *)
| Literal (s : string)      (* fixed text, written out *)
| Interp (s : string).      (* the value of a ${...} *)

Inductive Body :=
| NoteErrorResponse (error : string) (code : ErrorCode)
| GetNoteResponse (c : string) (destroyed : bool)
| NoteUsageResponse (cnt limit : Z) (premium canCreate : bool)
| UpgradeResponse (success premium : bool)
| CreateNoteResponse (id : string) (success : bool)
| ErrorOnly (error : string)          (* { error } *)
| SuccessOnly (success : bool)        (* { success } *)
| ValidationFailure                   (* zValidator's 400 *)
| Html (page : list Segment).

Record Response := mkResponse { status : Z; body : Body }.

(** [c.json(b)], [c.json(b, s)], [c.html(p)], [c.html(p, s)] *)
Definition json (b : Body) : Response := mkResponse 200 b.
Definition json_status (b : Body) (s : Z) : Response := mkResponse s b.
Definition html (p : list Segment) : Response := mkResponse 200 (Html p).
Definition html_status (p : list Segment) (s : Z) : Response := mkResponse s (Html p).

#[global] Instance ErrorCode_eq_dec : EqDecision ErrorCode.
Proof. solve_decision. Defined.
#[global] Instance Fragment_eq_dec : EqDecision Fragment.
Proof. solve_decision. Defined.
#[global] Instance Segment_eq_dec : EqDecision Segment.
Proof. solve_decision. Defined.
#[global] Instance Body_eq_dec : EqDecision Body.
Proof. solve_decision. Defined.
#[global] Instance Response_eq_dec : EqDecision Response.
Proof. solve_decision. Defined.

(** ** lib/revenuecat.ts *)

Definition hasActivePremium (dev : string) : Prog bool :=
  subscriberInfo ← call (GetSubscriberInfo dev);
  match subscriberInfo with
  | None => Ret false
  | Some info =>
      match premiumEntitlement info with
      | None => Ret false
      | Some None => Ret true
      | Some (Some expiresDate) =>
          now ← call NewDate;
          if bool_decide (expiresDate < now) then Ret false else Ret true
      end
  end.

(** ** routes/notes.ts *)

Definition FREE_NOTE_LIMIT : Z := 5.

Definition getOrCreateUsage (dev : string) (verifySubscription : bool) : Prog NoteUsage :=
  found ← call (UsageFindFirst dev);
  usage ← match found with
          | Some u => Ret u
          | None => call (UsageCreate dev 0 0 0 false)
          end;
  if verifySubscription && negb (isPremium usage) then
    configured ← call IsRevenueCatConfigured;
    if (configured : bool) then
      hasPremium ← hasActivePremium dev;
      if (hasPremium : bool)
      then call (UsageUpdate (usageId usage) (SetPremium true))
      else Ret usage
    else Ret usage
  else Ret usage.

(** GET /api/notes/usage/:deviceId *)
Definition notesRouter_get_usage (dev : string) (w : World) : Response * World :=
  try_catch
    (usage ← getOrCreateUsage dev true;
     let canCreate := isPremium usage || bool_decide (count usage < FREE_NOTE_LIMIT) in
     Ret (json (NoteUsageResponse (count usage) FREE_NOTE_LIMIT (isPremium usage) canCreate)))
    (json (NoteUsageResponse 0 FREE_NOTE_LIMIT false true))
    w.

(** POST /api/notes/upgrade.  The schemas measure strings with
    [String.length]; the two agree with zod on ASCII text. *)
Definition upgradeRequestSchema (dev : string) : bool :=
  bool_decide (1 <= Z.of_nat (String.length dev)).

Definition notesRouter_post_upgrade (dev : string) (w : World) : Response * World :=
  if upgradeRequestSchema dev then
    try_catch
      (usage ← getOrCreateUsage dev false;
       _ ← call (UsageUpdate (usageId usage) (SetPremium true));
       Ret (json (UpgradeResponse true true)))
      (json_status (UpgradeResponse false false) 500)
      w
  else (json_status ValidationFailure 400, w).

(** POST /api/notes *)
Definition createNoteRequestSchema (c dev : string) : bool :=
  bool_decide (1 <= Z.of_nat (String.length c))
  && bool_decide (Z.of_nat (String.length c) <= 10000)
  && bool_decide (1 <= Z.of_nat (String.length dev)).

Definition notesRouter_post_body (c dev : string) : Prog Response :=
  usage ← getOrCreateUsage dev true;
  if negb (isPremium usage) && bool_decide (FREE_NOTE_LIMIT <= count usage) then
    Ret (json_status (NoteErrorResponse "Free note limit reached" LIMIT_REACHED) 403)
  else
    created ← call (NoteCreate c dev);
    _ ← call (UsageUpdate (usageId usage) (IncrementCount 1));
    Ret (json (CreateNoteResponse (fst (created : string * Note)) true)).

Definition notesRouter_post (c dev : string) (w : World) : Response * World :=
  if createNoteRequestSchema c dev then
    try_catch (notesRouter_post_body c dev)
              (json_status (NoteErrorResponse "Failed to create note" NOT_FOUND) 500) w
  else (json_status ValidationFailure 400, w).

Definition DESTROYED : string := "[DESTROYED]".
Definition GRACE_DELAY_MS : Z := 5000.

(** GET /api/notes/:id *)
Definition notesRouter_get_id_body (id : string) : Prog Response :=
  found ← call (NoteFindUnique id);
  match found with
  | None =>
      Ret (json_status (NoteErrorResponse "Note not found" NOT_FOUND) 404)
  | Some n =>
      if viewed n then
        Ret (json_status
               (NoteErrorResponse "This note has already been viewed and destroyed"
                                  ALREADY_VIEWED) 410)
      else
        _ ← call (NoteUpdate id (mkNoteData (Some true) None));
        _ ← call (SetTimeout (DestroyContent id) GRACE_DELAY_MS);
        Ret (json (GetNoteResponse (content n) true))
  end.

Definition notesRouter_get_id_catch : Response :=
  json_status (NoteErrorResponse "Failed to retrieve note" NOT_FOUND) 500.

Definition notesRouter_get_id (id : string) (w : World) : Response * World :=
  try_catch (notesRouter_get_id_body id) notesRouter_get_id_catch w.

(** The callback of the reveal handlers' [setTimeout]:
    [try { await db.note.update(...) } catch { }] *)
Definition run_task (t : TimerTask) (w : World) : World :=
  match t with
  | DestroyContent id =>
      (try_catch (_ ← call (NoteUpdate id (mkNoteData None (Some DESTROYED))); Ret ())
                 () w).2
  end.

(** ** index.ts: the web view and the reveal action *)

(** [encryptedContent.replace(/'/g, "\\'")]: every single quote gets a
    backslash in front. *)
Fixpoint escape_quotes (s : string) : string :=
  match s with
  | EmptyString => EmptyString
  | String c rest =>
      if Ascii.eqb c "'"%char
      then String "\"%char (String "'"%char (escape_quotes rest))
      else String c (escape_quotes rest)
  end.

Definition has_quote (s : string) : bool :=
  existsb (fun c => Ascii.eqb c "'"%char) (list_ascii_of_string s).

(** Undoing [escape_quotes]: a backslash in front of a quote is dropped. *)
Fixpoint unescape_quotes (s : string) : string :=
  match s with
  | EmptyString => EmptyString
  | String c rest =>
      match rest with
      | String q _ =>
          if Ascii.eqb c "\"%char && Ascii.eqb q "'"%char
          then unescape_quotes rest
          else String c (unescape_quotes rest)
      | EmptyString => String c EmptyString
      end
  end.

Definition renderPage (title : string) (pageBody : Fragment) (bgColor : string)
  (includeDecryption : bool) (encryptedContent noteId : string) : list Segment :=
  [Fixed DocumentHead; Interp title;
   Fixed TitleToBackground; Interp bgColor;
   Fixed StyleToContainer; Fixed pageBody; Fixed Footer]
  ++ (if includeDecryption then
        [Fixed ScriptOpening; Interp noteId;
         Literal "';
      const encryptedContent = '"; Interp (escape_quotes encryptedContent);
         Literal "';"; Fixed ScriptClosing]
      else [])
  ++ [Fixed DocumentEnd].

(** GET /note/:id *)
Definition app_get_note_body (id : string) : Prog Response :=
  found ← call (NoteFindUnique id);
  match found with
  | None =>
      Ret (html_status (renderPage "Not Found" NotFoundBody "#E74C3C" false "" "") 404)
  | Some n =>
      if viewed n then
        Ret (html_status (renderPage "Note Destroyed" DestroyedBody "#FF8A00" false "" "") 410)
      else
        Ret (html (renderPage "Secret Note" RevealBody "#00FF85" true (content n) id))
  end.

Definition app_get_note (id : string) (w : World) : Response * World :=
  try_catch (app_get_note_body id)
            (html_status (renderPage "Error" ErrorBody "#A855F7" false "" "") 500) w.

(** POST /note/:id/reveal *)
Definition app_post_note_reveal_body (id : string) : Prog Response :=
  found ← call (NoteFindUnique id);
  match found with
  | None => Ret (json_status (ErrorOnly "Note not found") 404)
  | Some n =>
      if viewed n then Ret (json_status (ErrorOnly "Note already viewed") 410)
      else
        _ ← call (NoteUpdate id (mkNoteData (Some true) None));
        _ ← call (SetTimeout (DestroyContent id) GRACE_DELAY_MS);
        Ret (json (SuccessOnly true))
  end.

Definition app_post_note_reveal_catch : Response :=
  json_status (ErrorOnly "Failed to reveal note") 500.

Definition app_post_note_reveal (id : string) (w : World) : Response * World :=
  try_catch (app_post_note_reveal_body id) app_post_note_reveal_catch w.

(** ** lib/noteCleanup.ts *)

Definition DAYS_UNTIL_EXPIRY : Z := 30.
Definition CLEANUP_INTERVAL_MS : Z := 60 * 60 * 1000.
Definition MS_PER_DAY : Z := 24 * 60 * 60 * 1000.

(** [d.setDate(d.getDate() - days)], for a process whose time zone has a
    fixed offset (such as UTC), where a calendar day is always 24 hours. *)
Definition setDate_back (d days : Z) : Z := d - days * MS_PER_DAY.

Definition cleanupExpiredNotes (w : World) : Z * World :=
  try_catch
    (now ← call NewDate;
     let expiryDate := setDate_back now DAYS_UNTIL_EXPIRY in
     result ← call (NoteDeleteMany false expiryDate);
     Ret (result : Z))
    0 w.

(** ** The server, one request or timer at a time *)

Inductive Event :=
| GET_api_notes_usage (dev : string)
| POST_api_notes_upgrade (dev : string)
| POST_api_notes (c dev : string)
| GET_api_notes (id : string)
| GET_note (id : string)
| POST_note_reveal (id : string)
| Sweep                    (* startCleanupJob's interval fires *)
| TimerFires (k : nat)     (* the k-th pending timeout fires, if it is due *)
| Elapse (ms : N).         (* time passes *)

Definition fire (k : nat) (w : World) : World :=
  match timers w !! k with
  | Some t =>
      if bool_decide (due t <= clock w)
      then run_task (task t) (set_timers (delete k (timers w)) w)
      else w
  | None => w
  end.

Definition exec (e : Event) (w : World) : option Response * World :=
  match e with
  | GET_api_notes_usage dev => prod_map Some id (notesRouter_get_usage dev w)
  | POST_api_notes_upgrade dev => prod_map Some id (notesRouter_post_upgrade dev w)
  | POST_api_notes c dev => prod_map Some id (notesRouter_post c dev w)
  | GET_api_notes i => prod_map Some id (notesRouter_get_id i w)
  | GET_note i => prod_map Some id (app_get_note i w)
  | POST_note_reveal i => prod_map Some id (app_post_note_reveal i w)
  | Sweep => (None, (cleanupExpiredNotes w).2)
  | TimerFires k => (None, fire k w)
  | Elapse ms => (None, set_clock (clock w + Z.of_N ms) w)
  end.

(** The world after a list of events, and the responses sent on the way. *)
Fixpoint exec_all (es : list Event) (w : World) : list (Event * option Response) * World :=
  match es with
  | [] => ([], w)
  | e :: rest =>
      let '(r, w1) := exec e w in
      let '(log, w2) := exec_all rest w1 in
      ((e, r) :: log, w2)
  end.

Definition after (es : list Event) (w : World) : World := (exec_all es w).2.
Definition responses (es : list Event) (w : World) : list (Event * option Response) :=
  (exec_all es w).1.

(** ** The server, requests interleaved at their awaits *)

(** A request in flight: the rest of its handler and what its [catch]
    block answers; or the response it has sent. *)
Inductive Thread :=
| Running (p : Prog Response) (catch : Response)
| Replied (r : Response).

(** Code between two awaits runs without interruption. *)
Fixpoint sync {A} (p : Prog A) (w : World) : Prog A * World :=
  match p with
  | Do c k =>
      if suspends c then (p, w)
      else match perform c w with
           | (Some x, w') => sync (k x) w'
           | (None, w') => (Throw, w')
           end
  | _ => (p, w)
  end.

(** One turn of the event loop for a handler: the call it awaits settles,
    and the handler runs on to its next await. *)
Definition turn {A} (p : Prog A) (w : World) : Prog A * World :=
  match p with
  | Do c k =>
      match perform c w with
      | (Some x, w') => sync (k x) w'
      | (None, w') => (Throw, w')
      end
  | _ => (p, w)
  end.

Definition step_thread (t : Thread) (w : World) : Thread * World :=
  match t with
  | Running p r =>
      match turn p w with
      | (Ret a, w') => (Replied a, w')
      | (Throw, w') => (Replied r, w')
      | (p', w') => (Running p' r, w')
      end
  | Replied _ => (t, w)
  end.

Definition resume (i : nat) (s : list Thread * World) : list Thread * World :=
  match s.1 !! i with
  | Some t => let '(t', w') := step_thread t s.2 in (<[i := t']> s.1, w')
  | None => s
  end.

(** A schedule names, turn by turn, the request the event loop resumes. *)
Definition interleave (schedule : list nat) (s : list Thread * World)
  : list Thread * World :=
  foldl (fun s i => resume i s) s schedule.

(** The two reveal surfaces as requests in flight. *)
Inductive Surface := DirectApi | WebReveal.

Definition reveal_event (s : Surface) (id : string) : Event :=
  match s with
  | DirectApi => GET_api_notes id
  | WebReveal => POST_note_reveal id
  end.

Definition reveal (s : Surface) (id : string) (w : World) : Response * World :=
  match s with
  | DirectApi => notesRouter_get_id id w
  | WebReveal => app_post_note_reveal id w
  end.

Definition incoming (s : Surface) (id : string) : Thread :=
  match s with
  | DirectApi => Running (notesRouter_get_id_body id) notesRouter_get_id_catch
  | WebReveal => Running (app_post_note_reveal_body id) app_post_note_reveal_catch
  end.

Definition reply_status (t : Thread) : option Z :=
  match t with
  | Replied r => Some (status r)
  | Running _ _ => None
  end.

(** ** Reading responses *)

Definition error_code (r : Response) : option ErrorCode :=
  match body r with
  | NoteErrorResponse _ c => Some c
  | _ => None
  end.

(** The outcome of the reveal gate's [evaluate], read off the status. *)
Inductive Outcome := Revealable | AlreadyDestroyed | NotFound | ServerError.

Definition outcome (r : Response) : Outcome :=
  if bool_decide (status r = 200) then Revealable
  else if bool_decide (status r = 410) then AlreadyDestroyed
  else if bool_decide (status r = 404) then NotFound
  else ServerError.

(** Example worlds. *)
Definition quiet : World :=
  mkWorld ∅ [] [] 0 [] [] None (fun _ => None).

Definition hello : Note := mkNote "hello" false 1000 "device-1".

Definition with_hello : World := set_clock 2000 (set_note {["X" := hello]} quiet).

(** ** Auxiliary notions for the proofs *)

(** The fault script after its head is consumed. *)
Definition drain (w : World) : World := set_faults (tail (faults w)) w.

(** [uses allowed p]: every call [p] can make is an allowed one. *)
Fixpoint uses (allowed : forall X, Call X -> bool) {A} (p : Prog A) : Prop :=
  match p with
  | Do c k => allowed _ c = true /\ forall x, uses allowed (k x)
  | _ => True
  end.

Definition any_call (X : Type) (c : Call X) : bool := true.

(** Once the fault script is empty the store stays up. *)
Definition stays_up (w w' : World) : Prop := faults w = [] -> faults w' = [].

(** Calls that only read. *)
Definition reads_only (X : Type) (c : Call X) : bool :=
  match c with
  | NoteFindUnique _ | UsageFindFirst _ | GetSubscriberInfo _
  | IsRevenueCatConfigured | NewDate => true
  | _ => false
  end.

(** Everything but the fault script is the same. *)
Definition same_store (w w' : World) : Prop :=
  note w' = note w /\ noteUsage w' = noteUsage w /\ timers w' = timers w /\
  clock w' = clock w /\ idSupply w' = idSupply w /\
  REVENUECAT_API_KEY w' = REVENUECAT_API_KEY w /\ revenuecat w' = revenuecat w.

(** Calls that neither update nor delete a note, nor set a timer. *)
Definition additive (X : Type) (c : Call X) : bool :=
  match c with
  | NoteUpdate _ _ | NoteDeleteMany _ _ | SetTimeout _ _ => false
  | _ => true
  end.

(** Timers and clock are the same, and every note is as it was or is a new,
    unread one stamped with the current time. *)
Definition grows (w w' : World) : Prop :=
  timers w' = timers w /\ clock w' = clock w /\
  forall id : string,
    note w' !! id = note w !! id \/
    (note w !! id = None /\
     exists n, note w' !! id = Some n /\ viewed n = false /\ createdAt n = clock w).


(** ** The life of a note *)

Definition mark_viewed (n : Note) : Note := apply_data (mkNoteData (Some true) None) n.
Definition scrub (n : Note) : Note := apply_data (mkNoteData None (Some DESTROYED)) n.

Definition scrub_timer (id : string) (w : World) : Timer :=
  mkTimer (clock w + GRACE_DELAY_MS) (DestroyContent id).

(** The world after a successful reveal of the unread note [n] stored under
    [id]: the row is marked and the scrub is pending. *)
Definition revealed (id : string) (n : Note) (w : World) : World :=
  set_timers (timers w ++ [scrub_timer id w])
             (set_note (<[id := mark_viewed n]> (note w)) w).

(** What each surface answers in the three cases. *)
Definition not_found_response (s : Surface) : Response :=
  match s with
  | DirectApi => json_status (NoteErrorResponse "Note not found" NOT_FOUND) 404
  | WebReveal => json_status (ErrorOnly "Note not found") 404
  end.

Definition already_viewed_response (s : Surface) : Response :=
  match s with
  | DirectApi =>
      json_status (NoteErrorResponse "This note has already been viewed and destroyed"
                                     ALREADY_VIEWED) 410
  | WebReveal => json_status (ErrorOnly "Note already viewed") 410
  end.

Definition success_response (s : Surface) (n : Note) : Response :=
  match s with
  | DirectApi => json (GetNoteResponse (content n) true)
  | WebReveal => json (SuccessOnly true)
  end.

Definition failure_response (s : Surface) : Response :=
  match s with
  | DirectApi => notesRouter_get_id_catch
  | WebReveal => app_post_note_reveal_catch
  end.

(** The reveal gate as the specification words it (section 4.1), with the
    hand-off to the destruction scheduler (section 4.2): look the note up;
    absent, [NotFound]; viewed, [AlreadyDestroyed]; else [Revealable] with
    the stored content, the flag set and the scrub scheduled. *)
Inductive Verdict :=
| VNotFound
| VAlreadyDestroyed
| VRevealable (c : string).

Definition evaluate (id : string) (w : World) : Verdict * World :=
  match note w !! id with
  | None => (VNotFound, w)
  | Some n =>
      if viewed n then (VAlreadyDestroyed, w)
      else (VRevealable (content n),
            set_timers (timers w ++ [mkTimer (clock w + 5000) (DestroyContent id)])
                       (set_note (<[id := mkNote (content n) true (createdAt n) (deviceId n)]>
                                    (note w)) w))
  end.

Definition classify (v : Verdict) : Outcome :=
  match v with
  | VNotFound => NotFound
  | VAlreadyDestroyed => AlreadyDestroyed
  | VRevealable _ => Revealable
  end.

(** Every pending scrub targets a stored note that is already viewed. *)
Definition timers_target_viewed (w : World) : Prop :=
  forall t, t ∈ timers w ->
    match task t with
    | DestroyContent id => exists n, note w !! id = Some n /\ viewed n = true
    end.

(** Both reveal handlers under any fault script, in closed form: the lookup
    may reject, and so may the update that follows it. *)
Definition gate (s : Surface) (id : string) (w : World) : Response * World :=
  match faults w with
  | true :: _ => (failure_response s, drain w)
  | _ =>
      match note w !! id with
      | None => (not_found_response s, drain w)
      | Some n =>
          if viewed n then (already_viewed_response s, drain w)
          else match faults (drain w) with
               | true :: _ => (failure_response s, drain (drain w))
               | _ => (success_response s n, revealed id n (drain (drain w)))
               end
      end
  end.

(** The moves of the note store, the timers and the clock that one request,
    sweep, timer or passage of time can make. *)
Inductive change (w w' : World) : Prop :=
| change_grows :
    grows w w' -> change w w'
| change_reveal id n :
    note w !! id = Some n -> viewed n = false ->
    note w' = <[id := mark_viewed n]> (note w) ->
    timers w' = timers w ++ [scrub_timer id w] ->
    clock w' = clock w ->
    change w w'
| change_sweep :
    note w' = delete_many false (setDate_back (clock w) DAYS_UNTIL_EXPIRY) (note w) ->
    timers w' = timers w ->
    clock w' = clock w ->
    change w w'
| change_timer_lost k t :
    timers w !! k = Some t -> due t <= clock w ->
    note w' = note w ->
    timers w' = delete k (timers w) ->
    clock w' = clock w ->
    change w w'
| change_scrub k t id n :
    timers w !! k = Some t -> due t <= clock w ->
    task t = DestroyContent id -> note w !! id = Some n ->
    note w' = <[id := scrub n]> (note w) ->
    timers w' = delete k (timers w) ->
    clock w' = clock w ->
    change w w'
| change_elapse ms :
    note w' = note w -> timers w' = timers w ->
    clock w' = clock w + Z.of_N ms ->
    change w w'.

(** ** Reading the log of responses *)

(** Is the event a call to a reveal surface for note [id]? *)
Definition is_reveal_of (id : string) (e : Event) : bool :=
  match e with
  | GET_api_notes i | POST_note_reveal i => bool_decide (i = id)
  | _ => false
  end.

Definition status_of (r : option Response) : option Z := status <$> r.

(** A log entry that reports a successful reveal of note [id]. *)
Definition revealed_ok (id : string) (entry : Event * option Response) : bool :=
  is_reveal_of id entry.1 && bool_decide (status_of entry.2 = Some 200).

Definition successes (id : string) (log : list (Event * option Response)) : nat :=
  length (List.filter (revealed_ok id) log).

(** More example worlds. *)

Definition day : Z := 86400000.

(** Forty days in: an old unread note, an old viewed one, a recent unread one. *)
Definition attic : World :=
  set_clock (40 * day)
    (set_note (<["old-unread" := mkNote "a" false 0 "d"]>
               (<["old-viewed" := mkNote "b" true 0 "d"]>
                (<["young" := mkNote "c" false (39 * day) "d"]> ∅))) quiet).

(** A store whose next call rejects. *)
Definition store_down : World := set_faults [true] quiet.

(** A note whose content holds a single quote. *)
Definition with_quote : World :=
  set_note {["X" := mkNote "a'b" false 1000 "device-1"]} quiet.

(** The world of [with_hello] once the note has been revealed, the grace
    delay has passed and the scrub timer has fired. *)
Definition hello_scrubbed : World :=
  after [GET_api_notes "X"; Elapse 5000; TimerFires 0] with_hello.

(** The interpolated value that follows the fixed text opening the
    [encryptedContent] literal, if the page has one. *)
Fixpoint encryptedContent_of (page : list Segment) : option string :=
  match page with
  | Literal "';
      const encryptedContent = '" :: Interp v :: _ => Some v
  | _ :: rest => encryptedContent_of rest
  | [] => None
  end.

(** The world of [with_hello] once the note has been revealed and the grace
    delay has passed, the scrub timer still pending. *)
Definition hello_grace_over : World :=
  after [GET_api_notes "X"; Elapse 5000] with_hello.

(** What is left of a reveal handler once its lookup has returned the unread
    row [n]: the update, the timer, the response. *)
Definition write_back (s : Surface) (id : string) (n : Note) : Prog Response :=
  _ ← call (NoteUpdate id (mkNoteData (Some true) None));
  _ ← call (SetTimeout (DestroyContent id) GRACE_DELAY_MS);
  Ret (success_response s n).

(** A request resumed turn after turn with nothing in between. *)
Fixpoint serve (turns : nat) (t : Thread) (w : World) : Thread * World :=
  match turns with
  | O => (t, w)
  | S k => let '(t', w') := step_thread t w in serve k t' w'
  end.

(** The thread a handler is once it has run up to an await or to its end. *)
Definition settle (p : Prog Response) (catch : Response) : Thread :=
  match p with
  | Ret a => Replied a
  | Throw => Replied catch
  | Do _ _ => Running p catch
  end.

(** ** Further notions: text of the escaped literal *)

(** Number of single quotes in a string. *)
Fixpoint count_quotes (s : string) : nat :=
  match s with
  | EmptyString => O
  | String c rest =>
      if Ascii.eqb c "'"%char then S (count_quotes rest) else count_quotes rest
  end.

(** Every single quote of [s] comes right after a backslash; [escaped]
    tells whether the character before [s] was one. *)
Fixpoint quotes_escaped (escaped : bool) (s : string) : bool :=
  match s with
  | EmptyString => true
  | String c rest =>
      (if Ascii.eqb c "'"%char then escaped else true)
      && quotes_escaped (Ascii.eqb c "\"%char) rest
  end.

(** ** Further notions: the usage table *)

(** What [hasActivePremium] answers in a world: the subscriber has a
    [premium] entitlement that has no expiry date or has not expired. *)
Definition entitled (w : World) (dev : string) : bool :=
  match (if isRevenueCatConfigured w then revenuecat w dev else None) with
  | None => false
  | Some info =>
      match premiumEntitlement info with
      | None => false
      | Some None => true
      | Some (Some expiresDate) => negb (bool_decide (expiresDate < clock w))
      end
  end.

(** Usage updates that only grant premium or count upwards. *)
Definition usage_safe (X : Type) (c : Call X) : bool :=
  match c with
  | UsageUpdate _ (SetPremium b) => b
  | UsageUpdate _ (IncrementCount k) => bool_decide (0 <= k)
  | _ => true
  end.

(** Every usage row is still in its place, for the same device, premium if
    it was, with a count no smaller. *)
Definition usage_kept (w w' : World) : Prop :=
  forall (i : nat) u, noteUsage w !! i = Some u ->
    exists u', noteUsage w' !! i = Some u' /\
      usageId u' = usageId u /\ usageDeviceId u' = usageDeviceId u /\
      (isPremium u = true -> isPremium u' = true) /\ count u <= count u'.

(** The notes created so far, as the usage table counts them. *)
Definition total_count (w : World) : Z :=
  foldr (fun u s => count u + s) 0 (noteUsage w).

(** Calls of [getOrCreateUsage] and [hasActivePremium]. *)
Definition usage_only (X : Type) (c : Call X) : bool :=
  match c with
  | UsageFindFirst _ | UsageCreate _ _ _ 0 _ | UsageUpdate _ (SetPremium _)
  | GetSubscriberInfo _ | IsRevenueCatConfigured | NewDate => true
  | _ => false
  end.

(** Nothing but the usage table (and the fault script) differs, and the
    counts add up to the same. *)
Definition notes_kept (w w' : World) : Prop :=
  note w' = note w /\ timers w' = timers w /\ clock w' = clock w /\
  idSupply w' = idSupply w /\ total_count w' = total_count w.

(** A device at the free limit, and a premium one well past it. *)
Definition at_limit : World :=
  set_idSupply ["n6"]
    (set_noteUsage [mkNoteUsage 1 "device-1" 0 0 5 false;
                    mkNoteUsage 2 "device-2" 0 0 9 true] quiet).

(** The usage table has one row per key, as a table with a primary key has. *)
Definition well_keyed (w : World) : Prop := NoDup (usageId <$> noteUsage w).

(** The creations counted for a device, none if it has no row yet. *)
Definition counted (dev : string) (w : World) : Z :=
  match find_first dev (noteUsage w) with
  | Some u => count u
  | None => 0
  end.

(** Whether the device's latest row, if any, is premium. *)
Definition premium_of (dev : string) (w : World) : bool :=
  match find_first dev (noteUsage w) with
  | Some u => isPremium u
  | None => false
  end.

(** A log entry that reports a note created for device [dev]. *)
Definition created_for (dev : string) (entry : Event * option Response) : bool :=
  match entry.1 with
  | POST_api_notes _ d => bool_decide (d = dev) && bool_decide (status_of entry.2 = Some 200)
  | _ => false
  end.

Definition is_upgrade_of (dev : string) (e : Event) : bool :=
  match e with
  | POST_api_notes_upgrade d => bool_decide (d = dev)
  | _ => false
  end.

(** Calls that leave the usage table alone. *)
Definition no_usage (X : Type) (c : Call X) : bool :=
  match c with
  | UsageCreate _ _ _ _ _ | UsageUpdate _ _ => false
  | _ => true
  end.

(** The second half of [getOrCreateUsage]: the check against RevenueCat. *)
Definition verify_usage (dev : string) (verifySubscription : bool) (usage : NoteUsage)
  : Prog NoteUsage :=
  if verifySubscription && negb (isPremium usage) then
    configured ← call IsRevenueCatConfigured;
    if (configured : bool) then
      hasPremium ← hasActivePremium dev;
      if (hasPremium : bool)
      then call (UsageUpdate (usageId usage) (SetPremium true))
      else Ret usage
    else Ret usage
  else Ret usage.

(** Two worlds with the same notes, timers, clock, id supply and
    RevenueCat, and the store up in the second. *)
Definition same_but_usage (w w' : World) : Prop :=
  note w' = note w /\ timers w' = timers w /\ clock w' = clock w /\
  idSupply w' = idSupply w /\ faults w' = [] /\
  REVENUECAT_API_KEY w' = REVENUECAT_API_KEY w /\ revenuecat w' = revenuecat w.

(** The store is up, the usage table has one row per key. *)
Definition steady (w : World) : Prop := faults w = [] /\ well_keyed w.

(** Same RevenueCat, same clock. *)
Definition same_env (w w' : World) : Prop :=
  REVENUECAT_API_KEY w' = REVENUECAT_API_KEY w /\ revenuecat w' = revenuecat w.

(** A new device, and a store with seven ids to hand out. *)
Definition seven_ids : World :=
  set_idSupply ["n1"; "n2"; "n3"; "n4"; "n5"; "n6"; "n7"] quiet.

Definition seven_posts : list Event :=
  repeat (POST_api_notes "hi" "device-1") 7.

(** Is the id the store will give the next note free? *)
Definition id_available (w : World) : bool :=
  match idSupply w with
  | i :: _ => bool_decide (note w !! i = None)
  | [] => false
  end.

(** A stored note, a full usage row for another device, a store that
    rejects its next call, and some traffic that does not reveal ["X"]. *)
Definition busy : World :=
  set_faults [false; true] (set_idSupply ["X"; "n1"] with_hello).

Definition traffic : list Event :=
  [GET_note "X"; POST_api_notes "hi" "device-2"; Sweep; GET_api_notes "Y";
   Elapse 86400000; POST_note_reveal "Y"; TimerFires 0; Sweep; GET_note "X"].

(** * The page script: AES-256-CTR in the browser

    The script [renderPage] sends with the reveal page ([index.ts], lines
    352-466).  A [Uint8Array] is a list of integers: a read past the end
    gives 0 where the script would get [undefined] (which every use here
    turns into 0), a store keeps the value modulo 256 and is dropped past
    the end. *)

Definition get (a : list Z) (i : nat) : Z := nth i a 0.
Definition put (a : list Z) (i : nat) (v : Z) : list Z := <[i := v mod 256]> a.
Definition Uint8Array (n : nat) : list Z := repeat 0 n.

(** [for (let i = from; i < to; i++) body] *)
Definition loop {S : Type} (from to : nat) (body : nat -> S -> S) (s : S) : S :=
  fold_left (fun s i => body i s) (seq from (to - from)) s.

Definition SBOX : list Z :=
  [
   0x63; 0x7c; 0x77; 0x7b; 0xf2; 0x6b; 0x6f; 0xc5; 0x30; 0x01; 0x67; 0x2b; 0xfe; 0xd7; 0xab; 0x76;
   0xca; 0x82; 0xc9; 0x7d; 0xfa; 0x59; 0x47; 0xf0; 0xad; 0xd4; 0xa2; 0xaf; 0x9c; 0xa4; 0x72; 0xc0;
   0xb7; 0xfd; 0x93; 0x26; 0x36; 0x3f; 0xf7; 0xcc; 0x34; 0xa5; 0xe5; 0xf1; 0x71; 0xd8; 0x31; 0x15;
   0x04; 0xc7; 0x23; 0xc3; 0x18; 0x96; 0x05; 0x9a; 0x07; 0x12; 0x80; 0xe2; 0xeb; 0x27; 0xb2; 0x75;
   0x09; 0x83; 0x2c; 0x1a; 0x1b; 0x6e; 0x5a; 0xa0; 0x52; 0x3b; 0xd6; 0xb3; 0x29; 0xe3; 0x2f; 0x84;
   0x53; 0xd1; 0x00; 0xed; 0x20; 0xfc; 0xb1; 0x5b; 0x6a; 0xcb; 0xbe; 0x39; 0x4a; 0x4c; 0x58; 0xcf;
   0xd0; 0xef; 0xaa; 0xfb; 0x43; 0x4d; 0x33; 0x85; 0x45; 0xf9; 0x02; 0x7f; 0x50; 0x3c; 0x9f; 0xa8;
   0x51; 0xa3; 0x40; 0x8f; 0x92; 0x9d; 0x38; 0xf5; 0xbc; 0xb6; 0xda; 0x21; 0x10; 0xff; 0xf3; 0xd2;
   0xcd; 0x0c; 0x13; 0xec; 0x5f; 0x97; 0x44; 0x17; 0xc4; 0xa7; 0x7e; 0x3d; 0x64; 0x5d; 0x19; 0x73;
   0x60; 0x81; 0x4f; 0xdc; 0x22; 0x2a; 0x90; 0x88; 0x46; 0xee; 0xb8; 0x14; 0xde; 0x5e; 0x0b; 0xdb;
   0xe0; 0x32; 0x3a; 0x0a; 0x49; 0x06; 0x24; 0x5c; 0xc2; 0xd3; 0xac; 0x62; 0x91; 0x95; 0xe4; 0x79;
   0xe7; 0xc8; 0x37; 0x6d; 0x8d; 0xd5; 0x4e; 0xa9; 0x6c; 0x56; 0xf4; 0xea; 0x65; 0x7a; 0xae; 0x08;
   0xba; 0x78; 0x25; 0x2e; 0x1c; 0xa6; 0xb4; 0xc6; 0xe8; 0xdd; 0x74; 0x1f; 0x4b; 0xbd; 0x8b; 0x8a;
   0x70; 0x3e; 0xb5; 0x66; 0x48; 0x03; 0xf6; 0x0e; 0x61; 0x35; 0x57; 0xb9; 0x86; 0xc1; 0x1d; 0x9e;
   0xe1; 0xf8; 0x98; 0x11; 0x69; 0xd9; 0x8e; 0x94; 0x9b; 0x1e; 0x87; 0xe9; 0xce; 0x55; 0x28; 0xdf;
   0x8c; 0xa1; 0x89; 0x0d; 0xbf; 0xe6; 0x42; 0x68; 0x41; 0x99; 0x2d; 0x0f; 0xb0; 0x54; 0xbb; 0x16
  ].

Definition RCON : list Z :=
  [0x01; 0x02; 0x04; 0x08; 0x10; 0x20; 0x40; 0x80; 0x1b; 0x36].

(** [SBOX[x]] *)
Definition sbox (x : Z) : Z := get SBOX (Z.to_nat x).

(** [gmul(a, b)], for bytes [a] and [b]. *)
Definition gmul (a b : Z) : Z :=
  fst (fst (loop 0 8
    (fun _ '(p, a, b) =>
       let p := if Z.land b 1 =? 0 then p else Z.lxor p a in
       let hi := Z.land a 0x80 in
       let a := Z.land (Z.shiftl a 1) 0xff in
       let a := if hi =? 0 then a else Z.lxor a 0x1b in
       let b := Z.shiftr b 1 in
       (p, a, b))
    (0, a, b))).

Definition expandKey (key : list Z) : list (list Z) :=
  let Nk := 8%nat in
  let Nr := 14%nat in
  let Nb := 4%nat in
  let W := repeat [] ((Nr + 1) * Nb) in
  let W :=
    loop 0 Nk
      (fun i W =>
         <[i := put (put (put (put (Uint8Array 4) 0 (get key (4 * i)))
                              1 (get key (4 * i + 1)))
                         2 (get key (4 * i + 2)))
                    3 (get key (4 * i + 3))]> W) W in
  loop Nk ((Nr + 1) * Nb)
    (fun i W =>
       let temp := nth (i - 1) W [] in
       let temp :=
         if (i mod Nk =? 0)%nat then
           let t := get temp 0 in
           let temp := put temp 0 (Z.lxor (sbox (get temp 1)) (get RCON (i / Nk - 1))) in
           let temp := put temp 1 (sbox (get temp 2)) in
           let temp := put temp 2 (sbox (get temp 3)) in
           put temp 3 (sbox t)
         else if (6 <? Nk)%nat && (i mod Nk =? 4)%nat then
           loop 0 4 (fun j temp => put temp j (sbox (get temp j))) temp
         else temp in
       let Wi :=
         loop 0 4
           (fun j Wi => put Wi j (Z.lxor (get (nth (i - Nk) W []) j) (get temp j)))
           (Uint8Array 4) in
       <[i := Wi]> W) W.

Definition aesBlock (block : list Z) (roundKeys : list (list Z)) : list Z :=
  let state := Uint8Array 16 in
  let state := loop 0 16 (fun i state => put state i (get block i)) state in
  let state :=
    loop 0 4
      (fun i state =>
         loop 0 4
           (fun j state =>
              put state (i * 4 + j)
                  (Z.lxor (get state (i * 4 + j)) (get (nth i roundKeys []) j)))
           state) state in
  loop 1 15
    (fun round state =>
       let state := loop 0 16 (fun i state => put state i (sbox (get state i))) state in
       let t := get state 1 in
       let state := put state 1 (get state 5) in
       let state := put state 5 (get state 9) in
       let state := put state 9 (get state 13) in
       let state := put state 13 t in
       let t := get state 2 in
       let state := put state 2 (get state 10) in
       let state := put state 10 t in
       let t := get state 6 in
       let state := put state 6 (get state 14) in
       let state := put state 14 t in
       let t := get state 15 in
       let state := put state 15 (get state 11) in
       let state := put state 11 (get state 7) in
       let state := put state 7 (get state 3) in
       let state := put state 3 t in
       let state :=
         if (round <? 14)%nat then
           loop 0 4
             (fun i state =>
                let s0 := get state (i * 4) in
                let s1 := get state (i * 4 + 1) in
                let s2 := get state (i * 4 + 2) in
                let s3 := get state (i * 4 + 3) in
                let state :=
                  put state (i * 4)
                      (Z.lxor (Z.lxor (Z.lxor (gmul s0 2) (gmul s1 3)) s2) s3) in
                let state :=
                  put state (i * 4 + 1)
                      (Z.lxor (Z.lxor (Z.lxor s0 (gmul s1 2)) (gmul s2 3)) s3) in
                let state :=
                  put state (i * 4 + 2)
                      (Z.lxor (Z.lxor (Z.lxor s0 s1) (gmul s2 2)) (gmul s3 3)) in
                put state (i * 4 + 3)
                    (Z.lxor (Z.lxor (Z.lxor (gmul s0 3) s1) s2) (gmul s3 2)))
             state
         else state in
       loop 0 4
         (fun i state =>
            loop 0 4
              (fun j state =>
                 put state (i * 4 + j)
                     (Z.lxor (get state (i * 4 + j))
                             (get (nth (round * 4 + i) roundKeys []) j)))
              state) state)
    state.

(** [incrementCounter], from index [n - 1] down. *)
Fixpoint incrementCounter_from (n : nat) (counter : list Z) : list Z :=
  match n with
  | O => counter
  | S i =>
      let counter := put counter i (get counter i + 1) in
      if get counter i =? 0 then incrementCounter_from i counter else counter
  end.

Definition incrementCounter (counter : list Z) : list Z :=
  incrementCounter_from 16 counter.

Definition aesCtr (data key nonce : list Z) : list Z :=
  let roundKeys := expandKey key in
  let result := Uint8Array (length data) in
  let counter := Uint8Array 16 in
  let counter := loop 0 12 (fun i counter => put counter i (get nonce i)) counter in
  fst (loop 0 ((length data + 15) / 16)
         (fun b '(result, counter) =>
            let i := (16 * b)%nat in
            let keystream := aesBlock counter roundKeys in
            let blockSize := Nat.min 16 (length data - i) in
            let result :=
              loop 0 blockSize
                (fun j result =>
                   put result (i + j) (Z.lxor (get data (i + j)) (get keystream j)))
                result in
            (result, incrementCounter counter))
         (result, counter)).

(** [base64ToUint8Array], [uint8ArrayToString] and [decryptContent], over
    the browser's [atob] (the character codes of the decoded string, or
    nothing when it throws) and [TextDecoder]. *)
Definition base64ToUint8Array (atob : string -> option (list Z)) (base64 : string)
  : option (list Z) :=
  match atob base64 with
  | Some binary =>
      Some (loop 0 (length binary) (fun i bytes => put bytes i (get binary i))
                 (Uint8Array (length binary)))
  | None => None
  end.

Definition decryptContent (atob : string -> option (list Z))
  (decode : list Z -> string) (encryptedBase64 keyBase64 : string) : option string :=
  match base64ToUint8Array atob keyBase64 with
  | Some key =>
      match base64ToUint8Array atob encryptedBase64 with
      | Some combined =>
          let nonce := take 12 combined in
          let ciphertext := drop 12 combined in
          let plaintext := aesCtr ciphertext key nonce in
          Some (decode plaintext)
      | None => None
      end
  | None => None
  end.

(** The keystream block the script uses for block [b] of the data. *)
Definition initial_counter (nonce : list Z) : list Z :=
  loop 0 12 (fun i counter => put counter i (get nonce i)) (Uint8Array 16).

Definition keystream_block (key nonce : list Z) (b : nat) : list Z :=
  aesBlock (Nat.iter b incrementCounter (initial_counter nonce)) (expandKey key).

(** A list of bytes, and the number a 16-byte counter spells, big end
    first. *)
Definition is_byte (x : Z) : Prop := 0 <= x < 256.
Definition bytes (l : list Z) : Prop := Forall is_byte l.

Definition be_value (l : list Z) : Z := fold_left (fun acc x => acc * 256 + x) l 0.

(** The bytes [0 .. 255], for checks by enumeration. *)
Definition all_bytes : list Z := map Z.of_nat (seq 0 256).

(** FIPS-197, appendix C.3: key, plaintext block and ciphertext block. *)
Definition fips_key : list Z := map Z.of_nat (seq 0 32).
Definition fips_plain : list Z :=
  [0x00; 0x11; 0x22; 0x33; 0x44; 0x55; 0x66; 0x77;
   0x88; 0x99; 0xaa; 0xbb; 0xcc; 0xdd; 0xee; 0xff].
Definition fips_cipher : list Z :=
  [0x8e; 0xa2; 0xb7; 0xca; 0x51; 0x67; 0x45; 0xbf;
   0xea; 0xfc; 0x49; 0x90; 0x4b; 0x49; 0x60; 0x89].

#[global] Instance is_byte_dec (x : Z) : Decision (is_byte x).
Proof. unfold is_byte. apply _. Defined.
#[global] Instance bytes_dec (l : list Z) : Decision (bytes l).
Proof. unfold bytes. apply _. Defined.

(** What is checked of [gmul] on a pair of bytes: the product is a byte,
    does not depend on the order, has unit 1, is zero only when a factor
    is, and doubling is a shift with the reduction by [0x1b]. *)
Definition gmul_check (a b : Z) : bool :=
  (0 <=? gmul a b) && (gmul a b <? 256)
  && (gmul a b =? gmul b a)
  && (gmul a 1 =? a)
  && Bool.eqb (gmul a b =? 0) ((a =? 0) || (b =? 0))
  && (gmul a 2 =? Z.lxor ((2 * a) mod 256) (if a <? 128 then 0 else 0x1b)).

(** The S-box as FIPS-197 defines it (section 5.1.1): the inverse in
    GF(2^8), 0 going to 0, then the affine map, which xors a byte with its
    rotations by 1, 2, 3 and 4 bits and with [0x63]. *)
Definition gf_inverse (a : Z) : Z :=
  default 0 (List.find (fun b => gmul a b =? 1) all_bytes).

Definition rotl8 (x : Z) (k : Z) : Z :=
  Z.lor (Z.land (Z.shiftl x k) 0xff) (Z.shiftr x (8 - k)).

Definition aes_sbox (a : Z) : Z :=
  let b := gf_inverse a in
  Z.lxor (Z.lxor (Z.lxor (Z.lxor (Z.lxor b (rotl8 b 1)) (rotl8 b 2)) (rotl8 b 3))
                 (rotl8 b 4)) 0x63.

(** A browser for the examples: two strings [atob] decodes, and a text
    decoder for ASCII. *)
Definition sample_nonce : list Z := map Z.of_nat (seq 1 12).
Definition sample_text : list Z := [104; 101; 108; 108; 111].

Definition sample_atob (s : string) : option (list Z) :=
  if bool_decide (s = "key") then Some fips_key
  else if bool_decide (s = "content")
       then Some (sample_nonce ++ aesCtr sample_text fips_key sample_nonce)
       else None.

Definition sample_decode (l : list Z) : string :=
  string_of_list_ascii (map (fun x => ascii_of_nat (Z.to_nat x)) l).
(** ** Programs: running, binding, and what their calls may change *)

Lemma run_bind {A B} (p : Prog A) (f : A -> Prog B) (w : World) :
  run (p ≫= f) w =
  match run p w with
  | (Some a, w') => run (f a) w'
  | (None, w') => (None, w')
  end.
Proof.
  revert w. induction p as [a| |X c k IH]; intros w; try reflexivity.
  change (run (Do c k ≫= f) w) with
    (match perform c w with
     | (Some x, w') => run (k x ≫= f) w'
     | (None, w') => (None, w')
     end).
  cbn [run]. destruct (perform c w) as [[x|] w']; [apply IH | reflexivity].
Qed.

Lemma run_call {X} (c : Call X) (w : World) : run (call c) w = perform c w.
Proof. unfold call. cbn [run]. by destruct (perform c w) as [[x|] w']. Qed.

(** With the store up, a call is just its effect. *)
Lemma perform_up {X} (c : Call X) (w : World) :
  faults w = [] -> perform c w = effect c w.
Proof.
  intros Hup. unfold perform, pop_fault. rewrite Hup.
  by destruct (is_db c).
Qed.


Lemma perform_world {X} (c : Call X) (w : World) :
  exists w0, (w0 = w \/ w0 = drain w) /\
    ((perform c w).2 = w0 \/ (perform c w).2 = (effect c w0).2).
Proof.
  unfold perform, pop_fault, drain.
  destruct (is_db c).
  - destruct (faults w) as [|[] fs] eqn:Hf.
    + exists w. auto.
    + exists (set_faults fs w). cbn. auto.
    + exists (set_faults fs w). cbn. auto.
  - exists w. auto.
Qed.

Section Frame.
(** The calls a program is allowed to make ... *)
Variable allowed : forall X, Call X -> bool.

Lemma uses_bind {A B} (p : Prog A) (f : A -> Prog B) :
  uses allowed p -> (forall a, uses allowed (f a)) -> uses allowed (p ≫= f).
Proof.
  intros Hp Hf. induction p as [a| |X c k IH]; cbn; auto.
  destruct Hp as [Hc Hk]. split; [exact Hc|].
  intros x. apply IH, Hk.
Qed.

Lemma uses_call {X} (c : Call X) : allowed _ c = true -> uses allowed (call c).
Proof. intros Hc. cbn. auto. Qed.

(** ... and a relation between worlds that each of them respects. *)
Variable R : World -> World -> Prop.
Hypothesis R_refl : forall w, R w w.
Hypothesis R_trans : forall a b c, R a b -> R b c -> R a c.
Hypothesis R_drain : forall w, R w (drain w).
Hypothesis R_effect :
  forall X (c : Call X) w, allowed X c = true -> R w (effect c w).2.

Lemma perform_frame {X} (c : Call X) (w : World) :
  allowed X c = true -> R w (perform c w).2.
Proof using R_refl R_trans R_drain R_effect.
  intros Hc.
  destruct (perform_world c w) as (w0 & Hw0 & [-> | ->]).
  - destruct Hw0 as [-> | ->]; auto.
  - apply R_trans with w0; [destruct Hw0 as [-> | ->]; auto|].
    by apply R_effect.
Qed.

Lemma run_frame {A} (p : Prog A) (w : World) : uses allowed p -> R w (run p w).2.
Proof using R_refl R_trans R_drain R_effect.
  revert w. induction p as [a| |X c k IH]; intros w Hp; cbn [run]; auto.
  destruct Hp as [Hc Hk].
  pose proof (perform_frame c w Hc) as Hstep.
  destruct (perform c w) as [[x|] w']; cbn in *; auto.
  eapply R_trans; [exact Hstep|]. apply IH, Hk.
Qed.

Lemma try_catch_frame {A} (p : Prog A) (r : A) (w : World) :
  uses allowed p -> R w (try_catch p r w).2.
Proof using R_refl R_trans R_drain R_effect.
  intros Hp. pose proof (run_frame p w Hp) as H.
  unfold try_catch. by destruct (run p w) as [[a|] w'].
Qed.
End Frame.

(** ** What the calls leave alone *)

Lemma effect_faults {X} (c : Call X) (w : World) : faults (effect c w).2 = faults w.
Proof.
  destruct c; cbn; try reflexivity.
  - by destruct (note w !! id).
  - destruct (idSupply w) as [|i ids]; [done|]. by destruct (note w !! i).
  - by destruct (update_usage id d (noteUsage w)) as [[u us]|].
Qed.


Lemma uses_any {A} (p : Prog A) : uses any_call p.
Proof. induction p; cbn; auto. Qed.


Lemma run_stays_up {A} (p : Prog A) (w : World) : stays_up w (run p w).2.
Proof.
  apply (run_frame any_call stays_up); unfold stays_up; auto using uses_any.
  - intros w0 Hup. unfold drain. cbn. by rewrite Hup.
  - intros X c w0 _ Hup. by rewrite effect_faults.
Qed.

Lemma try_catch_stays_up {A} (p : Prog A) (r : A) (w : World) :
  faults w = [] -> faults (try_catch p r w).2 = [].
Proof.
  intros Hup. pose proof (run_stays_up p w Hup) as H.
  unfold try_catch. by destruct (run p w) as [[a|] w'].
Qed.



Lemma same_store_refl w : same_store w w.
Proof. by repeat split. Qed.

Lemma same_store_trans a b c : same_store a b -> same_store b c -> same_store a c.
Proof.
  unfold same_store. intros (?&?&?&?&?&?&?) (?&?&?&?&?&?&?).
  repeat split; congruence.
Qed.

Lemma run_reads_only {A} (p : Prog A) (w : World) :
  uses reads_only p -> same_store w (run p w).2.
Proof.
  apply (run_frame reads_only same_store same_store_refl same_store_trans).
  - intros w0. by repeat split.
  - intros X c w0 Hc. destruct c; try discriminate Hc; apply same_store_refl.
Qed.



Lemma grows_refl w : grows w w.
Proof. repeat split. auto. Qed.

Lemma grows_trans a b c : grows a b -> grows b c -> grows a c.
Proof.
  intros (Ht1 & Hc1 & H1) (Ht2 & Hc2 & H2).
  split; [congruence|]. split; [congruence|].
  intros id. destruct (H2 id) as [E2 | (N2 & n & E2 & Hv & Hat)].
  - rewrite E2. destruct (H1 id) as [E1 | (N1 & m & E1 & Hm)]; [by left|].
    right. split; [done|]. by exists m.
  - destruct (H1 id) as [E1 | (N1 & m & E1 & Hm)].
    + right. split; [congruence|]. exists n. repeat split; congruence.
    + congruence.
Qed.

Lemma run_additive {A} (p : Prog A) (w : World) :
  uses additive p -> grows w (run p w).2.
Proof.
  apply (run_frame additive grows grows_refl grows_trans).
  - intros w0. repeat split. auto.
  - intros X c w0 Hc.
    destruct c; try discriminate Hc; cbn; try apply grows_refl.
    + destruct (idSupply w0) as [|i ids]; [apply grows_refl|].
      destruct (note w0 !! i) eqn:Hi; [repeat split; auto|].
      repeat split. cbn. intros j.
      destruct (decide (i = j)) as [<-|Hne].
      * right. split; [done|]. eexists. rewrite lookup_insert_eq. by repeat split.
      * left. by rewrite lookup_insert_ne.
    + repeat split. auto.
    + destruct (update_usage id d (noteUsage w0)) as [[u us]|]; repeat split; auto.
Qed.

(** ** The two reveal handlers *)

Lemma reveal_up (s : Surface) (id : string) (w : World) :
  faults w = [] ->
  reveal s id w =
  match note w !! id with
  | None => (not_found_response s, w)
  | Some n =>
      if viewed n then (already_viewed_response s, w)
      else (success_response s n, revealed id n w)
  end.
Proof.
  intros Hup.
  destruct s; unfold reveal, notesRouter_get_id, app_post_note_reveal, try_catch,
    notesRouter_get_id_body, app_post_note_reveal_body;
    rewrite run_bind, run_call, perform_up by done; cbn [effect];
    (destruct (note w !! id) as [n|] eqn:Hn; [|reflexivity]);
    (destruct (viewed n) eqn:Hv; [reflexivity|]);
    rewrite run_bind, run_call, perform_up by done; cbn [effect]; rewrite Hn;
    rewrite run_bind, run_call; reflexivity.
Qed.

Lemma perform_db {X} (c : Call X) (w : World) :
  is_db c = true ->
  perform c w =
  match faults w with
  | true :: _ => (None, drain w)
  | _ => effect c (drain w)
  end.
Proof.
  intros Hdb. unfold perform, pop_fault, drain. rewrite Hdb.
  destruct w as [nt us ts ck fs ids key rc]. cbn.
  by destruct fs as [|[] fs].
Qed.

Lemma reveal_gate (s : Surface) (id : string) (w : World) :
  reveal s id w = gate s id w.
Proof.
  unfold gate.
  destruct s; unfold reveal, notesRouter_get_id, app_post_note_reveal, try_catch,
    notesRouter_get_id_body, app_post_note_reveal_body;
    rewrite run_bind, run_call, perform_db by done;
    (destruct (faults w) as [|[] fs] eqn:Hf; [|reflexivity|]);
    cbn [effect];
    change (note (drain w)) with (note w);
    (destruct (note w !! id) as [n|] eqn:Hn; [|reflexivity]);
    (destruct (viewed n) eqn:Hv; [reflexivity|]);
    rewrite run_bind, run_call, perform_db by done;
    (destruct (faults (drain w)) as [|[] fs'] eqn:Hf'; [|reflexivity|]);
    cbn [effect];
    change (note (drain (drain w))) with (note w); rewrite Hn;
    rewrite run_bind, run_call; reflexivity.
Qed.

(** ** Every event is one of the moves of [change] *)

Ltac uses_tac :=
  repeat first
    [ exact I
    | apply uses_call; reflexivity
    | apply uses_bind
    | intros ?
    | match goal with
      | |- uses _ (match ?x with _ => _ end) => destruct x
      end
    | progress cbn [uses]
    | split ].

Lemma hasActivePremium_additive dev : uses additive (hasActivePremium dev).
Proof. unfold hasActivePremium. uses_tac. Qed.

Lemma getOrCreateUsage_additive dev v : uses additive (getOrCreateUsage dev v).
Proof.
  unfold getOrCreateUsage. uses_tac; apply hasActivePremium_additive.
Qed.

Lemma same_store_grows w w' : same_store w w' -> grows w w'.
Proof. intros (Hn & _ & Ht & Hc & _). repeat split; auto. intros id. left. by rewrite Hn. Qed.

Lemma try_catch_world {A} (p : Prog A) (r : A) (w : World) :
  (try_catch p r w).2 = (run p w).2.
Proof. unfold try_catch. by destruct (run p w) as [[a|] w']. Qed.

Lemma usage_grows dev w : grows w (notesRouter_get_usage dev w).2.
Proof.
  unfold notesRouter_get_usage. rewrite try_catch_world.
  apply run_additive. uses_tac; apply getOrCreateUsage_additive.
Qed.

Lemma upgrade_grows dev w : grows w (notesRouter_post_upgrade dev w).2.
Proof.
  unfold notesRouter_post_upgrade.
  destruct (upgradeRequestSchema dev); [|apply grows_refl].
  rewrite try_catch_world.
  apply run_additive. uses_tac; apply getOrCreateUsage_additive.
Qed.

Lemma post_grows c dev w : grows w (notesRouter_post c dev w).2.
Proof.
  unfold notesRouter_post.
  destruct (createNoteRequestSchema c dev); [|apply grows_refl].
  rewrite try_catch_world.
  apply run_additive. unfold notesRouter_post_body. uses_tac; apply getOrCreateUsage_additive.
Qed.

Lemma page_load_reads_only id : uses reads_only (app_get_note_body id).
Proof. unfold app_get_note_body. uses_tac. Qed.

Lemma page_load_same_store id w : same_store w (app_get_note id w).2.
Proof.
  unfold app_get_note. rewrite try_catch_world.
  apply run_reads_only, page_load_reads_only.
Qed.

Lemma drain_same_store w : same_store w (drain w).
Proof. by repeat split. Qed.

Lemma gate_change s id w : change w (gate s id w).2.
Proof.
  unfold gate.
  destruct (faults w) as [|[] fs];
    try (apply change_grows, same_store_grows, drain_same_store).
  all: destruct (note w !! id) as [n|] eqn:Hn;
    try (apply change_grows, same_store_grows, drain_same_store).
  all: destruct (viewed n) eqn:Hv;
    try (apply change_grows, same_store_grows, drain_same_store).
  all: destruct (faults (drain w)) as [|[] fs'];
    try (apply change_grows, same_store_grows;
         apply same_store_trans with (drain w); apply drain_same_store).
  all: by apply (change_reveal _ _ id n).
Qed.

Lemma reveal_change s id w : change w (reveal s id w).2.
Proof. rewrite reveal_gate. apply gate_change. Qed.

Lemma cleanup_change w : change w (cleanupExpiredNotes w).2.
Proof.
  unfold cleanupExpiredNotes. rewrite try_catch_world.
  rewrite run_bind, run_call. cbn [perform is_db effect].
  rewrite run_bind, run_call, perform_db by done.
  destruct (faults w) as [|[] fs]; cbn [effect];
    try (apply change_grows, same_store_grows, drain_same_store).
  all: by apply change_sweep.
Qed.

Lemma run_task_world id w :
  run_task (DestroyContent id) w =
  match faults w, note w !! id with
  | true :: _, _ => drain w
  | _, None => drain w
  | _, Some n => set_note (<[id := scrub n]> (note w)) (drain w)
  end.
Proof.
  unfold run_task. rewrite try_catch_world.
  rewrite run_bind, run_call, perform_db by done.
  destruct (faults w) as [|[] fs]; cbn [effect];
    change (note (drain w)) with (note w);
    by destruct (note w !! id).
Qed.

Lemma fire_change k w : change w (fire k w).
Proof.
  unfold fire. destruct (timers w !! k) as [t|] eqn:Hk; [|apply change_grows, grows_refl].
  case_bool_decide as Hdue; [|apply change_grows, grows_refl].
  destruct t as [d [id]]. cbn [task]. rewrite run_task_world.
  cbn [faults set_timers note].
  destruct (faults w) as [|[] fs]; destruct (note w !! id) as [n|] eqn:Hn.
  all: first [ by apply (change_scrub _ _ k (mkTimer d (DestroyContent id)) id n)
             | by apply (change_timer_lost _ _ k (mkTimer d (DestroyContent id))) ].
Qed.

Lemma exec_change e w : change w (exec e w).2.
Proof.
  destruct e; cbn [exec prod_map snd].
  - apply change_grows, usage_grows.
  - apply change_grows, upgrade_grows.
  - apply change_grows, post_grows.
  - apply (reveal_change DirectApi).
  - apply change_grows, same_store_grows, page_load_same_store.
  - apply (reveal_change WebReveal).
  - apply cleanup_change.
  - apply fire_change.
  - by apply (change_elapse _ _ ms).
Qed.

Lemma exec_stays_up e w : faults w = [] -> faults (exec e w).2 = [].
Proof.
  intros Hup. destruct e; cbn [exec prod_map snd].
  - by apply try_catch_stays_up.
  - unfold notesRouter_post_upgrade. destruct (upgradeRequestSchema dev); [|done].
    by apply try_catch_stays_up.
  - unfold notesRouter_post. destruct (createNoteRequestSchema c dev); [|done].
    by apply try_catch_stays_up.
  - by apply try_catch_stays_up.
  - by apply try_catch_stays_up.
  - by apply try_catch_stays_up.
  - by apply try_catch_stays_up.
  - unfold fire. destruct (timers w !! k) as [[d [id]]|]; [|done].
    case_bool_decide; [|done]. by apply try_catch_stays_up.
  - done.
Qed.

(** ** What the moves do to one note *)

Lemma delete_many_lookup v t (m : gmap string Note) (id : string) :
  delete_many v t m !! id =
  match m !! id with
  | Some n => if expired v t n then None else Some n
  | None => None
  end.
Proof.
  unfold delete_many. rewrite map_lookup_filter.
  destruct (m !! id) as [n|]; [|reflexivity]. cbn.
  destruct (expired v t n); by case_guard.
Qed.

Lemma change_clock w w' : change w w' -> clock w <= clock w'.
Proof.
  destruct 1 as [(_ & Hc & _)| | | | |]; try lia.
Qed.

(** A viewed note stays, as it is or scrubbed by a timer that was due. *)
Lemma change_viewed w w' (id : string) n :
  change w w' -> note w !! id = Some n -> viewed n = true ->
  note w' !! id = Some n \/
  (note w' !! id = Some (scrub n) /\
   exists k t, timers w !! k = Some t /\ task t = DestroyContent id /\ due t <= clock w).
Proof.
  intros Hch Hn Hv.
  destruct Hch as [(_ & _ & Hg)|id0 n0 Hn0 Hv0 Hnote _ _|Hnote _ _
                  |k t _ _ Hnote _ _|k t id0 n0 Hk Hdue Ht Hn0 Hnote _ _|ms Hnote _ _].
  - destruct (Hg id) as [E | (E & _)]; [left|]; congruence.
  - left. rewrite Hnote. destruct (decide (id0 = id)) as [->|Hne].
    + congruence.
    + by rewrite lookup_insert_ne.
  - left. rewrite Hnote, delete_many_lookup, Hn.
    unfold expired. rewrite Hv. reflexivity.
  - left. by rewrite Hnote.
  - rewrite Hnote. destruct (decide (id0 = id)) as [->|Hne].
    + right. rewrite lookup_insert_eq. split; [congruence|]. by exists k, t.
    + left. by rewrite lookup_insert_ne.
  - left. by rewrite Hnote.
Qed.

Lemma change_viewed_weak w w' (id : string) n :
  change w w' -> note w !! id = Some n -> viewed n = true ->
  exists n', note w' !! id = Some n' /\ viewed n' = true /\
             createdAt n' = createdAt n /\ deviceId n' = deviceId n /\
             (content n' = content n \/ content n' = DESTROYED).
Proof.
  intros Hch Hn Hv.
  destruct (change_viewed w w' id n Hch Hn Hv) as [E | (E & _)].
  - exists n. repeat split; auto.
  - exists (scrub n). cbn. repeat split; auto.
Qed.

(** A pending timer was pending already, or is the scrub of a note this very
    move has marked. *)
Lemma change_timers w w' t :
  change w w' -> t ∈ timers w' ->
  t ∈ timers w \/
  exists id n, t = scrub_timer id w /\ note w !! id = Some n /\ viewed n = false /\
               note w' !! id = Some (mark_viewed n).
Proof.
  intros Hch Ht.
  destruct Hch as [(Hts & _)|id0 n0 Hn0 Hv0 Hnote Hts _|_ Hts _
                  |k t0 _ _ _ Hts _|k t0 id0 n0 _ _ _ _ _ Hts _|ms _ Hts _];
    rewrite Hts in Ht; auto.
  - apply elem_of_app in Ht as [Ht | Ht]; [by left|].
    apply list_elem_of_singleton in Ht as ->. right. exists id0, n0.
    repeat split; auto. rewrite Hnote. apply lookup_insert_eq.
  - left. eapply elem_of_sublist; [exact Ht|apply sublist_delete].
  - left. eapply elem_of_sublist; [exact Ht|apply sublist_delete].
Qed.

Lemma change_wf w w' :
  change w w' -> timers_target_viewed w -> timers_target_viewed w'.
Proof.
  intros Hch Hwf t Ht.
  destruct (change_timers w w' t Hch Ht) as [Hold | (id & n & -> & _ & _ & Hn)].
  - specialize (Hwf t Hold). destruct (task t) as [id].
    destruct Hwf as (n & Hn & Hv).
    destruct (change_viewed_weak w w' id n Hch Hn Hv) as (n' & Hn' & Hv' & _).
    by exists n'.
  - cbn [scrub_timer task]. by exists (mark_viewed n).
Qed.

(** With every pending scrub aimed at a viewed note, an unread note stays as
    it is, gets marked, or is swept away for its age. *)
Lemma change_unread w w' (id : string) n :
  change w w' -> timers_target_viewed w ->
  note w !! id = Some n -> viewed n = false ->
  note w' !! id = Some n \/
  note w' !! id = Some (mark_viewed n) \/
  (note w' !! id = None /\ createdAt n < setDate_back (clock w) DAYS_UNTIL_EXPIRY).
Proof.
  intros Hch Hwf Hn Hv.
  destruct Hch as [(_ & _ & Hg)|id0 n0 Hn0 Hv0 Hnote _ _|Hnote _ _
                  |k t _ _ Hnote _ _|k t id0 n0 Hk Hdue Ht Hn0 Hnote _ _|ms Hnote _ _].
  - destruct (Hg id) as [E | (E & _)]; [left|]; congruence.
  - rewrite Hnote. destruct (decide (id0 = id)) as [->|Hne].
    + right; left. rewrite lookup_insert_eq. congruence.
    + left. by rewrite lookup_insert_ne.
  - rewrite Hnote, delete_many_lookup, Hn. unfold expired. rewrite Hv.
    rewrite bool_decide_eq_true_2 by done. cbn.
    case_bool_decide; [right; right|left]; auto.
  - left. by rewrite Hnote.
  - rewrite Hnote. destruct (decide (id0 = id)) as [->|Hne].
    + apply list_elem_of_lookup_2 in Hk. specialize (Hwf t Hk).
      rewrite Ht in Hwf. destruct Hwf as (m & Hm & Hmv). congruence.
    + left. by rewrite lookup_insert_ne.
  - left. by rewrite Hnote.
Qed.

(** An id that is free stays free, or is given to a new unread note. *)
Lemma change_absent w w' (id : string) :
  change w w' -> note w !! id = None ->
  note w' !! id = None \/
  exists n, note w' !! id = Some n /\ viewed n = false /\ createdAt n = clock w.
Proof.
  intros Hch Hn.
  destruct Hch as [(_ & _ & Hg)|id0 n0 Hn0 Hv0 Hnote _ _|Hnote _ _
                  |k t _ _ Hnote _ _|k t id0 n0 Hk Hdue Ht Hn0 Hnote _ _|ms Hnote _ _].
  - destruct (Hg id) as [E | (_ & E)]; [left; congruence|by right].
  - left. rewrite Hnote, lookup_insert_ne; congruence.
  - left. by rewrite Hnote, delete_many_lookup, Hn.
  - left. by rewrite Hnote.
  - left. rewrite Hnote, lookup_insert_ne; congruence.
  - left. by rewrite Hnote.
Qed.

(** ** Sequences of events *)

Lemma responses_cons e es w :
  responses (e :: es) w = (e, (exec e w).1) :: responses es (exec e w).2.
Proof.
  unfold responses. cbn [exec_all].
  destruct (exec e w) as [r w1]. cbn. destruct (exec_all es w1) as [log w2]. reflexivity.
Qed.

Lemma after_cons e es w : after (e :: es) w = after es (exec e w).2.
Proof.
  unfold after. cbn [exec_all].
  destruct (exec e w) as [r w1]. cbn. destruct (exec_all es w1) as [log w2]. reflexivity.
Qed.

Lemma after_app es1 es2 w : after (es1 ++ es2) w = after es2 (after es1 w).
Proof.
  revert w. induction es1 as [|e es1 IH]; intros w; [reflexivity|].
  rewrite <- app_comm_cons, !after_cons. apply IH.
Qed.

Lemma after_stays_up es w : faults w = [] -> faults (after es w) = [].
Proof.
  revert w. induction es as [|e es IH]; intros w Hup; [exact Hup|].
  rewrite after_cons. by apply IH, exec_stays_up.
Qed.

Lemma after_wf es w : timers_target_viewed w -> timers_target_viewed (after es w).
Proof.
  revert w. induction es as [|e es IH]; intros w Hwf; [exact Hwf|].
  rewrite after_cons. apply IH. eapply change_wf; [apply exec_change|done].
Qed.

Lemma after_clock es w : clock w <= clock (after es w).
Proof.
  revert w. induction es as [|e es IH]; intros w; [reflexivity|].
  rewrite after_cons. etrans; [|apply IH]. apply change_clock, exec_change.
Qed.

(** Once viewed, a note is there for good, viewed, with its own content or
    the sentinel; and once it holds the sentinel it keeps it. *)
Lemma after_viewed es w (id : string) n :
  note w !! id = Some n -> viewed n = true ->
  exists n', note (after es w) !! id = Some n' /\ viewed n' = true /\
             createdAt n' = createdAt n /\ deviceId n' = deviceId n /\
             (content n' = content n \/ content n' = DESTROYED).
Proof.
  revert w n. induction es as [|e es IH]; intros w n Hn Hv.
  - exists n. repeat split; auto.
  - rewrite after_cons.
    destruct (change_viewed_weak w _ id n (exec_change e w) Hn Hv)
      as (n1 & Hn1 & Hv1 & Hc1 & Hd1 & Hcont1).
    destruct (IH _ n1 Hn1 Hv1) as (n2 & Hn2 & Hv2 & Hc2 & Hd2 & Hcont2).
    exists n2. repeat split; try congruence.
    destruct Hcont2 as [E|E]; [|by right].
    rewrite E. exact Hcont1.
Qed.

(** A reveal call on a viewed note answers 410. *)
Lemma reveal_event_viewed e w (id : string) n :
  faults w = [] -> note w !! id = Some n -> viewed n = true ->
  is_reveal_of id e = true ->
  status_of (exec e w).1 = Some 410.
Proof.
  intros Hup Hn Hv He.
  destruct e; try discriminate He; cbn in He; apply bool_decide_eq_true in He as ->;
    cbn [exec prod_map fst].
  - pose proof (reveal_up DirectApi id w Hup) as H. cbn [reveal] in H.
    rewrite H, Hn, Hv. reflexivity.
  - pose proof (reveal_up WebReveal id w Hup) as H. cbn [reveal] in H.
    rewrite H, Hn, Hv. reflexivity.
Qed.

(** A reveal call that answers 200 leaves the note viewed. *)
Lemma reveal_event_ok e w (id : string) :
  faults w = [] -> revealed_ok id (e, (exec e w).1) = true ->
  exists n, note (exec e w).2 !! id = Some n /\ viewed n = true.
Proof.
  intros Hup Hok. unfold revealed_ok in Hok. cbn [fst snd] in Hok.
  apply andb_true_iff in Hok as [He Hst]. apply bool_decide_eq_true in Hst.
  assert (exists s, e = reveal_event s id) as [s ->].
  { destruct e; try discriminate He; cbn in He; apply bool_decide_eq_true in He as ->.
    - by exists DirectApi.
    - by exists WebReveal. }
  assert ((exec (reveal_event s id) w) = prod_map Some (fun x => x) (reveal s id w)) as Hex
    by by destruct s.
  rewrite Hex in *. rewrite reveal_up in * by done.
  destruct (note w !! id) as [n|] eqn:Hn; [|by destruct s].
  destruct (viewed n) eqn:Hv; [by destruct s|].
  exists (mark_viewed n). cbn. by rewrite lookup_insert_eq.
Qed.

Lemma viewed_all_410 es w (id : string) n :
  faults w = [] -> note w !! id = Some n -> viewed n = true ->
  forall e r, (e, r) ∈ responses es w -> is_reveal_of id e = true ->
              status_of r = Some 410.
Proof.
  revert w n. induction es as [|e0 es IH]; intros w n Hup Hn Hv e r Hin He.
  - by apply elem_of_nil in Hin.
  - rewrite responses_cons in Hin. apply elem_of_cons in Hin as [Heq | Hin].
    + injection Heq as -> ->. by eapply reveal_event_viewed.
    + destruct (change_viewed_weak w _ id n (exec_change e0 w) Hn Hv)
        as (n1 & Hn1 & Hv1 & _).
      exact (IH (exec e0 w).2 n1 (exec_stays_up e0 w Hup) Hn1 Hv1 e r Hin He).
Qed.

Lemma successes_cons id e r log :
  successes id ((e, r) :: log) =
  ((if revealed_ok id (e, r) then 1 else 0) + successes id log)%nat.
Proof. unfold successes. cbn [List.filter]. by destruct (revealed_ok id (e, r)). Qed.

Lemma viewed_no_success es w (id : string) n :
  faults w = [] -> note w !! id = Some n -> viewed n = true ->
  successes id (responses es w) = 0%nat.
Proof.
  revert w n. induction es as [|e0 es IH]; intros w n Hup Hn Hv; [reflexivity|].
  rewrite responses_cons, successes_cons.
  destruct (change_viewed_weak w _ id n (exec_change e0 w) Hn Hv)
    as (n1 & Hn1 & Hv1 & _).
  rewrite (IH _ n1) by eauto using exec_stays_up.
  unfold revealed_ok. cbn [fst snd].
  destruct (is_reveal_of id e0) eqn:He; [|reflexivity].
  rewrite (reveal_event_viewed e0 w id n) by done. reflexivity.
Qed.

(** ** The grace window and the scrub *)

(** While the clock is short of every pending scrub of a viewed note, the
    note keeps its content. *)
Lemma grace es : forall w (id : string) n D,
  note w !! id = Some n -> viewed n = true ->
  (forall t, t ∈ timers w -> task t = DestroyContent id -> D <= due t) ->
  clock (after es w) < D ->
  note (after es w) !! id = Some n.
Proof.
  induction es as [|e es IH]; intros w id n D Hn Hv Hts Hclock; [exact Hn|].
  rewrite after_cons in *.
  pose proof (exec_change e w) as Hch.
  pose proof (change_clock _ _ Hch) as Hc1.
  pose proof (after_clock es (exec e w).2) as Hc2.
  apply (IH _ id n D); auto.
  - destruct (change_viewed _ _ id n Hch Hn Hv) as [E | (_ & k & t & Hk & Ht & Hdue)];
      [exact E|].
    apply list_elem_of_lookup_2 in Hk. specialize (Hts t Hk Ht). lia.
  - intros t Hin Ht.
    destruct (change_timers _ _ t Hch Hin) as [Hold | (id0 & n0 & -> & Hn0 & Hv0 & _)];
      [by apply Hts|].
    cbn in Ht. injection Ht as ->. congruence.
Qed.

Lemma fire_up k w t (id : string) n :
  faults w = [] -> timers w !! k = Some t -> due t <= clock w ->
  task t = DestroyContent id -> note w !! id = Some n ->
  fire k w = set_note (<[id := scrub n]> (note w)) (set_timers (delete k (timers w)) w).
Proof.
  intros Hup Hk Hdue Ht Hn. unfold fire. rewrite Hk.
  rewrite bool_decide_eq_true_2 by done. rewrite Ht, run_task_world.
  cbn [faults set_timers note]. rewrite Hup, Hn.
  unfold drain. cbn [faults set_timers]. rewrite Hup.
  destruct w; cbn in *. by subst.
Qed.

(** ** Turn by turn and in one piece *)

Lemma step_thread_settle p r w :
  step_thread (Running p r) w = (settle (turn p w).1 r, (turn p w).2).
Proof. unfold step_thread. by destruct (turn p w) as [[a| |X c k] w']. Qed.

(** A request that is resumed until it replies, with nothing in between,
    replies and leaves the world as the handler run in one piece does. *)
Lemma serve_sync (p : Prog Response) (r : Response) :
  forall w, exists turns,
    serve turns (settle (sync p w).1 r) (sync p w).2 =
    (Replied (try_catch p r w).1, (try_catch p r w).2).
Proof.
  induction p as [a| |X c k IH]; intros w.
  - by exists 0%nat.
  - by exists 0%nat.
  - unfold try_catch. cbn [sync run].
    destruct (suspends c) eqn:Hs.
    + cbn [settle fst snd].
      destruct (perform c w) as [[x|] w'] eqn:Hp.
      * destruct (IH x w') as [turns Hturns]. exists (S turns).
        cbn [serve]. rewrite step_thread_settle. cbn [turn]. rewrite Hp.
        exact Hturns.
      * exists 1%nat. cbn [serve]. rewrite step_thread_settle. cbn [turn].
        by rewrite Hp.
    + destruct (perform c w) as [[x|] w'] eqn:Hp.
      * apply IH.
      * by exists 0%nat.
Qed.

Lemma serve_reveal s id w :
  exists turns,
    serve turns (incoming s id) w = (Replied (reveal s id w).1, (reveal s id w).2).
Proof.
  destruct s.
  - apply (serve_sync (notesRouter_get_id_body id) notesRouter_get_id_catch w).
  - apply (serve_sync (app_post_note_reveal_body id) app_post_note_reveal_catch w).
Qed.

(** ** The direct JSON endpoint *)

(** C1. With the store answering, GET /api/notes/{id} responds 404 with code
    NOT_FOUND when no note has that id, and 410 with code ALREADY_VIEWED when
    the note is already viewed, in both cases leaving the world as it was;
    otherwise it responds 200 with [{content, destroyed: true}] carrying the
    stored content, and the world it returns in already has the note's
    [viewed] flag set (and the scrub timer pending). *)
Theorem get_note_contract (w : World) (id : string) :
  faults w = [] ->
  match note w !! id with
  | None =>
      notesRouter_get_id id w =
      (mkResponse 404 (NoteErrorResponse "Note not found" NOT_FOUND), w)
  | Some n =>
      if viewed n then
        notesRouter_get_id id w =
        (mkResponse 410 (NoteErrorResponse
                           "This note has already been viewed and destroyed"
                           ALREADY_VIEWED), w)
      else
        exists w',
          notesRouter_get_id id w =
          (mkResponse 200 (GetNoteResponse (content n) true), w') /\
          note w' !! id = Some (mkNote (content n) true (createdAt n) (deviceId n)) /\
          (forall j, j ≠ id -> note w' !! j = note w !! j) /\
          timers w' = timers w ++ [mkTimer (clock w + 5000) (DestroyContent id)]
  end.
Proof.
  intros Hup. pose proof (reveal_up DirectApi id w Hup) as H. cbn [reveal] in H.
  destruct (note w !! id) as [n|] eqn:Hn; [|exact H].
  destruct (viewed n); [exact H|].
  exists (revealed id n w). split; [exact H|]. cbn. split.
  - apply lookup_insert_eq.
  - split; [|reflexivity]. intros j Hj. by apply lookup_insert_ne.
Qed.

Lemma get_note_contract_witness :
  faults with_hello = [] /\
  exists w',
    notesRouter_get_id "X" with_hello =
    (mkResponse 200 (GetNoteResponse "hello" true), w') /\
    note w' !! "X" = Some (mkNote "hello" true 1000 "device-1") /\
    (forall j, j ≠ "X" -> note w' !! j = note with_hello !! j) /\
    timers w' = timers with_hello ++ [mkTimer (clock with_hello + 5000) (DestroyContent "X")].
Proof.
  split; [reflexivity|].
  exact (get_note_contract with_hello "X" eq_refl).
Defined.

(** ** At most one reveal *)

(** C2. With the store answering, in any sequence of requests, sweeps,
    timers and passages of time, at most one call to a reveal surface
    (GET /api/notes/{id} or POST /note/{id}/reveal) for a given id answers
    200; every such call after the first successful one answers 410; and a
    note that is viewed at some point of the sequence is still stored and
    viewed at its end. *)
Theorem at_most_once_reveal (w : World) (es : list Event) (id : string) :
  faults w = [] ->
  (successes id (responses es w) <= 1)%nat /\
  (forall pre e r post,
      responses es w = pre ++ (e, r) :: post ->
      revealed_ok id (e, r) = true ->
      forall e' r', (e', r') ∈ post -> is_reveal_of id e' = true ->
                    status_of r' = Some 410) /\
  (forall es1 es2 n,
      es = es1 ++ es2 ->
      note (after es1 w) !! id = Some n -> viewed n = true ->
      exists n', note (after es w) !! id = Some n' /\ viewed n' = true).
Proof.
  intros Hup. split; [|split].
  - revert w Hup. induction es as [|e es IH]; intros w Hup; [cbn; lia|].
    rewrite responses_cons, successes_cons.
    destruct (revealed_ok id (e, (exec e w).1)) eqn:Hok.
    + destruct (reveal_event_ok e w id Hup Hok) as (n & Hn & Hv).
      rewrite (viewed_no_success es _ id n); auto using exec_stays_up.
    + apply IH, exec_stays_up, Hup.
  - revert w Hup. induction es as [|e0 es IH]; intros w Hup pre e r post Hsplit Hok.
    + by destruct pre.
    + rewrite responses_cons in Hsplit. destruct pre as [|x pre].
      * cbn in Hsplit. injection Hsplit as <- <- <-.
        destruct (reveal_event_ok e0 w id Hup Hok) as (n & Hn & Hv).
        exact (viewed_all_410 es _ id n (exec_stays_up e0 w Hup) Hn Hv).
      * cbn in Hsplit. injection Hsplit as _ Hrest.
        exact (IH (exec e0 w).2 (exec_stays_up e0 w Hup) pre e r post Hrest Hok).
  - intros es1 es2 n -> Hn Hv. rewrite after_app.
    destruct (after_viewed es2 _ id n Hn Hv) as (n' & Hn' & Hv' & _).
    by exists n'.
Qed.

Lemma at_most_once_reveal_witness :
  faults with_hello = [] /\
  (successes "X" (responses [GET_note "X"; GET_api_notes "X"; POST_note_reveal "X";
                             Elapse 5000; TimerFires 0; GET_api_notes "X"]
                            with_hello) <= 1)%nat.
Proof.
  split; [reflexivity|].
  exact (proj1 (at_most_once_reveal with_hello
                  [GET_note "X"; GET_api_notes "X"; POST_note_reveal "X";
                   Elapse 5000; TimerFires 0; GET_api_notes "X"] "X" eq_refl)).
Defined.

(** ** The two surfaces against the reveal gate of the specification *)

Lemma reveal_refines_evaluate s id w :
  faults w = [] ->
  (reveal s id w).2 = (evaluate id w).2 /\
  outcome (reveal s id w).1 = classify (evaluate id w).1.
Proof.
  intros Hup. rewrite reveal_up by done. unfold evaluate.
  destruct (note w !! id) as [n|]; [|by destruct s].
  destruct (viewed n); by destruct s.
Qed.

Lemma gate_surfaces_agree id w :
  (gate DirectApi id w).2 = (gate WebReveal id w).2 /\
  status (gate DirectApi id w).1 = status (gate WebReveal id w).1.
Proof.
  unfold gate.
  destruct (faults w) as [|[] fs]; try done.
  all: destruct (note w !! id) as [n|]; try done.
  all: destruct (viewed n); try done.
  all: by destruct (faults (drain w)) as [|[] fs'].
Qed.

(** C7. GET /api/notes/{id} and POST /note/{id}/reveal implement the same
    [evaluate]: with the store answering, each leaves the world [evaluate]
    leaves (the flag set exactly in the unread case, the same scrub timer
    appended) and its status classifies as [evaluate]'s verdict; whatever
    the store does, the two leave the same world and answer with the same
    status; and on an unread note whichever surface is called first answers
    200 and the one called next answers 410. *)
Theorem surfaces_implement_evaluate (w : World) (id : string) :
  faults w = [] ->
  (forall s,
      (reveal s id w).2 = (evaluate id w).2 /\
      outcome (reveal s id w).1 = classify (evaluate id w).1) /\
  (forall fs,
      (notesRouter_get_id id (set_faults fs w)).2 =
      (app_post_note_reveal id (set_faults fs w)).2 /\
      status (notesRouter_get_id id (set_faults fs w)).1 =
      status (app_post_note_reveal id (set_faults fs w)).1) /\
  (forall n first second,
      note w !! id = Some n -> viewed n = false ->
      outcome (reveal first id w).1 = Revealable /\
      outcome (reveal second id (reveal first id w).2).1 = AlreadyDestroyed).
Proof.
  intros Hup. split; [|split].
  - intros s. by apply reveal_refines_evaluate.
  - intros fs.
    pose proof (reveal_gate DirectApi id (set_faults fs w)) as H1.
    pose proof (reveal_gate WebReveal id (set_faults fs w)) as H2.
    cbn [reveal] in H1, H2. rewrite H1, H2. apply gate_surfaces_agree.
  - intros n s1 s2 Hn Hv.
    rewrite !(reveal_up s1 id w Hup), Hn, Hv. cbn [fst snd]. split; [by destruct s1|].
    rewrite reveal_up by done. cbn [revealed set_timers set_note note].
    rewrite lookup_insert_eq. cbn. by destruct s2.
Qed.

Lemma surfaces_implement_evaluate_witness :
  faults with_hello = [] /\
  outcome (reveal WebReveal "X" with_hello).1 = Revealable /\
  outcome (reveal DirectApi "X" (reveal WebReveal "X" with_hello).2).1 = AlreadyDestroyed.
Proof.
  split; [reflexivity|].
  exact (proj2 (proj2 (surfaces_implement_evaluate with_hello "X" eq_refl))
               hello WebReveal DirectApi eq_refl eq_refl).
Defined.

(** ** The web page load *)

Lemma after_page_loads id k w : same_store w (after (repeat (GET_note id) k) w).
Proof.
  revert w. induction k as [|k IH]; intros w; [apply same_store_refl|].
  cbn [repeat]. rewrite after_cons. cbn [exec prod_map snd].
  eapply same_store_trans; [apply page_load_same_store|apply IH].
Qed.

(** C4. GET /note/{id}, fetched any number of times, leaves the stored state
    as it was, whether the note is unread, viewed or absent and whatever the
    store does: the note table (so the note's existence, content and
    [viewed] flag), the usage table and the pending timers are the same;
    POST /note/{id}/reveal on an unread note, the store answering, is what
    sets the flag. *)
Theorem page_load_no_mutation (w : World) (id : string) (k : nat) :
  (note (after (repeat (GET_note id) k) w) = note w /\
   noteUsage (after (repeat (GET_note id) k) w) = noteUsage w /\
   timers (after (repeat (GET_note id) k) w) = timers w) /\
  (forall n, faults w = [] -> note w !! id = Some n -> viewed n = false ->
     note (after (repeat (GET_note id) k ++ [POST_note_reveal id]) w) !! id =
     Some (mkNote (content n) true (createdAt n) (deviceId n))).
Proof.
  pose proof (after_page_loads id k w) as (Hn & Hu & Ht & _).
  split; [auto|].
  intros n Hup Hid Hv. rewrite after_app, after_cons. unfold after at 1. cbn [exec_all snd].
  cbn [exec prod_map snd].
  pose proof (reveal_up WebReveal id (after (repeat (GET_note id) k) w)) as H.
  cbn [reveal] in H. rewrite H by by apply after_stays_up.
  rewrite Hn, Hid, Hv. cbn. by rewrite Hn, lookup_insert_eq.
Qed.

Lemma page_load_no_mutation_witness :
  faults with_hello = [] /\ note with_hello !! "X" = Some hello /\ viewed hello = false /\
  note (after (repeat (GET_note "X") 3 ++ [POST_note_reveal "X"]) with_hello) !! "X" =
  Some (mkNote "hello" true 1000 "device-1").
Proof.
  do 3 (split; [reflexivity|]).
  exact (proj2 (page_load_no_mutation with_hello "X" 3) hello eq_refl eq_refl eq_refl).
Defined.

(** ** The expiry sweep *)

Lemma cleanup_up w :
  faults w = [] ->
  cleanupExpiredNotes w =
  (deleted_count false (setDate_back (clock w) DAYS_UNTIL_EXPIRY) (note w),
   set_note (delete_many false (setDate_back (clock w) DAYS_UNTIL_EXPIRY) (note w)) w).
Proof.
  intros Hup. unfold cleanupExpiredNotes, try_catch.
  rewrite run_bind, run_call, perform_up by done. cbn [effect].
  rewrite run_bind, run_call, perform_up by done. reflexivity.
Qed.

(** C8. With the store answering, a run of the expiry sweep deletes exactly
    the notes with [viewed = false] created more than 30 days before the
    run: such a note is gone afterwards, a viewed note stays as it is
    whatever its age, and an unread note that is not older than the window
    stays as it is; the run reports how many it deleted and touches nothing
    else. *)
Theorem sweep_deletes_exactly_expired_unread (w : World) (id : string) :
  faults w = [] ->
  note (cleanupExpiredNotes w).2 !! id =
    match note w !! id with
    | Some n =>
        if negb (viewed n) && bool_decide (createdAt n < clock w - 30 * 86400000)
        then None else Some n
    | None => None
    end /\
  (cleanupExpiredNotes w).1 =
    Z.of_nat (size (filter (fun kv : string * Note =>
                              viewed kv.2 = false /\
                              createdAt kv.2 < clock w - 30 * 86400000) (note w))) /\
  timers (cleanupExpiredNotes w).2 = timers w /\
  noteUsage (cleanupExpiredNotes w).2 = noteUsage w.
Proof.
  intros Hup. rewrite cleanup_up by done. cbn [fst snd set_note note timers noteUsage].
  split; [|split; [|done]].
  - rewrite delete_many_lookup. destruct (note w !! id) as [n|]; [|done].
    unfold expired, setDate_back, DAYS_UNTIL_EXPIRY, MS_PER_DAY.
    change (24 * 60 * 60 * 1000) with 86400000.
    destruct (viewed n); cbn; [done|].
    by case_bool_decide.
  - unfold deleted_count. f_equal. f_equal.
    apply map_filter_ext. intros i n _.
    unfold expired, setDate_back, DAYS_UNTIL_EXPIRY, MS_PER_DAY.
    change (24 * 60 * 60 * 1000) with 86400000. cbn [snd].
    rewrite andb_true_iff, !bool_decide_eq_true. done.
Qed.

Lemma sweep_deletes_exactly_expired_unread_witness :
  faults attic = [] /\
  note (cleanupExpiredNotes attic).2 !! "old-unread" = None /\
  note (cleanupExpiredNotes attic).2 !! "old-viewed" = Some (mkNote "b" true 0 "d") /\
  note (cleanupExpiredNotes attic).2 !! "young" = Some (mkNote "c" false (39 * day) "d").
Proof.
  split; [reflexivity|]. split; [|split].
  - exact (proj1 (sweep_deletes_exactly_expired_unread attic "old-unread" eq_refl)).
  - exact (proj1 (sweep_deletes_exactly_expired_unread attic "old-viewed" eq_refl)).
  - exact (proj1 (sweep_deletes_exactly_expired_unread attic "young" eq_refl)).
Defined.

(** ** The usage endpoint *)

(** C10. When the database lookup inside GET /api/notes/usage/{deviceId}
    rejects, the endpoint still answers 200 with
    [{count: 0, limit: 5, isPremium: false, canCreate: true}], and nothing
    is stored. *)
Theorem usage_fails_open (w : World) (dev : string) (fs : list bool) :
  faults w = true :: fs ->
  notesRouter_get_usage dev w =
  (mkResponse 200 (NoteUsageResponse 0 5 false true), set_faults fs w).
Proof.
  intros Hdown. unfold notesRouter_get_usage, try_catch, getOrCreateUsage.
  rewrite !run_bind, run_call, perform_db by done. rewrite Hdown.
  unfold drain. rewrite Hdown. reflexivity.
Qed.

Lemma usage_fails_open_witness :
  faults store_down = [true] /\
  notesRouter_get_usage "device-1" store_down =
  (mkResponse 200 (NoteUsageResponse 0 5 false true), set_faults [] store_down).
Proof.
  split; [reflexivity|].
  exact (usage_fails_open store_down "device-1" [] eq_refl).
Defined.

(** ** What the page load shows *)

Lemma unescape_cons c s :
  (forall q s', s = String q s' -> Ascii.eqb c "\"%char && Ascii.eqb q "'"%char = false) ->
  unescape_quotes (String c s) = String c (unescape_quotes s).
Proof.
  intros H. destruct s as [|q s']; [reflexivity|].
  cbn [unescape_quotes]. by rewrite (H q s' eq_refl).
Qed.

Lemma escape_starts s q s' :
  escape_quotes s = String q s' -> Ascii.eqb q "'"%char = false.
Proof.
  destruct s as [|c rest]; [discriminate|]. cbn [escape_quotes].
  destruct (Ascii.eqb c "'"%char) eqn:Hc; intros [= <- _]; [reflexivity|exact Hc].
Qed.

Lemma unescape_escape s : unescape_quotes (escape_quotes s) = s.
Proof.
  induction s as [|c rest IH]; [reflexivity|]. cbn [escape_quotes].
  destruct (Ascii.eqb c "'"%char) eqn:Hc.
  - apply Ascii.eqb_eq in Hc as ->.
    change (unescape_quotes (String "\" (String "'" (escape_quotes rest))))
      with (unescape_quotes (String "'" (escape_quotes rest))).
    rewrite unescape_cons; [by rewrite IH|]. reflexivity.
  - rewrite unescape_cons; [by rewrite IH|].
    intros q s' Hq. rewrite (escape_starts _ _ _ Hq). apply andb_false_r.
Qed.

Lemma escape_without_quote s : has_quote s = false -> escape_quotes s = s.
Proof.
  unfold has_quote. induction s as [|c rest IH]; [reflexivity|].
  cbn [list_ascii_of_string existsb escape_quotes].
  intros [Hc Hrest]%orb_false_iff. rewrite Hc. by rewrite IH.
Qed.

Lemma page_load_up id w :
  faults w = [] ->
  app_get_note id w =
  match note w !! id with
  | None => (html_status (renderPage "Not Found" NotFoundBody "#E74C3C" false "" "") 404, w)
  | Some n =>
      if viewed n
      then (html_status (renderPage "Note Destroyed" DestroyedBody "#FF8A00" false "" "") 410, w)
      else (html (renderPage "Secret Note" RevealBody "#00FF85" true (content n) id), w)
  end.
Proof.
  intros Hup. unfold app_get_note, try_catch, app_get_note_body.
  rewrite run_bind, run_call, perform_up by done. cbn [effect].
  destruct (note w !! id) as [n|]; [|reflexivity]. by destruct (viewed n).
Qed.

(** C5, as the code has it.  With the store answering, GET /note/{id} for an
    unread note responds 200 with a page whose [encryptedContent] script
    variable is written from the stored content with a backslash put in
    front of every single quote, and leaves the world as it was.  The
    stored content can be read back from what is written, and is written
    unchanged when it holds no single quote. *)
Theorem page_load_discloses_content (w : World) (id : string) (n : Note) :
  faults w = [] -> note w !! id = Some n -> viewed n = false ->
  exists page,
    app_get_note id w = (mkResponse 200 (Html page), w) /\
    encryptedContent_of page = Some (escape_quotes (content n)) /\
    unescape_quotes (escape_quotes (content n)) = content n /\
    (has_quote (content n) = false -> encryptedContent_of page = Some (content n)).
Proof.
  intros Hup Hn Hv. rewrite page_load_up, Hn, Hv by done.
  eexists. split; [reflexivity|]. split; [reflexivity|].
  split; [apply unescape_escape|].
  intros Hq. cbn. by rewrite escape_without_quote.
Qed.

Lemma page_load_discloses_content_witness :
  faults with_hello = [] /\ note with_hello !! "X" = Some hello /\ viewed hello = false /\
  exists page,
    app_get_note "X" with_hello = (mkResponse 200 (Html page), with_hello) /\
    encryptedContent_of page = Some (escape_quotes "hello") /\
    unescape_quotes (escape_quotes "hello") = "hello" /\
    (has_quote "hello" = false -> encryptedContent_of page = Some "hello").
Proof.
  do 3 (split; [reflexivity|]).
  exact (page_load_discloses_content with_hello "X" hello eq_refl eq_refl eq_refl).
Defined.

(** C5, as worded, fails: ["a'b"] is a content POST /api/notes accepts; for
    the unread note holding it the page is served with status 200, but the
    value written for [encryptedContent] is ["a\'b"], not the stored
    content, and the stored content is no interpolated value of the page. *)
Lemma page_load_content_not_verbatim :
  createNoteRequestSchema "a'b" "device-1" = true /\
  note with_quote !! "X" = Some (mkNote "a'b" false 1000 "device-1") /\
  exists page,
    (app_get_note "X" with_quote).1 = mkResponse 200 (Html page) /\
    encryptedContent_of page = Some "a\'b" /\
    encryptedContent_of page <> Some "a'b" /\
    Interp "a'b" ∉ page.
Proof.
  split; [reflexivity|].
  split; [reflexivity|]. eexists. split; [reflexivity|].
  split; [reflexivity|]. split; [discriminate|].
  intros Hin. cbv in Hin.
  repeat (apply elem_of_cons in Hin as [Hin|Hin]; [discriminate Hin|]).
  by apply elem_of_nil in Hin.
Qed.

(** ** The life of a revealed note *)

(** C6. From an unread note, with the store answering: a successful reveal
    (by either surface) answers at once, leaving the row with its original
    content and [viewed = true] and a scrub timer pending 5000 ms ahead;
    whatever happens next, as long as the clock is short of that delay the
    row is exactly that; when the timer fires after the delay, the row is
    kept and its content becomes ["[DESTROYED]"]; and the row never goes
    back: it stays stored and viewed, with the original content or the
    sentinel, and once it holds the sentinel it holds it for good. *)
Theorem note_lifecycle (w : World) (id : string) (n : Note) (s : Surface) :
  faults w = [] -> timers_target_viewed w ->
  note w !! id = Some n -> viewed n = false ->
  let w1 := (reveal s id w).2 in
  let marked := mkNote (content n) true (createdAt n) (deviceId n) in
  ((reveal s id w).1 = success_response s n /\
   note w1 !! id = Some marked /\
   timers w1 = timers w ++ [mkTimer (clock w + 5000) (DestroyContent id)]) /\
  (forall es, clock (after es w1) < clock w + 5000 ->
              note (after es w1) !! id = Some marked) /\
  (forall es k,
      timers (after es w1) !! k = Some (mkTimer (clock w + 5000) (DestroyContent id)) ->
      clock w + 5000 <= clock (after es w1) ->
      note (fire k (after es w1)) !! id =
      Some (mkNote "[DESTROYED]" true (createdAt n) (deviceId n))) /\
  (forall es, exists n',
      note (after es w1) !! id = Some n' /\ viewed n' = true /\
      createdAt n' = createdAt n /\
      (content n' = content n \/ content n' = "[DESTROYED]")) /\
  (forall es es' n',
      note (after es w1) !! id = Some n' -> content n' = "[DESTROYED]" ->
      exists n'', note (after (es ++ es') w1) !! id = Some n'' /\
                  viewed n'' = true /\ content n'' = "[DESTROYED]").
Proof.
  intros Hup Hwf Hn Hv w1 marked.
  assert (w1 = revealed id n w) as Hw1.
  { unfold w1. by rewrite reveal_up, Hn, Hv. }
  assert (note w1 !! id = Some marked) as Hmarked.
  { rewrite Hw1. cbn. apply lookup_insert_eq. }
  assert (faults w1 = []) as Hup1 by by rewrite Hw1.
  split; [|split; [|split; [|split]]].
  - split; [by rewrite reveal_up, Hn, Hv|]. split; [exact Hmarked|].
    by rewrite Hw1.
  - intros es Hclock. apply (grace es w1 id marked (clock w + 5000)); auto.
    intros t Hin Ht. rewrite Hw1 in Hin. cbn in Hin.
    apply elem_of_app in Hin as [Hold | Hnew].
    + specialize (Hwf t Hold). rewrite Ht in Hwf.
      destruct Hwf as (m & Hm & Hmv). congruence.
    + apply list_elem_of_singleton in Hnew as ->. reflexivity.
  - intros es k Hk Hdue.
    destruct (after_viewed es w1 id marked Hmarked eq_refl)
      as (n' & Hn' & Hv' & Hc' & Hd' & _).
    rewrite (fire_up k _ _ id n' (after_stays_up es w1 Hup1) Hk Hdue eq_refl Hn').
    cbn. rewrite lookup_insert_eq. unfold scrub, apply_data. cbn.
    by rewrite Hv', Hc', Hd'.
  - intros es.
    destruct (after_viewed es w1 id marked Hmarked eq_refl)
      as (n' & Hn' & Hv' & Hc' & _ & Hcont).
    by exists n'.
  - intros es es' n' Hn' Hcont. rewrite after_app.
    destruct (after_viewed es w1 id marked Hmarked eq_refl)
      as (m & Hm & Hmv & _).
    assert (m = n') as -> by congruence.
    destruct (after_viewed es' (after es w1) id n' Hn' Hmv)
      as (n'' & Hn'' & Hv'' & _ & _ & Hcont'').
    exists n''. repeat split; auto. unfold DESTROYED in *. destruct Hcont''; congruence.
Qed.

Lemma quiet_timers_target_viewed w : timers w = [] -> timers_target_viewed w.
Proof. intros Hts t Ht. rewrite Hts in Ht. by apply elem_of_nil in Ht. Qed.

Lemma note_lifecycle_witness :
  faults with_hello = [] /\ timers_target_viewed with_hello /\
  note with_hello !! "X" = Some hello /\ viewed hello = false /\
  note (after [GET_note "X"; Elapse 4999; TimerFires 0]
              (reveal DirectApi "X" with_hello).2) !! "X" =
    Some (mkNote "hello" true 1000 "device-1") /\
  note (fire 0 (after [Elapse 5000] (reveal DirectApi "X" with_hello).2)) !! "X" =
    Some (mkNote "[DESTROYED]" true 1000 "device-1").
Proof.
  split; [reflexivity|].
  split; [apply quiet_timers_target_viewed; reflexivity|].
  split; [reflexivity|]. split; [reflexivity|].
  pose proof (note_lifecycle with_hello "X" hello DirectApi eq_refl
                (quiet_timers_target_viewed with_hello eq_refl) eq_refl eq_refl)
    as (_ & Hgrace & Hfire & _).
  split.
  - apply (Hgrace [GET_note "X"; Elapse 4999; TimerFires 0]). reflexivity.
  - apply (Hfire [Elapse 5000] 0%nat); [reflexivity|discriminate].
Defined.

(** ** Absent, expired, scrubbed *)

(** C9, as the code has it.  With the store answering, looking a note up
    gives the same 404 (code NOT_FOUND on the JSON endpoint) when the id was
    never stored and when the note has expired and been deleted by the
    sweep.  A note scrubbed after the grace window is still stored: looking
    it up gives 410 (code ALREADY_VIEWED), the answer for any viewed note. *)
Theorem not_found_histories (w : World) (id : string) (s : Surface) :
  faults w = [] ->
  (note w !! id = None ->
     reveal s id w = (not_found_response s, w)) /\
  (forall n, note w !! id = Some n -> viewed n = false ->
     createdAt n < clock w - 30 * 86400000 ->
     note (cleanupExpiredNotes w).2 !! id = None /\
     reveal s id (cleanupExpiredNotes w).2 =
       (not_found_response s, (cleanupExpiredNotes w).2)) /\
  (forall n k t, note w !! id = Some n -> viewed n = true ->
     timers w !! k = Some t -> task t = DestroyContent id -> due t <= clock w ->
     note (fire k w) !! id =
       Some (mkNote "[DESTROYED]" true (createdAt n) (deviceId n)) /\
     reveal s id (fire k w) = (already_viewed_response s, fire k w) /\
     reveal s id w = (already_viewed_response s, w)) /\
  status (not_found_response s) = 404 /\
  status (already_viewed_response s) = 410 /\
  error_code (not_found_response DirectApi) = Some NOT_FOUND /\
  error_code (already_viewed_response DirectApi) = Some ALREADY_VIEWED.
Proof.
  intros Hup. split; [|split; [|split]].
  - intros Hn. by rewrite reveal_up, Hn.
  - intros n Hn Hv Hold.
    assert (note (cleanupExpiredNotes w).2 !! id = None) as Hgone.
    { rewrite cleanup_up by done. cbn. rewrite delete_many_lookup, Hn.
      unfold expired, setDate_back, DAYS_UNTIL_EXPIRY, MS_PER_DAY. rewrite Hv.
      rewrite !bool_decide_eq_true_2; [done|lia|done]. }
    split; [exact Hgone|].
    rewrite reveal_up, Hgone; [done|].
    rewrite cleanup_up by done. exact Hup.
  - intros n k t Hn Hv Hk Ht Hdue.
    rewrite (fire_up k w t id n Hup Hk Hdue Ht Hn).
    split; [|split].
    + cbn. rewrite lookup_insert_eq. unfold scrub, apply_data. cbn. by rewrite Hv.
    + rewrite reveal_up by done. cbn. rewrite lookup_insert_eq. cbn. by rewrite Hv.
    + by rewrite reveal_up, Hn, Hv.
  - by destruct s.
Qed.

Lemma not_found_histories_witness :
  faults attic = [] /\
  note attic !! "old-unread" = Some (mkNote "a" false 0 "d") /\
  (note (cleanupExpiredNotes attic).2 !! "old-unread" = None /\
   reveal DirectApi "old-unread" (cleanupExpiredNotes attic).2 =
     (not_found_response DirectApi, (cleanupExpiredNotes attic).2)) /\
  faults hello_grace_over = [] /\
  note hello_grace_over !! "X" = Some (mkNote "hello" true 1000 "device-1") /\
  timers hello_grace_over !! 0%nat = Some (mkTimer 7000 (DestroyContent "X")) /\
  (note (fire 0 hello_grace_over) !! "X" =
     Some (mkNote "[DESTROYED]" true 1000 "device-1") /\
   reveal DirectApi "X" (fire 0 hello_grace_over) =
     (already_viewed_response DirectApi, fire 0 hello_grace_over) /\
   reveal DirectApi "X" hello_grace_over =
     (already_viewed_response DirectApi, hello_grace_over)).
Proof.
  split; [reflexivity|]. split; [reflexivity|]. split.
  - apply (proj1 (proj2 (not_found_histories attic "old-unread" DirectApi eq_refl))
             (mkNote "a" false 0 "d")); reflexivity.
  - do 3 (split; [reflexivity|]).
    apply (proj1 (proj2 (proj2 (not_found_histories hello_grace_over "X" DirectApi eq_refl)))
             (mkNote "hello" true 1000 "device-1") 0%nat
             (mkTimer 7000 (DestroyContent "X")));
      first [reflexivity | discriminate].
Defined.

(** C9, as worded, fails: the note of [with_hello], revealed and then
    scrubbed after the grace delay, is still stored, and looking it up
    answers 410 ALREADY_VIEWED, where an id that never existed answers 404
    NOT_FOUND. *)
Lemma scrubbed_note_is_not_not_found :
  note hello_scrubbed !! "X" = Some (mkNote "[DESTROYED]" true 1000 "device-1") /\
  (notesRouter_get_id "X" hello_scrubbed).1 =
    mkResponse 410 (NoteErrorResponse "This note has already been viewed and destroyed"
                                      ALREADY_VIEWED) /\
  (notesRouter_get_id "X" quiet).1 =
    mkResponse 404 (NoteErrorResponse "Note not found" NOT_FOUND) /\
  outcome (notesRouter_get_id "X" hello_scrubbed).1 <>
  outcome (notesRouter_get_id "X" quiet).1.
Proof.
  split; [reflexivity|]. split; [reflexivity|]. split; [reflexivity|].
  discriminate.
Qed.

(** ** Requests interleaved *)

(** The first turn of a reveal request on an unread note: the lookup, which
    changes nothing and leaves the update still to be made. *)
Lemma step_read s id w n :
  faults w = [] -> note w !! id = Some n -> viewed n = false ->
  step_thread (incoming s id) w = (Running (write_back s id n) (failure_response s), w).
Proof.
  intros Hup Hn Hv.
  destruct s; unfold incoming, step_thread, notesRouter_get_id_body,
    app_post_note_reveal_body;
    cbn [mbind Prog_bind bind call turn];
    rewrite perform_up by done; cbn [effect bind]; rewrite Hn, Hv; reflexivity.
Qed.

(** Its second turn: the update, made whatever the flag is by then. *)
Lemma step_write s id w n r now :
  faults w = [] -> note w !! id = Some now ->
  step_thread (Running (write_back s id n) r) w =
  (Replied (success_response s n), revealed id now w).
Proof.
  intros Hup Hnow.
  unfold step_thread, write_back. cbn [mbind Prog_bind bind call turn].
  rewrite perform_up by done. cbn [effect]. rewrite Hnow. reflexivity.
Qed.

(** A request that starts on a viewed note answers 410 in one turn. *)
Lemma step_spent s id w n :
  faults w = [] -> note w !! id = Some n -> viewed n = true ->
  step_thread (incoming s id) w = (Replied (already_viewed_response s), w).
Proof.
  intros Hup Hn Hv.
  destruct s; unfold incoming, step_thread, notesRouter_get_id_body,
    app_post_note_reveal_body;
    cbn [mbind Prog_bind bind call turn];
    rewrite perform_up by done; cbn [effect bind]; rewrite Hn, Hv; reflexivity.
Qed.

(** C3, as the code has it.  Each reveal handler checks and sets [viewed]
    in two storage calls, a lookup and then an update addressed by the id
    alone, with an await between them: the lookup is a turn of its own that
    changes nothing, and the update that follows marks the row whatever its
    flag is by then.  With the store answering, two requests for the same
    unread note served one after the other get one 200 and one 410; two
    requests whose lookups are both served before either update both get
    200. *)
Theorem check_then_set (w : World) (id : string) (n : Note) (a b : Surface) :
  faults w = [] -> note w !! id = Some n -> viewed n = false ->
  let pool := [incoming a id; incoming b id] in
  (* the lookup is a turn of its own *)
  interleave [0%nat] (pool, w) =
    ([Running (write_back a id n) (failure_response a); incoming b id], w) /\
  (* the update is not guarded by the flag *)
  (forall w2 now r, faults w2 = [] -> note w2 !! id = Some now ->
     step_thread (Running (write_back a id n) r) w2 =
     (Replied (success_response a n), revealed id now w2)) /\
  (* one after the other *)
  (interleave [0; 0; 1]%nat (pool, w)).1 =
    [Replied (success_response a n); Replied (already_viewed_response b)] /\
  (interleave [1; 1; 0]%nat (pool, w)).1 =
    [Replied (already_viewed_response a); Replied (success_response b n)] /\
  (* both lookups first *)
  (interleave [0; 1; 0; 1]%nat (pool, w)).1 =
    [Replied (success_response a n); Replied (success_response b n)].
Proof.
  intros Hup Hn Hv pool.
  assert (note (revealed id n w) !! id = Some (mark_viewed n)) as Hmarked
    by (cbn; apply lookup_insert_eq).
  assert (faults (revealed id n w) = []) as Hup' by exact Hup.
  split; [|split; [|split; [|split]]].
  - unfold interleave, pool, resume. cbn [foldl fst snd lookup list_lookup].
    by rewrite (step_read a id w n).
  - intros w2 now r Hup2 Hnow. by apply step_write.
  - unfold interleave, pool, resume. cbn [foldl fst snd lookup list_lookup].
    rewrite (step_read a id w n) by done.
    cbn [fst snd lookup list_lookup insert list_insert].
    rewrite (step_write a id w n _ n) by done.
    cbn [fst snd lookup list_lookup insert list_insert].
    by rewrite (step_spent b id _ (mark_viewed n)).
  - unfold interleave, pool, resume. cbn [foldl fst snd lookup list_lookup].
    rewrite (step_read b id w n) by done.
    cbn [fst snd lookup list_lookup insert list_insert].
    rewrite (step_write b id w n _ n) by done.
    cbn [fst snd lookup list_lookup insert list_insert].
    by rewrite (step_spent a id _ (mark_viewed n)).
  - unfold interleave, pool, resume. cbn [foldl fst snd lookup list_lookup].
    rewrite (step_read a id w n) by done.
    cbn [fst snd lookup list_lookup insert list_insert].
    rewrite (step_read b id w n) by done.
    cbn [fst snd lookup list_lookup insert list_insert].
    rewrite (step_write a id w n _ n) by done.
    cbn [fst snd lookup list_lookup insert list_insert].
    by rewrite (step_write b id _ n _ (mark_viewed n)).
Qed.

Lemma check_then_set_witness :
  faults with_hello = [] /\ note with_hello !! "X" = Some hello /\ viewed hello = false /\
  (interleave [0; 0; 1]%nat
     ([incoming DirectApi "X"; incoming WebReveal "X"], with_hello)).1 =
    [Replied (success_response DirectApi hello);
     Replied (already_viewed_response WebReveal)].
Proof.
  do 3 (split; [reflexivity|]).
  exact (proj1 (proj2 (proj2
           (check_then_set with_hello "X" hello DirectApi WebReveal
                           eq_refl eq_refl eq_refl)))).
Defined.

(** C3, as worded, fails: two GET /api/notes/X requests for the unread note
    of [with_hello], their lookups both served before either update, both
    answer 200 with the content. *)
Lemma both_requests_reveal :
  map reply_status
      (interleave [0; 1; 0; 1]%nat
         ([incoming DirectApi "X"; incoming DirectApi "X"], with_hello)).1 =
    [Some 200; Some 200] /\
  (interleave [0; 1; 0; 1]%nat
     ([incoming DirectApi "X"; incoming DirectApi "X"], with_hello)).1 =
    [Replied (mkResponse 200 (GetNoteResponse "hello" true));
     Replied (mkResponse 200 (GetNoteResponse "hello" true))].
Proof. split; reflexivity. Qed.

(** * Further properties of the handlers *)

(** ** Reveal: all or nothing *)

(** X1. Whatever the store does, a reveal request on either surface either
    answers 200, having found the note unread, set its flag and queued one
    scrub timer 5000 ms ahead, or answers 404, 410 or 500 and leaves the
    note table and the timers as they were: a rejected lookup or update
    never leaves the flag half set or a timer without its flag. *)
Theorem reveal_all_or_nothing (s : Surface) (id : string) (w : World) :
  (status (reveal s id w).1 = 200 /\
   exists n, note w !! id = Some n /\ viewed n = false /\
     note (reveal s id w).2 =
       <[id := mkNote (content n) true (createdAt n) (deviceId n)]> (note w) /\
     timers (reveal s id w).2 =
       timers w ++ [mkTimer (clock w + 5000) (DestroyContent id)]) \/
  ((status (reveal s id w).1 = 404 \/ status (reveal s id w).1 = 410 \/
    status (reveal s id w).1 = 500) /\
   note (reveal s id w).2 = note w /\ timers (reveal s id w).2 = timers w).
Proof.
  rewrite reveal_gate. unfold gate.
  destruct (faults w) as [|[] fs] eqn:Hf.
  2: { right. split; [|done]. right; right. by destruct s. }
  all: destruct (note w !! id) as [n|] eqn:Hn.
  all: try (right; split; [|done]; left; by destruct s).
  all: destruct (viewed n) eqn:Hv.
  all: try (right; split; [|done]; right; left; by destruct s).
  all: destruct (faults (drain w)) as [|[] fs'] eqn:Hf'.
  all: try (right; split; [|done]; right; right; by destruct s).
  all: left; split; [by destruct s|]; by exists n.
Qed.

(** ** The scrub callback *)

Lemma fire_due k w t :
  timers w !! k = Some t -> due t <= clock w ->
  fire k w = run_task (task t) (set_timers (delete k (timers w)) w).
Proof.
  intros Hk Hdue. unfold fire. rewrite Hk. by rewrite bool_decide_eq_true_2.
Qed.

(** X2. A pending scrub does nothing before it is due.  Once due, firing it
    takes it off the pending list whether or not its update goes through;
    it touches no row but its target; when the target row is gone, or the
    store rejects the update, the note table stays as it was (the failure
    is swallowed and the scrub is not retried); otherwise the target keeps
    its flag and dates and gets the sentinel content. *)
Theorem scrub_is_best_effort (k : nat) (w : World) (t : Timer) (id : string) :
  timers w !! k = Some t -> task t = DestroyContent id ->
  (clock w < due t -> fire k w = w) /\
  (due t <= clock w ->
     timers (fire k w) = delete k (timers w) /\
     (forall j, j ≠ id -> note (fire k w) !! j = note w !! j) /\
     (note w !! id = None -> note (fire k w) = note w) /\
     (forall fs, faults w = true :: fs -> note (fire k w) = note w) /\
     (forall n, note w !! id = Some n -> head (faults w) ≠ Some true ->
        note (fire k w) !! id =
        Some (mkNote "[DESTROYED]" (viewed n) (createdAt n) (deviceId n)))).
Proof.
  intros Hk Ht. split.
  - intros Hearly. unfold fire. rewrite Hk. rewrite bool_decide_eq_false_2; [done|lia].
  - intros Hdue. rewrite (fire_due k w t Hk Hdue), Ht, run_task_world.
    cbn [faults set_timers note].
    destruct (faults w) as [|[] fs] eqn:Hf; destruct (note w !! id) as [n|] eqn:Hn;
      cbn [drain set_note set_faults set_timers timers note faults].
    all: split; [reflexivity|].
    all: split; [intros j Hj; try reflexivity; by rewrite lookup_insert_ne|].
    all: split; [intros Hnone; try reflexivity; discriminate Hnone|].
    all: split; [intros fs0 Hfs; try reflexivity; discriminate Hfs|].
    all: intros n0 Hn0 Hhead; try discriminate Hn0; try (by destruct Hhead).
    all: injection Hn0 as <-; by rewrite lookup_insert_eq.
Qed.

Lemma scrub_is_best_effort_witness :
  timers hello_grace_over !! 0%nat = Some (mkTimer 7000 (DestroyContent "X")) /\
  7000 <= clock hello_grace_over /\
  timers (fire 0 hello_grace_over) = [] /\
  note (fire 0 hello_grace_over) !! "X" =
    Some (mkNote "[DESTROYED]" true 1000 "device-1").
Proof.
  split; [reflexivity|]. split; [discriminate|].
  destruct (proj2 (scrub_is_best_effort 0 hello_grace_over
                     (mkTimer 7000 (DestroyContent "X")) "X" eq_refl eq_refl))
    as (Hts & _ & _ & _ & Hrow); [discriminate|].
  split; [exact Hts|].
  apply (Hrow (mkNote "hello" true 1000 "device-1")); [reflexivity|discriminate].
Defined.

(** ** The sweep, again *)

Lemma delete_many_size v t (m : gmap string Note) :
  (size (delete_many v t m) + Z.to_nat (deleted_count v t m))%nat = size m.
Proof.
  unfold delete_many, deleted_count. rewrite Nat2Z.id.
  rewrite <- (map_filter_union_complement
                (fun kv : string * Note => expired v t kv.2 = false) m) at 3.
  rewrite map_size_disj_union by apply map_disjoint_filter_complement.
  f_equal. f_equal. apply map_filter_ext. intros i n _. cbn.
  by destruct (expired v t n).
Qed.

(** X3. Whatever the store does, the number a sweep returns is the number
    of rows it removed: the size of the note table before minus its size
    after.  In particular a sweep the store rejects returns 0 and removes
    nothing. *)
Theorem sweep_reports_what_it_deleted (w : World) :
  (cleanupExpiredNotes w).1 =
    Z.of_nat (size (note w)) - Z.of_nat (size (note (cleanupExpiredNotes w).2)) /\
  (forall fs, faults w = true :: fs ->
     (cleanupExpiredNotes w).1 = 0 /\ note (cleanupExpiredNotes w).2 = note w).
Proof.
  unfold cleanupExpiredNotes, try_catch.
  rewrite run_bind, run_call. cbn [perform is_db effect].
  rewrite run_bind, run_call, perform_db by done.
  destruct (faults w) as [|[] fs] eqn:Hf; cbn [effect run fst snd note drain set_faults set_note].
  2: { split; [lia|]. done. }
  all: split; [|intros fs0 Hfs; discriminate Hfs].
  all: pose proof (delete_many_size false (setDate_back (clock w) DAYS_UNTIL_EXPIRY) (note w)) as H.
  all: assert (0 <= deleted_count false (setDate_back (clock w) DAYS_UNTIL_EXPIRY) (note w))
         by (unfold deleted_count; lia).
  all: lia.
Qed.

Lemma sweep_reports_what_it_deleted_witness :
  faults store_down = [true] /\
  (cleanupExpiredNotes store_down).1 = 0 /\
  note (cleanupExpiredNotes store_down).2 = note store_down.
Proof.
  split; [reflexivity|].
  exact (proj2 (sweep_reports_what_it_deleted store_down) [] eq_refl).
Defined.

(** X4. With the store answering, a second sweep right after a sweep finds
    nothing to delete: it returns 0 and leaves the world as the first sweep
    left it. *)
Theorem sweep_twice (w : World) :
  faults w = [] ->
  cleanupExpiredNotes (cleanupExpiredNotes w).2 = (0, (cleanupExpiredNotes w).2).
Proof.
  intros Hup. rewrite (cleanup_up w Hup). cbn [snd].
  rewrite cleanup_up by exact Hup.
  cbn [clock note set_note].
  set (t := setDate_back (clock w) DAYS_UNTIL_EXPIRY).
  assert (delete_many false t (delete_many false t (note w)) = delete_many false t (note w))
    as Hsame.
  { apply map_eq. intros i. rewrite !delete_many_lookup.
    destruct (note w !! i) as [n|]; [|done].
    destruct (expired false t n) eqn:He; [done|]. by rewrite He. }
  assert (deleted_count false t (delete_many false t (note w)) = 0) as Hzero.
  { pose proof (delete_many_size false t (delete_many false t (note w))) as H.
    rewrite Hsame in H.
    assert (0 <= deleted_count false t (delete_many false t (note w)))
      by (unfold deleted_count; lia).
    lia. }
  rewrite Hzero, Hsame. reflexivity.
Qed.

Lemma sweep_twice_witness :
  faults attic = [] /\
  (cleanupExpiredNotes attic).1 = 1 /\
  cleanupExpiredNotes (cleanupExpiredNotes attic).2 = (0, (cleanupExpiredNotes attic).2).
Proof.
  split; [reflexivity|]. split; [reflexivity|].
  exact (sweep_twice attic eq_refl).
Defined.

(** ** A viewed note's content is not served *)

Lemma page_load_any id w :
  app_get_note id w =
  match faults w with
  | true :: _ =>
      (html_status (renderPage "Error" ErrorBody "#A855F7" false "" "") 500, drain w)
  | _ =>
      match note w !! id with
      | None =>
          (html_status (renderPage "Not Found" NotFoundBody "#E74C3C" false "" "") 404,
           drain w)
      | Some n =>
          if viewed n
          then (html_status (renderPage "Note Destroyed" DestroyedBody "#FF8A00"
                                        false "" "") 410, drain w)
          else (html (renderPage "Secret Note" RevealBody "#00FF85" true (content n) id),
                drain w)
      end
  end.
Proof.
  unfold app_get_note, try_catch, app_get_note_body.
  rewrite run_bind, run_call, perform_db by done.
  destruct (faults w) as [|[] fs]; cbn [effect]; try reflexivity.
  all: change (note (drain w)) with (note w).
  all: destruct (note w !! id) as [n|]; [|reflexivity]; by destruct (viewed n).
Qed.

(** X5. Once a note is viewed, none of the three endpoints that take its id
    serves anything computed from its content: whatever the store does, the
    responses of GET /api/notes/{id}, GET /note/{id} and
    POST /note/{id}/reveal are the same whatever content the row holds.  So
    during the grace window, when the row still holds the original content,
    a second reader learns nothing of it. *)
Theorem viewed_content_is_not_served (w : World) (id : string) (n : Note) (c : string) :
  note w !! id = Some n -> viewed n = true ->
  let w' := set_note (<[id := mkNote c true (createdAt n) (deviceId n)]> (note w)) w in
  (notesRouter_get_id id w).1 = (notesRouter_get_id id w').1 /\
  (app_get_note id w).1 = (app_get_note id w').1 /\
  (app_post_note_reveal id w).1 = (app_post_note_reveal id w').1.
Proof.
  intros Hn Hv w'.
  assert (note w' !! id = Some (mkNote c true (createdAt n) (deviceId n))) as Hn'
    by (cbn; apply lookup_insert_eq).
  pose proof (reveal_gate DirectApi id w) as H1.
  pose proof (reveal_gate DirectApi id w') as H1'.
  pose proof (reveal_gate WebReveal id w) as H2.
  pose proof (reveal_gate WebReveal id w') as H2'.
  cbn [reveal] in H1, H1', H2, H2'.
  rewrite H1, H1', H2, H2', !page_load_any. unfold gate.
  change (faults w') with (faults w). rewrite Hn, Hn', Hv. cbn [viewed].
  by destruct (faults w) as [|[] fs].
Qed.

Lemma viewed_content_is_not_served_witness :
  note hello_grace_over !! "X" = Some (mkNote "hello" true 1000 "device-1") /\
  (notesRouter_get_id "X" hello_grace_over).1 =
  (notesRouter_get_id "X"
     (set_note (<["X" := mkNote "other" true 1000 "device-1"]> (note hello_grace_over))
               hello_grace_over)).1.
Proof.
  split; [reflexivity|].
  exact (proj1 (viewed_content_is_not_served hello_grace_over "X"
                  (mkNote "hello" true 1000 "device-1") "other" eq_refl eq_refl)).
Defined.

(** ** The escaped literal *)

Lemma quotes_escaped_escape s b : quotes_escaped b (escape_quotes s) = true.
Proof.
  revert b. induction s as [|c rest IH]; intros b; [reflexivity|].
  cbn [escape_quotes]. destruct (Ascii.eqb c "'"%char) eqn:Hc.
  - cbn [quotes_escaped]. cbn. apply IH.
  - cbn [quotes_escaped]. rewrite Hc. cbn. apply IH.
Qed.

(** X6. In the text [renderPage] writes for a content, every single quote
    comes right after a backslash; the text is longer than the content by
    the number of single quotes in it; and writing is compositional: the
    text for [a ++ b] is the text for [a] followed by the text for [b]. *)
Theorem escape_quotes_shape (a b : string) :
  quotes_escaped false (escape_quotes a) = true /\
  String.length (escape_quotes a) = (String.length a + count_quotes a)%nat /\
  escape_quotes (a +:+ b) = escape_quotes a +:+ escape_quotes b.
Proof.
  split; [apply quotes_escaped_escape|]. split.
  - induction a as [|c rest IH]; [reflexivity|].
    cbn [escape_quotes count_quotes String.length].
    destruct (Ascii.eqb c "'"%char); cbn [String.length]; rewrite IH; lia.
  - induction a as [|c rest IH]; [reflexivity|].
    change (String c rest +:+ b) with (String c (rest +:+ b)).
    cbn [escape_quotes]. rewrite IH.
    by destruct (Ascii.eqb c "'"%char).
Qed.

(** ** The usage table *)

Lemma hasActivePremium_run dev w :
  run (hasActivePremium dev) w = (Some (entitled w dev), w).
Proof.
  unfold hasActivePremium, entitled.
  rewrite run_bind, run_call. cbn [perform is_db effect].
  destruct (if isRevenueCatConfigured w then revenuecat w dev else None) as [info|];
    [|reflexivity].
  destruct (premiumEntitlement info) as [[e|]|]; try reflexivity.
  rewrite run_bind, run_call. cbn [perform is_db effect].
  by case_bool_decide.
Qed.

Lemma update_usage_lookup id d us u' us' :
  update_usage id d us = Some (u', us') ->
  forall (i : nat) u, us !! i = Some u ->
    us' !! i = Some u \/ us' !! i = Some (apply_usage d u).
Proof.
  revert u' us'. induction us as [|v rest IH]; intros u' us' Hupd i u Hi; [done|].
  cbn [update_usage] in Hupd. case_bool_decide.
  - injection Hupd as <- <-. destruct i as [|i]; cbn in *; [|by left].
    injection Hi as ->. by right.
  - destruct (update_usage id d rest) as [[u1 rest1]|] eqn:Hr; [|done].
    injection Hupd as <- <-. destruct i as [|i]; cbn in *; [by left|].
    by apply (IH u1 rest1).
Qed.

Lemma usage_kept_refl w : usage_kept w w.
Proof. intros i u Hi. exists u. repeat split; auto. lia. Qed.

Lemma usage_kept_same w w' : noteUsage w' = noteUsage w -> usage_kept w w'.
Proof. intros E i u Hi. exists u. rewrite E. repeat split; auto. lia. Qed.

Lemma usage_kept_trans a b c : usage_kept a b -> usage_kept b c -> usage_kept a c.
Proof.
  intros Hab Hbc i u Hi.
  destruct (Hab i u Hi) as (u1 & Hi1 & Hid1 & Hdev1 & Hp1 & Hc1).
  destruct (Hbc i u1 Hi1) as (u2 & Hi2 & Hid2 & Hdev2 & Hp2 & Hc2).
  exists u2. repeat split; try congruence; auto. lia.
Qed.

Lemma run_usage_safe {A} (p : Prog A) (w : World) :
  uses usage_safe p -> usage_kept w (run p w).2.
Proof.
  apply (run_frame usage_safe usage_kept usage_kept_refl usage_kept_trans).
  - intros w0. by apply usage_kept_same.
  - intros X c w0 Hc.
    destruct c; cbn [effect]; try by apply usage_kept_same.
    + destruct (note w0 !! id); by apply usage_kept_same.
    + destruct (idSupply w0) as [|i ids]; [by apply usage_kept_same|].
      destruct (note w0 !! i); by apply usage_kept_same.
    + intros i u Hi. exists u. cbn. split; [by apply lookup_app_l_Some|].
      repeat split; auto. lia.
    + destruct (update_usage id d (noteUsage w0)) as [[u' us']|] eqn:Hupd;
        [|by apply usage_kept_same].
      intros i u Hi. cbn.
      destruct (update_usage_lookup _ _ _ _ _ Hupd i u Hi) as [E|E];
        [exists u; repeat split; auto; lia|].
      exists (apply_usage d u). split; [exact E|].
      destruct d as [b|k]; cbn in *.
      * subst b. repeat split; auto. lia.
      * apply bool_decide_eq_true in Hc. repeat split; auto. lia.
Qed.

Lemma hasActivePremium_usage_safe dev : uses usage_safe (hasActivePremium dev).
Proof. unfold hasActivePremium. uses_tac. Qed.

Lemma getOrCreateUsage_usage_safe dev v : uses usage_safe (getOrCreateUsage dev v).
Proof. unfold getOrCreateUsage. uses_tac; apply hasActivePremium_usage_safe. Qed.

Lemma try_catch_usage_safe {A} (p : Prog A) (r : A) (w : World) :
  uses usage_safe p -> usage_kept w (try_catch p r w).2.
Proof. intros Hp. rewrite try_catch_world. by apply run_usage_safe. Qed.

Lemma exec_usage_kept e w : usage_kept w (exec e w).2.
Proof.
  destruct e; cbn [exec prod_map snd].
  - apply try_catch_usage_safe. uses_tac; apply getOrCreateUsage_usage_safe.
  - unfold notesRouter_post_upgrade.
    destruct (upgradeRequestSchema dev); [|apply usage_kept_refl].
    apply try_catch_usage_safe. uses_tac; apply getOrCreateUsage_usage_safe.
  - unfold notesRouter_post.
    destruct (createNoteRequestSchema c dev); [|apply usage_kept_refl].
    apply try_catch_usage_safe. unfold notesRouter_post_body.
    uses_tac; apply getOrCreateUsage_usage_safe.
  - apply try_catch_usage_safe. unfold notesRouter_get_id_body. uses_tac.
  - apply try_catch_usage_safe. unfold app_get_note_body. uses_tac.
  - apply try_catch_usage_safe. unfold app_post_note_reveal_body. uses_tac.
  - apply try_catch_usage_safe. uses_tac.
  - unfold fire. destruct (timers w !! k) as [[d [id]]|]; [|apply usage_kept_refl].
    case_bool_decide; [|apply usage_kept_refl].
    unfold run_task.
    eapply usage_kept_trans; [|apply try_catch_usage_safe; uses_tac].
    by apply usage_kept_same.
  - by apply usage_kept_same.
Qed.

Lemma after_usage_kept es w : usage_kept w (after es w).
Proof.
  revert w. induction es as [|e es IH]; intros w; [apply usage_kept_refl|].
  rewrite after_cons. eapply usage_kept_trans; [apply exec_usage_kept|apply IH].
Qed.

(** X7. Whatever the requests, sweeps and timers, and whatever the store
    does: a usage row is never removed or moved, stays with its device,
    never loses its premium flag and never counts down. *)
Theorem premium_is_never_revoked (w : World) (es : list Event) (i : nat) (u : NoteUsage) :
  noteUsage w !! i = Some u ->
  exists u', noteUsage (after es w) !! i = Some u' /\
    usageId u' = usageId u /\ usageDeviceId u' = usageDeviceId u /\
    (isPremium u = true -> isPremium u' = true) /\ count u <= count u'.
Proof. apply after_usage_kept. Qed.

Lemma premium_is_never_revoked_witness :
  noteUsage at_limit !! 1%nat = Some (mkNoteUsage 2 "device-2" 0 0 9 true) /\
  exists u',
    noteUsage (after [POST_api_notes "hi" "device-2"; GET_api_notes_usage "device-2"]
                     at_limit) !! 1%nat = Some u' /\
    usageId u' = 2 /\ usageDeviceId u' = "device-2" /\
    (true = true -> isPremium u' = true) /\ 9 <= count u'.
Proof.
  split; [reflexivity|].
  exact (premium_is_never_revoked at_limit
           [POST_api_notes "hi" "device-2"; GET_api_notes_usage "device-2"]
           1%nat (mkNoteUsage 2 "device-2" 0 0 9 true) eq_refl).
Defined.

(** ** Creating a note *)

Lemma total_count_app us u :
  foldr (fun u s => count u + s) 0 (us ++ [u]) =
  foldr (fun u s => count u + s) 0 us + count u.
Proof. induction us as [|v rest IH]; cbn; lia. Qed.

Lemma update_usage_total id d us u' us' :
  update_usage id d us = Some (u', us') ->
  foldr (fun u s => count u + s) 0 us' =
  foldr (fun u s => count u + s) 0 us +
  match d with IncrementCount k => k | SetPremium _ => 0 end.
Proof.
  revert u' us'. induction us as [|v rest IH]; intros u' us' Hupd; [done|].
  cbn [update_usage] in Hupd. case_bool_decide.
  - injection Hupd as <- <-. destruct d; cbn; lia.
  - destruct (update_usage id d rest) as [[u1 rest1]|] eqn:Hr; [|done].
    injection Hupd as <- <-. cbn. rewrite (IH u1 rest1 eq_refl). lia.
Qed.

Lemma notes_kept_refl w : notes_kept w w.
Proof. by repeat split. Qed.

Lemma notes_kept_trans a b c : notes_kept a b -> notes_kept b c -> notes_kept a c.
Proof.
  intros (?&?&?&?&?) (?&?&?&?&?). repeat split; congruence.
Qed.

Lemma run_usage_only {A} (p : Prog A) (w : World) :
  uses usage_only p -> notes_kept w (run p w).2.
Proof.
  apply (run_frame usage_only notes_kept notes_kept_refl notes_kept_trans).
  - intros w0. by repeat split.
  - intros X c w0 Hc.
    destruct c; try discriminate Hc; cbn [effect]; try apply notes_kept_refl.
    + destruct c; try discriminate Hc.
      repeat split. unfold total_count. cbn. rewrite total_count_app. cbn. lia.
    + destruct d as [b|k]; [|discriminate Hc].
      destruct (update_usage id (SetPremium b) (noteUsage w0)) as [[u' us']|] eqn:Hupd;
        [|apply notes_kept_refl].
      repeat split. unfold total_count. cbn.
      rewrite (update_usage_total _ _ _ _ _ Hupd). lia.
Qed.

Lemma hasActivePremium_usage_only dev : uses usage_only (hasActivePremium dev).
Proof. unfold hasActivePremium. uses_tac. Qed.

Lemma getOrCreateUsage_usage_only dev v : uses usage_only (getOrCreateUsage dev v).
Proof. unfold getOrCreateUsage. uses_tac; apply hasActivePremium_usage_only. Qed.

(** X8. Whatever the store does, POST /api/notes ends in one of four ways.
    400: the request fails the schema and nothing changes.  403: the note
    table and the counts are as they were.  200 with an id: that id was
    free, the table gained exactly the unread row with the posted content
    stamped with the current time, and the counts went up by one.  500: the
    counts are as they were, and the table is as it was or has gained that
    one row (the increment was rejected after the row was stored).  The
    pending timers are never touched. *)
Theorem post_outcomes (c dev : string) (w : World) :
  let r := (notesRouter_post c dev w).1 in
  let w' := (notesRouter_post c dev w).2 in
  timers w' = timers w /\
  ((status r = 400 /\ createNoteRequestSchema c dev = false /\ w' = w) \/
   (status r = 403 /\ note w' = note w /\ total_count w' = total_count w) \/
   (exists i, r = mkResponse 200 (CreateNoteResponse i true) /\
      note w !! i = None /\
      note w' = <[i := mkNote c false (clock w) dev]> (note w) /\
      total_count w' = total_count w + 1) \/
   (status r = 500 /\ total_count w' = total_count w /\
    (note w' = note w \/
     exists i, note w !! i = None /\
       note w' = <[i := mkNote c false (clock w) dev]> (note w)))).
Proof.
  cbn zeta. unfold notesRouter_post.
  destruct (createNoteRequestSchema c dev) eqn:Hschema; [|split; [done|by left]].
  unfold try_catch, notesRouter_post_body. rewrite run_bind.
  pose proof (run_usage_only _ w (getOrCreateUsage_usage_only dev true))
    as (Hnote & Hts & Hclock & Hids & Htotal).
  destruct (run (getOrCreateUsage dev true) w) as [[u|] w1]; cbn [fst snd] in *.
  2: { split; [done|]. right; right; right. auto. }
  destruct (negb (isPremium u) && bool_decide (FREE_NOTE_LIMIT <= count u)).
  { cbn [run fst snd]. split; [done|]. right; left. auto. }
  rewrite run_bind, run_call, perform_db by done.
  destruct (faults w1) as [|[] fs] eqn:Hf1.
  2: { cbn [fst snd]. split; [done|]. right; right; right. auto. }
  all: cbn [effect]; change (idSupply (drain w1)) with (idSupply w1);
    change (note (drain w1)) with (note w1); change (clock (drain w1)) with (clock w1).
  all: destruct (idSupply w1) as [|i ids] eqn:Hsupply;
    [cbn [fst snd]; split; [done|]; right; right; right; auto|].
  all: destruct (note w1 !! i) as [n|] eqn:Hi;
    [cbn [fst snd]; split; [done|]; right; right; right; auto|].
  all: rewrite run_bind, run_call, perform_db by done.
  all: match goal with
       | |- context [match faults ?x with _ => _ end] =>
           destruct (faults x) as [|[] ?]
       end.
  all: cbn [effect noteUsage set_note set_idSupply set_faults drain].
  all: try (destruct (update_usage (usageId u) (IncrementCount 1) (noteUsage w1))
              as [[u' us']|] eqn:Hupd).
  all: cbn [run fst snd timers note set_note set_noteUsage set_idSupply set_faults].
  all: split; [done|].
  all: rewrite Hnote in Hi; rewrite ?Hnote, ?Hclock.
  all: first
    [ (* created and counted *)
      right; right; left; exists i;
      split; [reflexivity|]; split; [done|]; split; [done|];
      unfold total_count in *; cbn [noteUsage set_noteUsage];
      rewrite (update_usage_total _ _ _ _ _ Hupd); lia
    | (* created, then the increment failed *)
      right; right; right; split; [reflexivity|]; split; [exact Htotal|];
      right; exists i; by split ].
Qed.

(** ** Looking a device up in the usage table *)

Lemma find_first_cons dev v rest :
  find_first dev (v :: rest) =
  if bool_decide (usageDeviceId v = dev) then
    match find_first dev rest with
    | Some b => if bool_decide (usageId b < usageId v) then Some v else Some b
    | None => Some v
    end
  else find_first dev rest.
Proof. reflexivity. Qed.

Lemma find_first_Some dev us u :
  find_first dev us = Some u ->
  u ∈ us /\ usageDeviceId u = dev /\
  forall v, v ∈ us -> usageDeviceId v = dev -> usageId v <= usageId u.
Proof.
  revert u. induction us as [|x rest IH]; intros u Hu; [done|].
  rewrite find_first_cons in Hu. case_bool_decide as Hx.
  - destruct (find_first dev rest) as [b|] eqn:Hb.
    + destruct (IH b eq_refl) as (Hin & Hdev & Hmax).
      case_bool_decide as Hlt; injection Hu as <-.
      * split; [left|]. split; [done|].
        intros v [->|Hv]%elem_of_cons Hvd; [lia|]. specialize (Hmax v Hv Hvd). lia.
      * split; [by right|]. split; [done|].
        intros v [->|Hv]%elem_of_cons Hvd; [lia|]. by apply Hmax.
    + injection Hu as <-. split; [left|]. split; [done|].
      intros v [->|Hv]%elem_of_cons Hvd; [lia|].
      exfalso. clear IH. induction rest as [|y rest IH2]; [by apply elem_of_nil in Hv|].
      rewrite find_first_cons in Hb.
      apply elem_of_cons in Hv as [->|Hv].
      * rewrite bool_decide_eq_true_2 in Hb by done.
        by destruct (find_first dev rest) as [b|]; [case_bool_decide|].
      * case_bool_decide; [by destruct (find_first dev rest) as [b|]; [case_bool_decide|]|].
        by apply IH2.
  - destruct (IH u Hu) as (Hin & Hdev & Hmax).
    split; [by right|]. split; [done|].
    intros v [->|Hv]%elem_of_cons Hvd; [done|]. by apply Hmax.
Qed.

Lemma find_first_None dev us :
  find_first dev us = None <-> forall v, v ∈ us -> usageDeviceId v ≠ dev.
Proof.
  induction us as [|x rest IH]; [split; [by intros _ v ?%elem_of_nil|done]|].
  rewrite find_first_cons. split.
  - intros H. case_bool_decide as Hx.
    + by destruct (find_first dev rest) as [b|]; [case_bool_decide|].
    + intros v [->|Hv]%elem_of_cons; [done|]. by apply IH.
  - intros H. rewrite bool_decide_eq_false_2.
    + apply IH. intros v Hv. apply H. by right.
    + apply H. left.
Qed.

Lemma keyed_eq (us : list NoteUsage) u v :
  NoDup (usageId <$> us) -> u ∈ us -> v ∈ us -> usageId u = usageId v -> u = v.
Proof.
  induction us as [|x rest IH]; intros Hnd Hu Hv Hid; [by apply elem_of_nil in Hu|].
  cbn in Hnd. apply NoDup_cons in Hnd as [Hx Hnd].
  apply elem_of_cons in Hu as [->|Hu]; apply elem_of_cons in Hv as [->|Hv]; auto.
  - exfalso. apply Hx. rewrite Hid. by apply list_elem_of_fmap_2.
  - exfalso. apply Hx. rewrite <- Hid. by apply list_elem_of_fmap_2.
Qed.

Lemma find_first_is dev us u :
  NoDup (usageId <$> us) -> u ∈ us -> usageDeviceId u = dev ->
  (forall v, v ∈ us -> usageDeviceId v = dev -> usageId v <= usageId u) ->
  find_first dev us = Some u.
Proof.
  intros Hnd Hu Hdev Hmax.
  destruct (find_first dev us) as [b|] eqn:Hb.
  - destruct (find_first_Some dev us b Hb) as (Hin & Hbd & Hbmax).
    f_equal. apply (keyed_eq us); auto.
    specialize (Hmax b Hin Hbd). specialize (Hbmax u Hu Hdev). lia.
  - exfalso. apply (proj1 (find_first_None dev us) Hb u Hu Hdev).
Qed.

Lemma next_usage_id_above us v : v ∈ us -> usageId v < next_usage_id us.
Proof.
  unfold next_usage_id. induction us as [|x rest IH]; [by intros ?%elem_of_nil|].
  intros [->|Hv]%elem_of_cons; cbn; [lia|]. specialize (IH Hv). lia.
Qed.

Lemma find_first_fmap dev (f : NoteUsage -> NoteUsage) us :
  (forall v, usageId (f v) = usageId v /\ usageDeviceId (f v) = usageDeviceId v) ->
  find_first dev (f <$> us) = f <$> find_first dev us.
Proof.
  intros Hf. induction us as [|x rest IH]; [reflexivity|].
  cbn [fmap list_fmap]. rewrite !find_first_cons.
  change (list_fmap _ _ f rest) with (f <$> rest). rewrite IH.
  destruct (Hf x) as [-> ->].
  case_bool_decide; [|done].
  destruct (find_first dev rest) as [b|]; [|done]. cbn.
  destruct (Hf b) as [-> _]. by case_bool_decide.
Qed.

(** With one row per key, an update by key rewrites the one row that has
    it. *)
Lemma update_usage_keyed d us u :
  NoDup (usageId <$> us) -> u ∈ us ->
  update_usage (usageId u) d us =
  Some (apply_usage d u,
        (fun v => if bool_decide (usageId v = usageId u) then apply_usage d v else v) <$> us).
Proof.
  induction us as [|x rest IH]; intros Hnd Hu; [by apply elem_of_nil in Hu|].
  cbn in Hnd. apply NoDup_cons in Hnd as [Hx Hnd].
  cbn [update_usage fmap list_fmap]. case_bool_decide as Hid.
  - assert (x = u) as ->.
    { apply elem_of_cons in Hu as [->|Hu]; [done|].
      exfalso. apply Hx. rewrite Hid. by apply list_elem_of_fmap_2. }
    f_equal. f_equal. f_equal.
    clear IH Hu. induction rest as [|y rest IH]; [done|].
    cbn in *. apply not_elem_of_cons in Hx as [Hy Hx].
    apply NoDup_cons in Hnd as [_ Hnd].
    rewrite bool_decide_eq_false_2 by congruence. f_equal. by apply IH.
  - apply elem_of_cons in Hu as [->|Hu]; [done|].
    change (list_fmap _ _ ?f rest) with (f <$> rest).
    by rewrite (IH Hnd Hu).
Qed.

Lemma apply_usage_keeps d v :
  usageId (apply_usage d v) = usageId v /\
  usageDeviceId (apply_usage d v) = usageDeviceId v.
Proof. by destruct d. Qed.

Lemma keyed_fmap (f : NoteUsage -> NoteUsage) (us : list NoteUsage) :
  (forall v, usageId (f v) = usageId v) ->
  usageId <$> (f <$> us) = usageId <$> us.
Proof.
  intros Hf. rewrite <- list_fmap_compose. apply list_fmap_ext. intros _ v _. apply Hf.
Qed.

Lemma find_first_snoc dev us u0 :
  usageId u0 = next_usage_id us ->
  find_first dev (us ++ [u0]) =
  if bool_decide (usageDeviceId u0 = dev) then Some u0 else find_first dev us.
Proof.
  intros Hid.
  assert (forall v, v ∈ us -> usageId v < usageId u0) as Habove
    by (intros v Hv; rewrite Hid; by apply next_usage_id_above).
  clear Hid. induction us as [|x rest IH].
  - cbn [app]. rewrite find_first_cons. by case_bool_decide.
  - cbn [app]. rewrite !find_first_cons.
    rewrite IH by (intros v Hv; apply Habove; by right).
    case_bool_decide as Hx; [|done].
    case_bool_decide as H0.
    + rewrite bool_decide_eq_false_2; [done|].
      specialize (Habove x ltac:(left)). lia.
    + done.
Qed.

(** ** [getOrCreateUsage] with the store answering *)

Lemma getOrCreateUsage_halves dev v :
  getOrCreateUsage dev v =
  (found ← call (UsageFindFirst dev);
   usage ← match found with
           | Some u => Ret u
           | None => call (UsageCreate dev 0 0 0 false)
           end;
   verify_usage dev v usage).
Proof. reflexivity. Qed.

Lemma same_but_usage_trans a b c :
  same_but_usage a b -> same_but_usage b c -> same_but_usage a c.
Proof.
  intros (?&?&?&?&?&?&?) (?&?&?&?&?&?&?). repeat split; congruence.
Qed.

Lemma entitled_same w w' dev :
  same_but_usage w w' -> entitled w' dev = entitled w dev.
Proof.
  intros (_ & _ & Hc & _ & _ & Hk & Hr).
  unfold entitled, isRevenueCatConfigured. by rewrite Hc, Hk, Hr.
Qed.

(** The row found for the device, or the one created for it. *)
Lemma find_or_create dev w :
  faults w = [] -> well_keyed w ->
  exists u w',
    run (found ← call (UsageFindFirst dev);
         match found with
         | Some u => Ret u
         | None => call (UsageCreate dev 0 0 0 false)
         end) w = (Some u, w') /\
    same_but_usage w w' /\ well_keyed w' /\
    find_first dev (noteUsage w') = Some u /\
    count u = counted dev w /\
    isPremium u = match find_first dev (noteUsage w) with
                  | Some u0 => isPremium u0
                  | None => false
                  end /\
    (forall d, d ≠ dev ->
       find_first d (noteUsage w') = find_first d (noteUsage w)).
Proof.
  intros Hup Hkeys. rewrite run_bind, run_call, perform_up by done. cbn [effect].
  unfold counted.
  destruct (find_first dev (noteUsage w)) as [u|] eqn:Hff.
  - exists u, w. cbn [run]. repeat split; auto.
  - rewrite run_call, perform_up by done. cbn [effect].
    set (u0 := mkNoteUsage (next_usage_id (noteUsage w)) dev 0 0 0 false).
    exists u0, (set_noteUsage (noteUsage w ++ [u0]) w).
    split; [reflexivity|]. split; [by repeat split|]. split; [|split; [|split; [|split]]].
    + unfold well_keyed in *. cbn [noteUsage set_noteUsage]. rewrite fmap_app.
      apply NoDup_app. split; [done|]. split; [|apply NoDup_singleton].
      intros k Hk Hk'. cbn in Hk'. apply list_elem_of_singleton in Hk' as ->.
      apply list_elem_of_fmap in Hk as (v & Hv & Hin).
      pose proof (next_usage_id_above _ _ Hin). lia.
    + cbn [noteUsage set_noteUsage]. rewrite find_first_snoc by done.
      by rewrite bool_decide_eq_true_2.
    + reflexivity.
    + reflexivity.
    + intros d Hd. cbn [noteUsage set_noteUsage]. rewrite find_first_snoc by done.
      by rewrite bool_decide_eq_false_2.
Qed.

(** The check against RevenueCat, on the device's latest row. *)
Lemma verify_usage_spec dev v w u :
  faults w = [] -> well_keyed w -> find_first dev (noteUsage w) = Some u ->
  exists u' w',
    run (verify_usage dev v u) w = (Some u', w') /\
    same_but_usage w w' /\ well_keyed w' /\
    find_first dev (noteUsage w') = Some u' /\
    count u' = count u /\
    isPremium u' = isPremium u || (v && isRevenueCatConfigured w && entitled w dev) /\
    (forall d, d ≠ dev ->
       find_first d (noteUsage w') = find_first d (noteUsage w)).
Proof.
  intros Hup Hkeys Hff. unfold verify_usage.
  destruct (find_first_Some _ _ _ Hff) as (Hin & Hdev & _).
  assert (same_but_usage w w) as Hsame by by repeat split.
  destruct v; cbn [andb];
    [|exists u, w; cbn [run]; rewrite orb_false_r; by repeat split].
  destruct (isPremium u) eqn:Hp; cbn [negb];
    [exists u, w; cbn [run]; by repeat split|].
  rewrite run_bind, run_call. cbn [perform is_db effect].
  destruct (isRevenueCatConfigured w) eqn:Hconf; cbn [andb orb];
    [|exists u, w; cbn [run]; by repeat split].
  rewrite run_bind, hasActivePremium_run.
  destruct (entitled w dev) eqn:Hent;
    [|exists u, w; cbn [run]; by repeat split].
  rewrite run_call, perform_up by done. cbn [effect].
  rewrite (update_usage_keyed (SetPremium true) _ u Hkeys Hin).
  set (f := fun v : NoteUsage =>
              if bool_decide (usageId v = usageId u)
              then apply_usage (SetPremium true) v else v).
  assert (forall v, usageId (f v) = usageId v /\ usageDeviceId (f v) = usageDeviceId v)
    as Hf by (intros x; unfold f; case_bool_decide; [apply apply_usage_keeps|done]).
  exists (apply_usage (SetPremium true) u), (set_noteUsage (f <$> noteUsage w) w).
  split; [reflexivity|]. split; [by repeat split|].
  split; [|split; [|split; [|split]]].
  - unfold well_keyed in *. cbn [noteUsage set_noteUsage].
    rewrite keyed_fmap; [done|]. intros x. apply Hf.
  - cbn [noteUsage set_noteUsage]. rewrite (find_first_fmap dev f _ Hf), Hff. cbn.
    unfold f. by rewrite bool_decide_eq_true_2.
  - reflexivity.
  - reflexivity.
  - intros d Hd. cbn [noteUsage set_noteUsage]. rewrite (find_first_fmap d f _ Hf).
    destruct (find_first d (noteUsage w)) as [b|] eqn:Hb; [|done]. cbn.
    destruct (find_first_Some _ _ _ Hb) as (Hbin & Hbdev & _).
    unfold f. rewrite bool_decide_eq_false_2; [done|].
    intros Hid. assert (b = u) by (apply (keyed_eq (noteUsage w)); auto). congruence.
Qed.

Lemma getOrCreateUsage_spec dev v w :
  faults w = [] -> well_keyed w ->
  exists u w',
    run (getOrCreateUsage dev v) w = (Some u, w') /\
    same_but_usage w w' /\ well_keyed w' /\
    find_first dev (noteUsage w') = Some u /\
    count u = counted dev w /\
    isPremium u =
      match find_first dev (noteUsage w) with
      | Some u0 => isPremium u0
      | None => false
      end || (v && isRevenueCatConfigured w && entitled w dev) /\
    (forall d, d ≠ dev ->
       find_first d (noteUsage w') = find_first d (noteUsage w)).
Proof.
  intros Hup Hkeys.
  destruct (find_or_create dev w Hup Hkeys)
    as (u1 & w1 & Hrun1 & Hsame1 & Hkeys1 & Hff1 & Hc1 & Hp1 & Hoth1).
  pose proof Hsame1 as (_ & _ & _ & _ & Hup1 & _).
  destruct (verify_usage_spec dev v w1 u1 Hup1 Hkeys1 Hff1)
    as (u2 & w2 & Hrun2 & Hsame2 & Hkeys2 & Hff2 & Hc2 & Hp2 & Hoth2).
  exists u2, w2.
  split.
  - rewrite getOrCreateUsage_halves.
    change (run ((found ← call (UsageFindFirst dev);
                  match found with
                  | Some u => Ret u
                  | None => call (UsageCreate dev 0 0 0 false)
                  end) ≫= verify_usage dev v) w = (Some u2, w2)).
    by rewrite run_bind, Hrun1.
  - split; [by eapply same_but_usage_trans|]. split; [done|]. split; [done|].
    split; [congruence|]. split.
    + rewrite Hp2, Hp1. f_equal.
      rewrite (entitled_same w w1 dev Hsame1).
      destruct Hsame1 as (_ & _ & _ & _ & _ & Hk & _).
      unfold isRevenueCatConfigured. by rewrite Hk.
    + intros d Hd. rewrite Hoth2, Hoth1; auto.
Qed.

(** ** The usage handlers with the store answering *)

Lemma configured_same w w' :
  same_env w w' -> isRevenueCatConfigured w' = isRevenueCatConfigured w.
Proof. intros [Hk _]. unfold isRevenueCatConfigured. by rewrite Hk. Qed.

Lemma same_but_usage_env w w' : same_but_usage w w' -> same_env w w'.
Proof. intros (_&_&_&_&_&?&?). by split. Qed.

Lemma update_spec dev (w : World) u (upd : UsageData) :
  well_keyed w -> find_first dev (noteUsage w) = Some u ->
  exists us',
    update_usage (usageId u) upd (noteUsage w) = Some (apply_usage upd u, us') /\
    NoDup (usageId <$> us') /\
    find_first dev us' = Some (apply_usage upd u) /\
    (forall d, d ≠ dev -> find_first d us' = find_first d (noteUsage w)).
Proof.
  intros Hkeys Hff.
  destruct (find_first_Some _ _ _ Hff) as (Hin & Hudev & _).
  rewrite (update_usage_keyed upd _ u Hkeys Hin).
  set (f := fun v : NoteUsage =>
              if bool_decide (usageId v = usageId u)
              then apply_usage upd v else v).
  assert (forall v, usageId (f v) = usageId v /\ usageDeviceId (f v) = usageDeviceId v)
    as Hf by (intros x; unfold f; case_bool_decide; [apply apply_usage_keeps|done]).
  exists (f <$> noteUsage w). split; [reflexivity|]. split; [|split].
  - rewrite keyed_fmap; [done|]. intros x. apply Hf.
  - rewrite (find_first_fmap dev f _ Hf), Hff. cbn. unfold f.
    by rewrite bool_decide_eq_true_2.
  - intros d Hd. rewrite (find_first_fmap d f _ Hf).
    destruct (find_first d (noteUsage w)) as [b|] eqn:Hb; [|done]. cbn.
    destruct (find_first_Some _ _ _ Hb) as (Hbin & Hbdev & _).
    unfold f. rewrite bool_decide_eq_false_2; [done|].
    intros Hid. assert (b = u) by (apply (keyed_eq (noteUsage w)); auto). congruence.
Qed.

(** Creating the row and counting it, once the limit check has passed. *)
Lemma create_and_count c dev (w : World) u :
  steady w -> find_first dev (noteUsage w) = Some u ->
  exists r w' u',
    try_catch
      (created ← call (NoteCreate c dev);
       _ ← call (UsageUpdate (usageId u) (IncrementCount 1));
       Ret (json (CreateNoteResponse (fst (created : string * Note)) true)))
      (json_status (NoteErrorResponse "Failed to create note" NOT_FOUND) 500) w = (r, w') /\
    steady w' /\ same_env w w' /\ clock w' = clock w /\
    find_first dev (noteUsage w') = Some u' /\
    (forall d, d ≠ dev -> find_first d (noteUsage w') = find_first d (noteUsage w)) /\
    isPremium u' = isPremium u /\
    ((status r = 500 /\ count u' = count u) \/
     (status r = 200 /\ count u' = count u + 1)).
Proof.
  intros [Hup Hkeys] Hff. unfold try_catch.
  rewrite run_bind, run_call, perform_up by done. cbn [effect].
  assert (same_env w w) as Henv by by split.
  destruct (idSupply w) as [|i ids].
  { exists (json_status (NoteErrorResponse "Failed to create note" NOT_FOUND) 500), w, u.
    split; [reflexivity|]. split; [by split|]. split; [exact Henv|].
    split; [reflexivity|]. split; [exact Hff|]. split; [done|]. split; [done|]. by left. }
  destruct (note w !! i).
  { exists (json_status (NoteErrorResponse "Failed to create note" NOT_FOUND) 500),
      (set_idSupply ids w), u.
    split; [reflexivity|]. split; [by split|]. split; [exact Henv|].
    split; [reflexivity|]. split; [exact Hff|]. split; [done|]. split; [done|]. by left. }
  rewrite run_bind, run_call, perform_up by done.
  cbn [effect noteUsage set_note set_idSupply].
  destruct (update_spec dev w u (IncrementCount 1) Hkeys Hff) as (us' & -> & Hkeys' & Hff' & Hoth').
  eexists _, _, (apply_usage (IncrementCount 1) u). split; [reflexivity|].
  split; [by split|]. split; [exact Henv|]. split; [reflexivity|].
  split; [exact Hff'|]. split; [exact Hoth'|]. split; [reflexivity|]. by right.
Qed.

Lemma post_spec c dev w :
  steady w -> createNoteRequestSchema c dev = true ->
  exists r w' u,
    notesRouter_post c dev w = (r, w') /\
    steady w' /\ same_env w w' /\ clock w' = clock w /\
    find_first dev (noteUsage w') = Some u /\
    (forall d, d ≠ dev -> find_first d (noteUsage w') = find_first d (noteUsage w)) /\
    isPremium u = premium_of dev w || (isRevenueCatConfigured w && entitled w dev) /\
    ((status r = 403 /\ isPremium u = false /\ 5 <= counted dev w /\
      count u = counted dev w) \/
     (status r = 500 /\ (isPremium u = true \/ counted dev w < 5) /\
      count u = counted dev w) \/
     (status r = 200 /\ (isPremium u = true \/ counted dev w < 5) /\
      count u = counted dev w + 1)).
Proof.
  intros [Hup Hkeys] Hschema. unfold notesRouter_post. rewrite Hschema.
  unfold try_catch, notesRouter_post_body. rewrite run_bind.
  destruct (getOrCreateUsage_spec dev true w Hup Hkeys)
    as (u & w1 & Hrun & Hsame & Hkeys1 & Hff & Hcount & Hprem & Hoth).
  rewrite Hrun. cbn [andb] in Hprem. fold (premium_of dev w) in Hprem.
  pose proof Hsame as (_ & _ & Hclock & _ & Hup1 & _).
  pose proof (same_but_usage_env _ _ Hsame) as Henv.
  unfold FREE_NOTE_LIMIT.
  destruct (negb (isPremium u) && bool_decide (5 <= count u)) eqn:Hlimit.
  - apply andb_true_iff in Hlimit as [Hp Hlim].
    apply negb_true_iff in Hp. apply bool_decide_eq_true in Hlim.
    exists (json_status (NoteErrorResponse "Free note limit reached" LIMIT_REACHED) 403),
      w1, u.
    split; [reflexivity|]. split; [by split|]. split; [exact Henv|].
    split; [exact Hclock|]. split; [exact Hff|]. split; [exact Hoth|].
    split; [exact Hprem|]. left. repeat split; auto. lia.
  - assert (isPremium u = true \/ counted dev w < 5) as Hallowed.
    { apply andb_false_iff in Hlimit as [Hp | Hlim].
      - left. by apply negb_false_iff in Hp.
      - right. apply bool_decide_eq_false in Hlim. lia. }
    destruct (create_and_count c dev w1 u (conj Hup1 Hkeys1) Hff)
      as (r & w2 & u2 & Hrun2 & Hsteady2 & Henv2 & Hclock2 & Hff2 & Hoth2 & Hprem2 & Hres).
    unfold try_catch in Hrun2. rewrite Hrun2.
    exists r, w2, u2. split; [reflexivity|]. split; [exact Hsteady2|].
    split; [destruct Henv, Henv2; split; congruence|]. split; [congruence|].
    split; [exact Hff2|]. split; [intros d Hd; rewrite Hoth2, Hoth; auto|].
    split; [congruence|].
    right. destruct Hres as [[Hst Hc]|[Hst Hc]]; [left|right];
      (split; [exact Hst|]; split; [by rewrite Hprem2|lia]).
Qed.

Lemma usage_spec dev w :
  steady w ->
  exists u w',
    notesRouter_get_usage dev w =
      (mkResponse 200 (NoteUsageResponse (count u) 5 (isPremium u)
                         (isPremium u || bool_decide (count u < 5))), w') /\
    steady w' /\ same_but_usage w w' /\
    find_first dev (noteUsage w') = Some u /\
    count u = counted dev w /\
    isPremium u = premium_of dev w || (isRevenueCatConfigured w && entitled w dev) /\
    (forall d, d ≠ dev -> find_first d (noteUsage w') = find_first d (noteUsage w)).
Proof.
  intros [Hup Hkeys]. unfold notesRouter_get_usage, try_catch. rewrite run_bind.
  destruct (getOrCreateUsage_spec dev true w Hup Hkeys)
    as (u & w1 & Hrun & Hsame & Hkeys1 & Hff & Hcount & Hprem & Hoth).
  rewrite Hrun. cbn [andb] in Hprem. fold (premium_of dev w) in Hprem.
  pose proof Hsame as (_ & _ & _ & _ & Hup1 & _).
  exists u, w1. split; [reflexivity|]. split; [by split|]. split; [exact Hsame|].
  by repeat split.
Qed.

Lemma upgrade_spec dev w :
  steady w -> upgradeRequestSchema dev = true ->
  exists u w',
    notesRouter_post_upgrade dev w = (mkResponse 200 (UpgradeResponse true true), w') /\
    steady w' /\ same_but_usage w w' /\
    find_first dev (noteUsage w') = Some u /\
    count u = counted dev w /\ isPremium u = true /\
    (forall d, d ≠ dev -> find_first d (noteUsage w') = find_first d (noteUsage w)).
Proof.
  intros [Hup Hkeys] Hschema. unfold notesRouter_post_upgrade. rewrite Hschema.
  unfold try_catch. rewrite run_bind.
  destruct (getOrCreateUsage_spec dev false w Hup Hkeys)
    as (u & w1 & Hrun & Hsame & Hkeys1 & Hff & Hcount & _ & Hoth).
  rewrite Hrun.
  pose proof Hsame as (Hn & Ht & Hc & Hi & Hup1 & Hk & Hr).
  rewrite run_bind, run_call, perform_up by done. cbn [effect].
  destruct (update_spec dev w1 u (SetPremium true) Hkeys1 Hff)
    as (us' & -> & Hkeys' & Hff' & Hoth').
  exists (apply_usage (SetPremium true) u), (set_noteUsage us' w1).
  split; [reflexivity|]. split; [by split|]. split; [by repeat split|].
  split; [exact Hff'|]. split; [exact Hcount|]. split; [reflexivity|].
  intros d Hd. cbn [noteUsage set_noteUsage]. rewrite Hoth', Hoth; auto.
Qed.

Lemma at_limit_well_keyed : well_keyed at_limit.
Proof. unfold well_keyed. apply (bool_decide_unpack _). reflexivity. Qed.

(** X9. With the store answering and one usage row per key, what
    GET /api/notes/usage reports for a device is what POST /api/notes then
    does for it: a valid creation request that follows is refused with 403
    exactly when the report said [canCreate: false]. *)
Theorem usage_report_is_honoured (w : World) (dev c : string) :
  faults w = [] -> well_keyed w -> createNoteRequestSchema c dev = true ->
  exists cnt premium canCreate,
    (notesRouter_get_usage dev w).1 =
      mkResponse 200 (NoteUsageResponse cnt 5 premium canCreate) /\
    (status (notesRouter_post c dev (notesRouter_get_usage dev w).2).1 = 403 <->
     canCreate = false).
Proof.
  intros Hup Hkeys Hschema.
  destruct (usage_spec dev w (conj Hup Hkeys))
    as (u & w1 & Hrun & Hsteady1 & Hsame & Hff & Hcount & Hprem & _).
  rewrite Hrun. cbn [fst snd].
  eexists _, _, _. split; [reflexivity|].
  destruct (post_spec c dev w1 Hsteady1 Hschema)
    as (r & w2 & u2 & Hrun2 & _ & _ & _ & _ & _ & Hprem2 & Hres).
  rewrite Hrun2. cbn [fst].
  assert (premium_of dev w1 = isPremium u) as Hp1 by (unfold premium_of; by rewrite Hff).
  assert (counted dev w1 = count u) as Hc1 by (unfold counted; by rewrite Hff).
  assert (isPremium u2 = isPremium u) as Hsamep.
  { rewrite Hprem2, Hp1.
    rewrite (configured_same w w1 (same_but_usage_env _ _ Hsame)).
    rewrite (entitled_same w w1 dev Hsame). rewrite Hprem.
    destruct (premium_of dev w), (isRevenueCatConfigured w && entitled w dev); done. }
  rewrite Hc1, Hsamep in Hres.
  destruct Hres as [(Hst & Hp & Hlim & _)|[(Hst & Hallowed & _)|(Hst & Hallowed & _)]];
    rewrite Hst.
  - split; [intros _|done]. rewrite Hp. cbn. apply bool_decide_eq_false. lia.
  - split; [done|]. intros Hcan. apply orb_false_iff in Hcan as [Hp Hlt].
    apply bool_decide_eq_false in Hlt. destruct Hallowed; [congruence|lia].
  - split; [done|]. intros Hcan. apply orb_false_iff in Hcan as [Hp Hlt].
    apply bool_decide_eq_false in Hlt. destruct Hallowed; [congruence|lia].
Qed.

Lemma usage_report_is_honoured_witness :
  faults at_limit = [] /\ well_keyed at_limit /\
  createNoteRequestSchema "hi" "device-1" = true /\
  exists cnt premium canCreate,
    (notesRouter_get_usage "device-1" at_limit).1 =
      mkResponse 200 (NoteUsageResponse cnt 5 premium canCreate) /\
    (status (notesRouter_post "hi" "device-1"
               (notesRouter_get_usage "device-1" at_limit).2).1 = 403 <->
     canCreate = false).
Proof.
  pose proof at_limit_well_keyed as Hkeys.
  split; [reflexivity|]. split; [exact Hkeys|]. split; [reflexivity|].
  exact (usage_report_is_honoured at_limit "device-1" "hi" eq_refl Hkeys eq_refl).
Defined.

(** X10. With the store answering and one usage row per key, a valid
    POST /api/notes/upgrade answers 200 [{success, isPremium}], keeps the
    device's count, and unlocks the device: the usage endpoint then reports
    it premium and able to create, and a valid creation request that
    follows is not refused with 403, however many notes the device has
    created. *)
Theorem upgrade_unlocks (w : World) (dev c : string) :
  faults w = [] -> well_keyed w ->
  upgradeRequestSchema dev = true -> createNoteRequestSchema c dev = true ->
  let w1 := (notesRouter_post_upgrade dev w).2 in
  (notesRouter_post_upgrade dev w).1 = mkResponse 200 (UpgradeResponse true true) /\
  (notesRouter_get_usage dev w1).1 =
    mkResponse 200 (NoteUsageResponse (counted dev w) 5 true true) /\
  status (notesRouter_post c dev w1).1 ≠ 403.
Proof.
  intros Hup Hkeys Hschema Hschema' w1. unfold w1.
  destruct (upgrade_spec dev w (conj Hup Hkeys) Hschema)
    as (u & w2 & Hrun & Hsteady & Hsame & Hff & Hcount & Hprem & _).
  rewrite Hrun. cbn [fst snd]. split; [reflexivity|].
  assert (premium_of dev w2 = true) as Hp2 by (unfold premium_of; by rewrite Hff).
  assert (counted dev w2 = counted dev w) as Hc2 by (unfold counted; by rewrite Hff).
  split.
  - destruct (usage_spec dev w2 Hsteady) as (u3 & w3 & Hrun3 & _ & _ & _ & Hc3 & Hp3 & _).
    rewrite Hrun3. cbn [fst]. rewrite Hp2 in Hp3. cbn in Hp3.
    by rewrite Hp3, Hc3, Hc2.
  - destruct (post_spec c dev w2 Hsteady Hschema')
      as (r & w3 & u3 & Hrun3 & _ & _ & _ & _ & _ & Hp3 & Hres).
    rewrite Hrun3. cbn [fst]. rewrite Hp2 in Hp3. cbn in Hp3.
    destruct Hres as [(_ & Hfree & _)|[(Hst & _)|(Hst & _)]]; [congruence| |];
      rewrite Hst; done.
Qed.

Lemma upgrade_unlocks_witness :
  faults at_limit = [] /\ well_keyed at_limit /\
  upgradeRequestSchema "device-1" = true /\
  createNoteRequestSchema "hi" "device-1" = true /\
  (notesRouter_get_usage "device-1" (notesRouter_post_upgrade "device-1" at_limit).2).1 =
    mkResponse 200 (NoteUsageResponse 5 5 true true) /\
  status (notesRouter_post "hi" "device-1"
            (notesRouter_post_upgrade "device-1" at_limit).2).1 ≠ 403.
Proof.
  pose proof at_limit_well_keyed as Hkeys.
  split; [reflexivity|]. split; [exact Hkeys|].
  split; [reflexivity|]. split; [reflexivity|].
  exact (proj2 (upgrade_unlocks at_limit "device-1" "hi" eq_refl Hkeys eq_refl eq_refl)).
Defined.

(** ** The free limit over time *)

Lemma same_env_refl w : same_env w w.
Proof. by split. Qed.

Lemma same_env_trans a b c : same_env a b -> same_env b c -> same_env a c.
Proof. intros [? ?] [? ?]. split; congruence. Qed.

Lemma run_same_env {A} (p : Prog A) (w : World) : same_env w (run p w).2.
Proof.
  apply (run_frame any_call same_env same_env_refl same_env_trans);
    [by intros w0|..|apply uses_any].
  intros X c w0 _. destruct c; cbn [effect]; try (by split).
  - by destruct (note w0 !! id).
  - destruct (idSupply w0) as [|i ids]; [done|]. by destruct (note w0 !! i).
  - by destruct (update_usage id d (noteUsage w0)) as [[u us]|].
Qed.

Lemma run_no_usage {A} (p : Prog A) (w : World) :
  uses no_usage p -> noteUsage (run p w).2 = noteUsage w.
Proof.
  apply (run_frame no_usage (fun a b => noteUsage b = noteUsage a));
    [done|congruence|done|].
  intros X c w0 Hc. destruct c; try discriminate Hc; cbn [effect]; try reflexivity.
  - by destruct (note w0 !! id).
  - destruct (idSupply w0) as [|i ids]; [done|]. by destruct (note w0 !! i).
Qed.

Lemma try_catch_no_usage {A} (p : Prog A) (r : A) (w : World) :
  uses no_usage p -> noteUsage (try_catch p r w).2 = noteUsage w.
Proof. intros Hp. rewrite try_catch_world. by apply run_no_usage. Qed.

Lemma try_catch_same_env {A} (p : Prog A) (r : A) (w : World) :
  same_env w (try_catch p r w).2.
Proof. rewrite try_catch_world. apply run_same_env. Qed.

(** One event, seen from a device on the free plan with RevenueCat not
    configured: the device stays on the free plan, and its count goes up by
    one exactly when the event is a creation for it that answers 200, which
    happens only below the limit. *)
Lemma free_step e w dev :
  steady w -> isRevenueCatConfigured w = false -> premium_of dev w = false ->
  is_upgrade_of dev e = false ->
  steady (exec e w).2 /\ isRevenueCatConfigured (exec e w).2 = false /\
  premium_of dev (exec e w).2 = false /\
  counted dev (exec e w).2 =
    counted dev w + (if created_for dev (e, (exec e w).1) then 1 else 0) /\
  (created_for dev (e, (exec e w).1) = true -> counted dev w < 5).
Proof.
  intros Hsteady Hconf Hfree Hnot.
  assert (forall w1, steady w1 -> same_env w w1 ->
            noteUsage w1 = noteUsage w ->
            steady w1 /\ isRevenueCatConfigured w1 = false /\
            premium_of dev w1 = false /\ counted dev w1 = counted dev w + 0) as Hquiet.
  { intros w1 Hs He Hu. split; [done|]. split; [by rewrite (configured_same w w1 He)|].
    unfold premium_of, counted in *. rewrite Hu. split; [done|lia]. }
  assert (forall d w1, d ≠ dev -> steady w1 -> same_env w w1 ->
            (forall x, x ≠ d -> find_first x (noteUsage w1) = find_first x (noteUsage w)) ->
            steady w1 /\ isRevenueCatConfigured w1 = false /\
            premium_of dev w1 = false /\ counted dev w1 = counted dev w + 0) as Hother.
  { intros d w1 Hd Hs He Hoth. split; [done|].
    split; [by rewrite (configured_same w w1 He)|].
    unfold premium_of, counted in *. rewrite (Hoth dev) by done. split; [done|lia]. }
  destruct Hsteady as [Hup Hkeys].
  destruct e; cbn [exec prod_map fst snd created_for].
  - (* usage *)
    destruct (usage_spec dev0 w (conj Hup Hkeys))
      as (u & w1 & Hrun & Hsteady1 & Hsame & Hff & Hcount & Hprem & Hoth).
    rewrite Hrun. cbn [prod_map fst snd]; unfold id.
    destruct (decide (dev0 = dev)) as [->|Hd].
    + split; [done|].
      split; [by rewrite (configured_same w w1 (same_but_usage_env _ _ Hsame))|].
      unfold premium_of at 1. unfold counted at 1. rewrite Hff.
      rewrite Hprem, Hfree, Hconf. split; [done|]. split; [lia|done].
    + destruct (Hother dev0 w1 Hd Hsteady1 (same_but_usage_env _ _ Hsame) Hoth)
        as ([? ?]&?&?&?). repeat split; auto; try discriminate; try lia.
  - (* upgrade of another device *)
    cbn in Hnot. apply bool_decide_eq_false in Hnot.
    destruct (upgradeRequestSchema dev0) eqn:Hschema.
    + destruct (upgrade_spec dev0 w (conj Hup Hkeys) Hschema)
        as (u & w1 & Hrun & Hsteady1 & Hsame & _ & _ & _ & Hoth).
      rewrite Hrun. cbn [prod_map fst snd]; unfold id.
      destruct (Hother dev0 w1 Hnot Hsteady1 (same_but_usage_env _ _ Hsame) Hoth)
        as ([? ?]&?&?&?). repeat split; auto; try discriminate; try lia.
    + unfold notesRouter_post_upgrade. rewrite Hschema. cbn [prod_map fst snd]; unfold id.
      destruct (Hquiet w (conj Hup Hkeys) (same_env_refl w) eq_refl) as ([? ?]&?&?&?).
      repeat split; auto; try discriminate; try lia.
  - (* creation *)
    destruct (createNoteRequestSchema c dev0) eqn:Hschema.
    + destruct (post_spec c dev0 w (conj Hup Hkeys) Hschema)
        as (r & w1 & u & Hrun & Hsteady1 & Henv & _ & Hff & Hoth & Hprem & Hres).
      rewrite Hrun. cbn [prod_map fst snd]; unfold id.
      destruct (decide (dev0 = dev)) as [->|Hd].
      * rewrite bool_decide_eq_true_2 by done. cbn [andb].
        rewrite Hfree, Hconf in Hprem. cbn in Hprem.
        split; [done|]. split; [by rewrite (configured_same w w1 Henv)|].
        unfold premium_of at 1. unfold counted at 1. rewrite Hff.
        split; [done|]. unfold status_of. cbn [fmap option_fmap option_map].
        destruct Hres as [(Hst & _ & _ & Hc)|[(Hst & _ & Hc)|(Hst & Hallowed & Hc)]];
          rewrite Hst.
        -- rewrite bool_decide_eq_false_2 by discriminate. split; [lia|done].
        -- rewrite bool_decide_eq_false_2 by discriminate. split; [lia|done].
        -- rewrite bool_decide_eq_true_2 by done. split; [lia|].
           intros _. destruct Hallowed; [congruence|done].
      * rewrite bool_decide_eq_false_2 by done. cbn [andb].
        destruct (Hother dev0 w1 Hd Hsteady1 Henv Hoth) as ([? ?]&?&?&?). repeat split; auto; try discriminate; try lia.
    + unfold notesRouter_post. rewrite Hschema. cbn [prod_map fst snd]; unfold id.
      destruct (Hquiet w (conj Hup Hkeys) (same_env_refl w) eq_refl) as ([? ?]&?&?&?).
      split; [by split|]. split; [done|]. split; [done|].
      unfold status_of. cbn.
      rewrite (bool_decide_eq_false_2 (Some 400 = Some 200)) by discriminate.
      rewrite andb_false_r.
      split; [lia|done].
  - (* the other events leave the usage table alone *)
    destruct (Hquiet (notesRouter_get_id id w).2) as ([? ?]&?&?&?); [| | |repeat split; auto; try discriminate; try lia].
    + split; [by apply try_catch_stays_up|].
      unfold well_keyed, notesRouter_get_id. rewrite try_catch_no_usage; [done|].
      unfold notesRouter_get_id_body. uses_tac.
    + apply try_catch_same_env.
    + apply try_catch_no_usage. unfold notesRouter_get_id_body. uses_tac.
  - destruct (Hquiet (app_get_note id w).2) as ([? ?]&?&?&?); [| | |repeat split; auto; try discriminate; try lia].
    + split; [by apply try_catch_stays_up|].
      unfold well_keyed, app_get_note. rewrite try_catch_no_usage; [done|].
      unfold app_get_note_body. uses_tac.
    + apply try_catch_same_env.
    + apply try_catch_no_usage. unfold app_get_note_body. uses_tac.
  - destruct (Hquiet (app_post_note_reveal id w).2) as ([? ?]&?&?&?); [| | |repeat split; auto; try discriminate; try lia].
    + split; [by apply try_catch_stays_up|].
      unfold well_keyed, app_post_note_reveal. rewrite try_catch_no_usage; [done|].
      unfold app_post_note_reveal_body. uses_tac.
    + apply try_catch_same_env.
    + apply try_catch_no_usage. unfold app_post_note_reveal_body. uses_tac.
  - destruct (Hquiet (cleanupExpiredNotes w).2) as ([? ?]&?&?&?); [| | |repeat split; auto; try discriminate; try lia].
    + split; [by apply try_catch_stays_up|].
      unfold well_keyed, cleanupExpiredNotes. rewrite try_catch_no_usage; [done|]. uses_tac.
    + apply try_catch_same_env.
    + apply try_catch_no_usage. uses_tac.
  - assert (noteUsage (fire k w) = noteUsage w /\ same_env w (fire k w)) as [Hu He].
    { unfold fire. destruct (timers w !! k) as [[d [id]]|]; [|by split].
      case_bool_decide; [|by split]. cbn [task]. rewrite run_task_world.
      cbn [faults set_timers note].
      by destruct (faults w) as [|[] fs]; destruct (note w !! id). }
    destruct (Hquiet (fire k w)) as ([? ?]&?&?&?); [| | |repeat split; auto; try discriminate; try lia]; auto.
    split; [apply (exec_stays_up (TimerFires k) w Hup)|].
    unfold well_keyed. by rewrite Hu.
  - destruct (Hquiet (set_clock (clock w + Z.of_N ms) w)) as ([? ?]&?&?&?);
      [by split|by split|done|repeat split; auto; try discriminate; try lia].
Qed.

Lemma created_cons dev e r log :
  length (List.filter (created_for dev) ((e, r) :: log)) =
  ((if created_for dev (e, r) then 1 else 0) +
   length (List.filter (created_for dev) log))%nat.
Proof. cbn [List.filter]. by destruct (created_for dev (e, r)). Qed.

(** X11. With the store answering, one usage row per key and RevenueCat
    not configured, a device on the free plan that is never upgraded gets
    at most [FREE_NOTE_LIMIT] minus its count more creations answered 200,
    whatever else is requested meanwhile: five in all for a new device. *)
Theorem free_limit_holds (w : World) (dev : string) (es : list Event) :
  faults w = [] -> well_keyed w -> isRevenueCatConfigured w = false ->
  premium_of dev w = false ->
  forallb (fun e => negb (is_upgrade_of dev e)) es = true ->
  Z.of_nat (length (List.filter (created_for dev) (responses es w)))
  <= Z.max 0 (FREE_NOTE_LIMIT - counted dev w).
Proof.
  intros Hup Hkeys. assert (steady w) as Hsteady by by split. clear Hup Hkeys.
  revert w Hsteady. induction es as [|e es IH]; intros w Hsteady Hconf Hfree Hnone.
  - cbn. lia.
  - cbn [forallb] in Hnone. apply andb_true_iff in Hnone as [He Hrest].
    apply negb_true_iff in He.
    destruct (free_step e w dev Hsteady Hconf Hfree He)
      as (Hsteady1 & Hconf1 & Hfree1 & Hcount1 & Hbelow).
    specialize (IH _ Hsteady1 Hconf1 Hfree1 Hrest).
    rewrite responses_cons, created_cons. unfold FREE_NOTE_LIMIT in *.
    destruct (created_for dev (e, (exec e w).1)).
    + specialize (Hbelow eq_refl). lia.
    + lia.
Qed.

Lemma free_limit_holds_witness :
  faults seven_ids = [] /\ well_keyed seven_ids /\
  isRevenueCatConfigured seven_ids = false /\ premium_of "device-1" seven_ids = false /\
  forallb (fun e => negb (is_upgrade_of "device-1" e)) seven_posts = true /\
  length (List.filter (created_for "device-1") (responses seven_posts seven_ids)) = 5%nat /\
  Z.of_nat (length (List.filter (created_for "device-1") (responses seven_posts seven_ids)))
  <= Z.max 0 (FREE_NOTE_LIMIT - counted "device-1" seven_ids).
Proof.
  assert (well_keyed seven_ids) as Hkeys by apply NoDup_nil_2.
  split; [reflexivity|]. split; [exact Hkeys|]. split; [reflexivity|].
  split; [reflexivity|]. split; [reflexivity|]. split; [reflexivity|].
  exact (free_limit_holds seven_ids "device-1" seven_posts
           eq_refl Hkeys eq_refl eq_refl eq_refl).
Defined.

(** * The page script *)

(** ** Arrays and loops *)

Lemma loop_S {S : Type} (n : nat) (body : nat -> S -> S) (s : S) :
  loop 0 (Datatypes.S n) body s = body n (loop 0 n body s).
Proof.
  unfold loop. rewrite !Nat.sub_0_r, seq_S, fold_left_app. reflexivity.
Qed.

Lemma loop_0 {S : Type} (body : nat -> S -> S) (s : S) : loop 0 0 body s = s.
Proof. reflexivity. Qed.

Lemma loop_inv {S : Type} (P : S -> Prop) (n : nat) (body : nat -> S -> S) (s : S) :
  P s -> (forall i x, (i < n)%nat -> P x -> P (body i x)) -> P (loop 0 n body s).
Proof.
  intros Hs Hbody. induction n as [|n IH]; [exact Hs|].
  rewrite loop_S. apply Hbody; [lia|]. apply IH. intros i x Hi. apply Hbody. lia.
Qed.

Lemma get_lookup (a : list Z) (i : nat) : get a i = default 0 (a !! i).
Proof. unfold get. apply nth_lookup. Qed.

Lemma put_length (a : list Z) i v : length (put a i v) = length a.
Proof. apply length_insert. Qed.

Lemma get_put (a : list Z) (i j : nat) (v : Z) :
  get (put a i v) j =
  if decide (i = j /\ (i < length a)%nat) then v mod 256 else get a j.
Proof.
  rewrite !get_lookup. unfold put.
  destruct (decide (i = j)) as [->|Hne].
  - destruct (decide (j < length a)%nat) as [Hlt|Hge].
    + rewrite decide_True by done. by rewrite list_lookup_insert_eq.
    + rewrite decide_False by (intros [_ ?]; done).
      rewrite list_insert_ge; [done|]. apply Nat.nlt_ge, Hge.
  - rewrite decide_False by (intros [? _]; done). by rewrite list_lookup_insert_ne.
Qed.

Lemma get_beyond (a : list Z) (i : nat) : (length a <= i)%nat -> get a i = 0.
Proof. intros H. unfold get. by apply nth_overflow. Qed.

Lemma list_eq_get (a b : list Z) :
  length a = length b -> (forall i, (i < length a)%nat -> get a i = get b i) -> a = b.
Proof.
  intros Hlen Hget. apply (nth_ext a b 0 0); [exact Hlen|]. exact Hget.
Qed.

Lemma bytes_put (a : list Z) i v : bytes a -> bytes (put a i v).
Proof.
  intros Ha. unfold put. destruct (decide (i < length a)%nat) as [Hlt|Hge].
  - apply Forall_insert; [exact Ha|]. unfold is_byte. apply Z.mod_pos_bound. lia.
  - rewrite list_insert_ge; [exact Ha|lia].
Qed.

Lemma bytes_get (a : list Z) i : bytes a -> is_byte (get a i).
Proof.
  intros Ha. rewrite get_lookup. destruct (a !! i) as [x|] eqn:Hx; cbn.
  - by apply (Forall_lookup_1 _ _ _ _ Ha Hx).
  - unfold is_byte. lia.
Qed.

Lemma byte_mod (x : Z) : is_byte x -> x mod 256 = x.
Proof. intros H. apply Z.mod_small. exact H. Qed.

(** ** The counter *)

Lemma be_value_snoc (l : list Z) (x : Z) : be_value (l ++ [x]) = be_value l * 256 + x.
Proof. unfold be_value. by rewrite fold_left_app. Qed.

Lemma be_value_bound (l : list Z) : bytes l -> 0 <= be_value l < 256 ^ Z.of_nat (length l).
Proof.
  induction l as [|x l IH] using rev_ind; intros Hl; [cbn; lia|].
  apply Forall_app in Hl as [Hl Hx]. rewrite Forall_singleton in Hx.
  specialize (IH Hl). rewrite be_value_snoc, length_app, Nat2Z.inj_add. cbn [length].
  rewrite Z.pow_add_r by lia. change (256 ^ Z.of_nat 1) with 256.
  unfold is_byte in Hx. set (P := 256 ^ Z.of_nat (length l)) in *. lia.
Qed.

Lemma incrementCounter_from_spec (n : nat) :
  forall pre suf, length pre = n -> bytes pre ->
  exists pre',
    incrementCounter_from n (pre ++ suf) = pre' ++ suf /\
    length pre' = n /\ bytes pre' /\
    be_value pre' = (be_value pre + 1) mod 256 ^ Z.of_nat n.
Proof.
  induction n as [|n IH]; intros pre suf Hlen Hpre.
  - destruct pre; [|done]. exists []. by repeat split.
  - assert (pre <> []) as Hne by (intros ->; discriminate Hlen).
    destruct (exists_last Hne) as (pre0 & x0 & ->).
    rewrite length_app in Hlen. cbn in Hlen.
    assert (length pre0 = n) as Hn by lia.
    apply Forall_app in Hpre as [Hp Hx]. rewrite Forall_singleton in Hx.
    pose proof (be_value_bound pre0 Hp) as Hbound. rewrite Hn in Hbound.
    cbn [incrementCounter_from].
    assert (get ((pre0 ++ [x0]) ++ suf) n = x0) as Hget.
    { rewrite get_lookup, <- app_assoc, lookup_app_r by lia.
      by rewrite Hn, Nat.sub_diag. }
    assert (put ((pre0 ++ [x0]) ++ suf) n (x0 + 1) =
            (pre0 ++ [(x0 + 1) mod 256]) ++ suf) as Hput.
    { unfold put. rewrite <- !app_assoc. rewrite insert_app_r_alt by lia.
      by rewrite Hn, Nat.sub_diag. }
    rewrite Hget, Hput.
    assert (get ((pre0 ++ [(x0 + 1) mod 256]) ++ suf) n = (x0 + 1) mod 256) as Hget'.
    { rewrite get_lookup, <- app_assoc, lookup_app_r by lia.
      by rewrite Hn, Nat.sub_diag. }
    rewrite Hget'.
    rewrite Nat2Z.inj_succ, Z.pow_succ_r by lia.
    unfold is_byte in Hx.
    destruct ((x0 + 1) mod 256 =? 0) eqn:Hzero.
    + apply Z.eqb_eq in Hzero.
      assert (x0 = 255) as -> by (destruct (decide (x0 = 255)); [done|];
        rewrite Z.mod_small in Hzero; lia).
      rewrite Hzero. rewrite <- app_assoc.
      destruct (IH pre0 ([0] ++ suf) Hn Hp) as (p' & Heq & Hlen' & Hp' & Hval).
      exists (p' ++ [0]). rewrite Heq, <- app_assoc. split; [done|].
      split; [rewrite length_app; cbn; lia|].
      split; [apply Forall_app; split; [done|]; apply Forall_singleton; unfold is_byte; lia|].
      rewrite !be_value_snoc, Hval.
      replace (be_value pre0 * 256 + 255 + 1) with ((be_value pre0 + 1) * 256) by lia.
      rewrite (Z.mul_comm 256 (256 ^ Z.of_nat n)).
      rewrite Z.mul_mod_distr_r by lia. lia.
    + apply Z.eqb_neq in Hzero.
      assert (x0 < 255) as Hlt.
      { destruct (decide (x0 = 255)) as [->|]; [done|lia]. }
      exists (pre0 ++ [(x0 + 1) mod 256]). split; [done|].
      split; [rewrite length_app; cbn; lia|].
      split; [apply Forall_app; split; [done|]; apply Forall_singleton;
              unfold is_byte; apply Z.mod_pos_bound; lia|].
      rewrite !be_value_snoc. rewrite (Z.mod_small (x0 + 1)) by lia.
      rewrite Z.mod_small; [lia|]. nia.
Qed.

(** X12. On a counter of 16 bytes, [incrementCounter] adds one to the
    128-bit number the counter spells, big end first, and wraps to zero
    after the largest; the result is again 16 bytes. *)
Theorem incrementCounter_adds_one (counter : list Z) :
  length counter = 16%nat -> bytes counter ->
  length (incrementCounter counter) = 16%nat /\
  bytes (incrementCounter counter) /\
  be_value (incrementCounter counter) = (be_value counter + 1) mod 2 ^ 128.
Proof.
  intros Hlen Hbytes. unfold incrementCounter.
  destruct (incrementCounter_from_spec 16 counter [] Hlen Hbytes)
    as (c' & Heq & Hlen' & Hbytes' & Hval).
  rewrite !app_nil_r in Heq. rewrite Heq. repeat split; auto.
Qed.

Lemma incrementCounter_adds_one_witness :
  length (repeat 255 16) = 16%nat /\ bytes (repeat 255 16) /\
  incrementCounter (repeat 255 16) = repeat 0 16 /\
  be_value (incrementCounter (repeat 255 16)) = (be_value (repeat 255 16) + 1) mod 2 ^ 128.
Proof.
  assert (bytes (repeat 255 16)) as Hb by (apply (bool_decide_unpack _); reflexivity).
  split; [reflexivity|]. split; [exact Hb|]. split; [reflexivity|].
  exact (proj2 (proj2 (incrementCounter_adds_one (repeat 255 16) eq_refl Hb))).
Defined.

(** ** Counter mode *)

Lemma xor_block_spec (data ks : list Z) (i bs : nat) (result : list Z) :
  length (loop 0 bs
            (fun j result => put result (i + j) (Z.lxor (get data (i + j)) (get ks j)))
            result) = length result /\
  forall idx,
    get (loop 0 bs
           (fun j result => put result (i + j) (Z.lxor (get data (i + j)) (get ks j)))
           result) idx =
    if decide ((i <= idx < i + bs)%nat /\ (idx < length result)%nat)
    then Z.lxor (get data idx) (get ks (idx - i)) mod 256
    else get result idx.
Proof.
  induction bs as [|bs [IHlen IHget]].
  - split; [reflexivity|]. intros idx. rewrite loop_0.
    rewrite decide_False; [done|]. lia.
  - rewrite loop_S. split; [by rewrite put_length|].
    intros idx. rewrite get_put, IHlen, IHget.
    destruct (decide ((i + bs)%nat = idx /\ (i + bs < length result)%nat)) as [[<- Hlt]|Hno].
    + rewrite decide_True by lia. by replace (i + bs - i)%nat with bs by lia.
    + destruct (decide ((i <= idx < i + bs)%nat /\ (idx < length result)%nat)) as [Hin|Hout].
      * rewrite decide_True by lia. done.
      * rewrite decide_False; [done|]. lia.
Qed.

Lemma ctr_loop_spec (data : list Z) (roundKeys : list (list Z)) (c0 : list Z) (k : nat) :
  let s :=
    loop 0 k
      (fun b '(result, counter) =>
         let i := (16 * b)%nat in
         let keystream := aesBlock counter roundKeys in
         let blockSize := Nat.min 16 (length data - i) in
         let result :=
           loop 0 blockSize
             (fun j result =>
                put result (i + j) (Z.lxor (get data (i + j)) (get keystream j)))
             result in
         (result, incrementCounter counter))
      (Uint8Array (length data), c0) in
  s.2 = Nat.iter k incrementCounter c0 /\
  length s.1 = length data /\
  forall idx,
    get s.1 idx =
    if decide (idx < Nat.min (16 * k) (length data))%nat
    then Z.lxor (get data idx)
                (get (aesBlock (Nat.iter (idx / 16) incrementCounter c0) roundKeys)
                     (idx mod 16)) mod 256
    else 0.
Proof.
  induction k as [|k IH]; cbn zeta in *.
  - rewrite loop_0. cbn [fst snd]. split; [done|].
    split; [apply repeat_length|]. intros idx.
    rewrite decide_False by lia. unfold get, Uint8Array.
    destruct (decide (idx < length data)%nat).
    + by apply nth_repeat_lt.
    + apply nth_overflow. rewrite repeat_length. lia.
  - rewrite loop_S.
    destruct (loop 0 k _ (Uint8Array (length data), c0)) as [res c].
    cbn [fst snd] in *. destruct IH as (Hc & Hlen & Hget). subst c.
    destruct (xor_block_spec data (aesBlock (Nat.iter k incrementCounter c0) roundKeys)
                (16 * k) (Nat.min 16 (length data - 16 * k)) res) as [Hlen' Hget'].
    split; [reflexivity|]. split; [congruence|].
    intros idx. rewrite Hget', Hlen, Hget.
    destruct (decide ((16 * k <= idx < 16 * k + Nat.min 16 (length data - 16 * k))%nat /\
                      (idx < length data)%nat)) as [Hin|Hout].
    + rewrite decide_True by lia.
      assert (idx / 16 = k)%nat as -> by (symmetry; apply (Nat.div_unique idx 16 k (idx - 16 * k)); lia).
      assert (idx mod 16 = idx - 16 * k)%nat as ->
        by (symmetry; apply (Nat.mod_unique idx 16 k (idx - 16 * k)); lia).
      reflexivity.
    + destruct (decide (idx < Nat.min (16 * k) (length data))%nat) as [Hold|Hnew].
      * rewrite decide_True by lia. reflexivity.
      * rewrite decide_False by lia. reflexivity.
Qed.

(** The script's counter mode, byte by byte. *)
Lemma aesCtr_spec (data key nonce : list Z) :
  length (aesCtr data key nonce) = length data /\
  forall idx, (idx < length data)%nat ->
    get (aesCtr data key nonce) idx =
    Z.lxor (get data idx) (get (keystream_block key nonce (idx / 16)) (idx mod 16)) mod 256.
Proof.
  unfold aesCtr, keystream_block, initial_counter. cbn zeta.
  destruct (ctr_loop_spec data (expandKey key)
              (loop 0 12 (fun i counter => put counter i (get nonce i)) (Uint8Array 16))
              ((length data + 15) / 16)) as (_ & Hlen & Hget).
  cbn zeta in Hlen, Hget. split; [exact Hlen|].
  intros idx Hidx. rewrite Hget. rewrite decide_True; [reflexivity|].
  pose proof (Nat.div_mod_eq (length data + 15) 16) as Hdiv.
  pose proof (Nat.mod_upper_bound (length data + 15) 16). lia.
Qed.

Lemma xor_mask (x k : Z) : Z.lxor (Z.lxor x k mod 256) k mod 256 = x mod 256.
Proof.
  change 256 with (2 ^ 8). rewrite <- !Z.land_ones by lia.
  apply Z.bits_inj'. intros n Hn.
  rewrite !Z.land_spec, !Z.lxor_spec, !Z.land_spec, !Z.lxor_spec.
  by destruct (Z.testbit x n), (Z.testbit k n), (Z.testbit (Z.ones 8) n).
Qed.

Lemma aesCtr_twice (data key nonce : list Z) :
  bytes data -> aesCtr (aesCtr data key nonce) key nonce = data.
Proof.
  intros Hdata.
  destruct (aesCtr_spec data key nonce) as [Hlen Hget].
  destruct (aesCtr_spec (aesCtr data key nonce) key nonce) as [Hlen2 Hget2].
  apply list_eq_get; [congruence|].
  intros idx Hidx. rewrite Hlen2, Hlen in Hidx.
  rewrite Hget2 by (rewrite Hlen; exact Hidx). rewrite Hget by exact Hidx.
  rewrite xor_mask. apply byte_mod, bytes_get, Hdata.
Qed.

(** X13. The script's [aesCtr] keeps the length of the data and undoes
    itself: on data made of bytes, applying it twice with the same key and
    nonce gives the data back, whatever the key and the nonce. *)
Theorem aesCtr_involutive (data key nonce : list Z) :
  bytes data ->
  length (aesCtr data key nonce) = length data /\
  aesCtr (aesCtr data key nonce) key nonce = data.
Proof.
  intros Hdata. split.
  - apply aesCtr_spec.
  - by apply aesCtr_twice.
Qed.

Lemma aesCtr_involutive_witness :
  bytes [104; 101; 108; 108; 111] /\
  aesCtr (aesCtr [104; 101; 108; 108; 111] fips_key [1; 2; 3]) fips_key [1; 2; 3] =
  [104; 101; 108; 108; 111].
Proof.
  assert (bytes [104; 101; 108; 108; 111]) as Hb
    by (apply (bool_decide_unpack _); reflexivity).
  split; [exact Hb|].
  exact (proj2 (aesCtr_involutive [104; 101; 108; 108; 111] fips_key [1; 2; 3] Hb)).
Defined.

Lemma get_zip_with (f : Z -> Z -> Z) (a b : list Z) (i : nat) :
  (i < length a)%nat -> (i < length b)%nat ->
  get (zip_with f a b) i = f (get a i) (get b i).
Proof.
  intros Ha Hb. rewrite !get_lookup, lookup_zip_with.
  destruct (lookup_lt_is_Some_2 a i Ha) as [x ->].
  destruct (lookup_lt_is_Some_2 b i Hb) as [y ->]. reflexivity.
Qed.

Lemma aesCtr_bytes (data key nonce : list Z) : bytes (aesCtr data key nonce).
Proof.
  destruct (aesCtr_spec data key nonce) as [Hlen Hget].
  apply Forall_lookup. intros i x Hx.
  assert (i < length data)%nat as Hi by (rewrite <- Hlen; by eapply lookup_lt_Some).
  specialize (Hget i Hi). rewrite get_lookup, Hx in Hget. change (default 0 (Some x)) with x in Hget. subst x.
  unfold is_byte. apply Z.mod_pos_bound. lia.
Qed.

Lemma xor_delta (x k d : Z) :
  is_byte x -> is_byte d ->
  Z.lxor (Z.lxor x d) k mod 256 = Z.lxor (Z.lxor x k mod 256) d.
Proof.
  intros Hx Hd.
  rewrite <- (byte_mod d Hd) at 2.
  change 256 with (2 ^ 8). rewrite <- !Z.land_ones by lia.
  apply Z.bits_inj'. intros n Hn.
  rewrite !Z.lxor_spec, !Z.land_spec, !Z.lxor_spec.
  by destruct (Z.testbit x n), (Z.testbit k n), (Z.testbit d n),
       (Z.testbit (Z.ones 8) n).
Qed.

(** X14. The script's counter mode does not bind the ciphertext: flipping
    bits of the data flips the same bits of the result.  For data and a
    mask made of bytes, of the same length, [aesCtr] of the data xor the
    mask is [aesCtr] of the data, xor the mask. *)
Theorem aesCtr_malleable (data mask key nonce : list Z) :
  bytes data -> bytes mask -> length mask = length data ->
  aesCtr (zip_with Z.lxor data mask) key nonce =
  zip_with Z.lxor (aesCtr data key nonce) mask.
Proof.
  intros Hdata Hmask Hlen.
  destruct (aesCtr_spec data key nonce) as [Hlen1 Hget1].
  destruct (aesCtr_spec (zip_with Z.lxor data mask) key nonce) as [Hlen2 Hget2].
  assert (length (zip_with Z.lxor data mask) = length data) as Hzlen
    by (rewrite length_zip_with; lia).
  apply list_eq_get.
  - rewrite Hlen2, Hzlen, length_zip_with, Hlen1. lia.
  - intros idx Hidx. rewrite Hlen2, Hzlen in Hidx.
    rewrite Hget2 by (rewrite Hzlen; exact Hidx).
    rewrite get_zip_with by lia.
    rewrite get_zip_with by (rewrite ?Hlen1; lia).
    rewrite Hget1 by exact Hidx.
    apply xor_delta; by apply bytes_get.
Qed.

Lemma aesCtr_malleable_witness :
  bytes [104; 105] /\ bytes [1; 0] /\ length [1; 0] = length [104; 105] /\
  aesCtr (zip_with Z.lxor [104; 105] [1; 0]) fips_key [7] =
  zip_with Z.lxor (aesCtr [104; 105] fips_key [7]) [1; 0].
Proof.
  assert (bytes [104; 105]) as Hd by (apply (bool_decide_unpack _); reflexivity).
  assert (bytes [1; 0]) as Hm by (apply (bool_decide_unpack _); reflexivity).
  split; [exact Hd|]. split; [exact Hm|]. split; [reflexivity|].
  exact (aesCtr_malleable [104; 105] [1; 0] fips_key [7] Hd Hm eq_refl).
Defined.

(** ** Keys and nonces of the wrong length *)

Lemma loop_ext {S : Type} (n : nat) (f g : nat -> S -> S) (s : S) :
  (forall i x, (i < n)%nat -> f i x = g i x) -> loop 0 n f s = loop 0 n g s.
Proof.
  intros Hfg. induction n as [|n IH]; [reflexivity|].
  rewrite !loop_S, IH by (intros i x Hi; apply Hfg; lia). apply Hfg. lia.
Qed.

Lemma put_congruent (a : list Z) i (u v : Z) :
  u mod 256 = v mod 256 -> put a i u = put a i v.
Proof. intros H. unfold put. by rewrite H. Qed.

Lemma expandKey_reads_32 (key key' : list Z) :
  (forall i, (i < 32)%nat -> get key i mod 256 = get key' i mod 256) ->
  expandKey key = expandKey key'.
Proof.
  intros Hsame. unfold expandKey. cbn zeta. f_equal.
  apply loop_ext. intros i W Hi. f_equal.
  rewrite (put_congruent _ 3 (get key (4 * i + 3)) (get key' (4 * i + 3)))
    by (apply Hsame; lia).
  f_equal.
  rewrite (put_congruent _ 2 (get key (4 * i + 2)) (get key' (4 * i + 2)))
    by (apply Hsame; lia).
  f_equal.
  rewrite (put_congruent _ 1 (get key (4 * i + 1)) (get key' (4 * i + 1)))
    by (apply Hsame; lia).
  f_equal. apply put_congruent, Hsame. lia.
Qed.

(** X15. [aesCtr] reads the first 32 bytes of the key and the first 12 of
    the nonce and nothing else of them, a missing byte counting as 0: two
    keys that agree there, and two nonces that agree there, give the same
    result.  So a key that is too short, too long or empty raises no error:
    it decrypts as the key padded with zeros or cut at 32 bytes would. *)
Theorem aesCtr_pads_key_and_nonce (data key key' nonce nonce' : list Z) :
  (forall i, (i < 32)%nat -> get key i mod 256 = get key' i mod 256) ->
  (forall i, (i < 12)%nat -> get nonce i mod 256 = get nonce' i mod 256) ->
  aesCtr data key nonce = aesCtr data key' nonce'.
Proof.
  intros Hkey Hnonce. unfold aesCtr. cbn zeta.
  rewrite (expandKey_reads_32 key key' Hkey).
  rewrite (loop_ext 12 (fun i counter => put counter i (get nonce i))
                       (fun i counter => put counter i (get nonce' i)));
    [reflexivity|].
  intros i x Hi. apply put_congruent, Hnonce, Hi.
Qed.

Lemma aesCtr_pads_key_and_nonce_witness :
  aesCtr [104; 105] [] [] = aesCtr [104; 105] (repeat 0 32) (repeat 0 12).
Proof.
  apply aesCtr_pads_key_and_nonce.
  - intros i Hi. rewrite (get_beyond [] i) by (cbn; lia).
    unfold get. by rewrite nth_repeat_lt.
  - intros i Hi. rewrite (get_beyond [] i) by (cbn; lia).
    unfold get. by rewrite nth_repeat_lt.
Defined.

(** ** Decrypting in the browser *)

Lemma copy_bytes (l : list Z) :
  bytes l ->
  loop 0 (length l) (fun i out => put out i (get l i)) (Uint8Array (length l)) = l.
Proof.
  intros Hl.
  assert (forall n,
            length (loop 0 n (fun i out => put out i (get l i)) (Uint8Array (length l)))
            = length l /\
            forall idx,
              get (loop 0 n (fun i out => put out i (get l i)) (Uint8Array (length l))) idx
              = if decide (idx < n /\ idx < length l)%nat then get l idx else 0) as Hspec.
  { induction n as [|n [IHlen IHget]].
    - split; [apply repeat_length|]. intros idx. rewrite loop_0.
      rewrite decide_False by lia. unfold get, Uint8Array.
      destruct (decide (idx < length l)%nat).
      + by apply nth_repeat_lt.
      + apply nth_overflow. rewrite repeat_length. lia.
    - rewrite loop_S. split; [by rewrite put_length|].
      intros idx. rewrite get_put, IHlen, IHget.
      destruct (decide (n = idx /\ (n < length l)%nat)) as [[<- Hlt]|Hno].
      + rewrite decide_True by lia. apply byte_mod, bytes_get, Hl.
      + destruct (decide (idx < n /\ idx < length l)%nat).
        * rewrite decide_True by lia. done.
        * rewrite decide_False by lia. done. }
  destruct (Hspec (length l)) as [Hlen Hget].
  apply list_eq_get; [exact Hlen|].
  intros idx Hidx. rewrite Hlen in Hidx. rewrite Hget. by rewrite decide_True by lia.
Qed.

(** X16. Decrypting undoes encrypting.  If the key decodes to bytes [key],
    and the content decodes to a 12-byte nonce followed by [aesCtr] of the
    plaintext bytes under [key] and that nonce, then [decryptContent] hands
    the plaintext to the text decoder.  When [atob] throws on either
    string, so does [decryptContent]: it gives [None]. *)
Theorem decryptContent_round_trip
  (atob : string -> option (list Z)) (decode : list Z -> string)
  (encryptedBase64 keyBase64 : string) (key nonce plaintext : list Z) :
  bytes key -> bytes nonce -> bytes plaintext -> length nonce = 12%nat ->
  atob keyBase64 = Some key ->
  atob encryptedBase64 = Some (nonce ++ aesCtr plaintext key nonce) ->
  decryptContent atob decode encryptedBase64 keyBase64 = Some (decode plaintext) /\
  (forall atob', atob' keyBase64 = None \/ atob' encryptedBase64 = None ->
     decryptContent atob' decode encryptedBase64 keyBase64 = None).
Proof.
  intros Hkey Hnonce Hplain Hlen Hk He. split.
  - unfold decryptContent, base64ToUint8Array. rewrite Hk, He.
    rewrite (copy_bytes key Hkey).
    rewrite copy_bytes
      by (apply Forall_app; split; [exact Hnonce|apply aesCtr_bytes]).
    rewrite take_app_length' by (symmetry; exact Hlen).
    rewrite drop_app_length' by (symmetry; exact Hlen).
    by rewrite (aesCtr_twice plaintext key nonce Hplain).
  - intros atob' [Hnone|Hnone]; unfold decryptContent, base64ToUint8Array;
      rewrite Hnone; [reflexivity|]. by destruct (atob' keyBase64).
Qed.

Lemma decryptContent_round_trip_witness :
  bytes fips_key /\ bytes sample_nonce /\ bytes sample_text /\
  length sample_nonce = 12%nat /\
  sample_atob "key" = Some fips_key /\
  sample_atob "content" = Some (sample_nonce ++ aesCtr sample_text fips_key sample_nonce) /\
  decryptContent sample_atob sample_decode "content" "key" = Some "hello".
Proof.
  assert (bytes fips_key) as Hk by (apply (bool_decide_unpack _); reflexivity).
  assert (bytes sample_nonce) as Hn by (apply (bool_decide_unpack _); reflexivity).
  assert (bytes sample_text) as Ht by (apply (bool_decide_unpack _); reflexivity).
  split; [exact Hk|]. split; [exact Hn|]. split; [exact Ht|].
  split; [reflexivity|]. split; [reflexivity|]. split; [reflexivity|].
  exact (proj1 (decryptContent_round_trip sample_atob sample_decode "content" "key"
                  fips_key sample_nonce sample_text Hk Hn Ht eq_refl eq_refl eq_refl)).
Defined.

(** ** The field arithmetic and the tables *)

Lemma byte_in_all_bytes (x : Z) : is_byte x -> In x all_bytes.
Proof.
  intros [Hlo Hhi]. unfold all_bytes.
  rewrite <- (Z2Nat.id x Hlo). apply in_map, in_seq. lia.
Qed.

Lemma gmul_checked :
  forallb (fun a => forallb (gmul_check a) all_bytes) all_bytes = true.
Proof. vm_compute. reflexivity. Qed.

(** X17. On bytes, the script's [gmul] is a multiplication: the product is
    a byte, does not depend on the order of the factors, 1 is its unit, a
    product is 0 only when a factor is 0, and doubling is a shift of one
    bit reduced by [0x1b]. *)
Theorem gmul_is_field_product (a b : Z) :
  is_byte a -> is_byte b ->
  is_byte (gmul a b) /\
  gmul a b = gmul b a /\
  gmul a 1 = a /\
  (gmul a b = 0 <-> a = 0 \/ b = 0) /\
  gmul a 2 = Z.lxor ((2 * a) mod 256) (if a <? 128 then 0 else 0x1b).
Proof.
  intros Ha Hb.
  pose proof gmul_checked as Hall.
  rewrite forallb_forall in Hall. specialize (Hall a (byte_in_all_bytes a Ha)).
  rewrite forallb_forall in Hall. specialize (Hall b (byte_in_all_bytes b Hb)).
  unfold gmul_check in Hall.
  repeat (apply andb_true_iff in Hall as [Hall ?]).
  split; [unfold is_byte; lia|]. split; [lia|]. split; [lia|]. split; [|lia].
  match goal with H : Bool.eqb _ _ = true |- _ => apply Bool.eqb_prop in H; rename H into Hz end.
  split.
  - intros H0. apply Z.eqb_eq in H0. rewrite H0 in Hz. symmetry in Hz.
    apply orb_true_iff in Hz as [?|?]; [left|right]; lia.
  - intros H0. apply Z.eqb_eq. rewrite Hz. apply orb_true_iff.
    destruct H0; [left|right]; lia.
Qed.

Lemma gmul_is_field_product_witness :
  is_byte 0x57 /\ is_byte 0x83 /\ gmul 0x57 0x83 = 0xc1 /\ gmul 0x57 0x83 = gmul 0x83 0x57.
Proof.
  assert (is_byte 0x57) as Ha by (unfold is_byte; lia).
  assert (is_byte 0x83) as Hb by (unfold is_byte; lia).
  split; [exact Ha|]. split; [exact Hb|]. split; [reflexivity|].
  exact (proj1 (proj2 (gmul_is_field_product 0x57 0x83 Ha Hb))).
Defined.

Lemma sbox_checked :
  forallb (fun x => sbox x =? aes_sbox x) all_bytes = true.
Proof. vm_compute. reflexivity. Qed.

Lemma rcon_checked :
  forallb (fun i => get RCON (S i) =? gmul (get RCON i) 2) (seq 0 9) = true.
Proof. vm_compute. reflexivity. Qed.

(** X18. The script's tables are those of AES.  [SBOX] has 256 entries,
    all bytes, no two the same, and entry [x] is the AES S-box of [x]: the
    affine map of the inverse of [x] under [gmul].  [RCON] starts at 1 and
    each entry is the double, under [gmul], of the one before. *)
Theorem tables_are_those_of_aes (x : Z) (i : nat) :
  is_byte x -> (i < 9)%nat ->
  sbox x = aes_sbox x /\
  length SBOX = 256%nat /\ bytes SBOX /\ NoDup SBOX /\
  get RCON 0 = 1 /\ get RCON (S i) = gmul (get RCON i) 2.
Proof.
  intros Hx Hi.
  pose proof sbox_checked as Hs. rewrite forallb_forall in Hs.
  specialize (Hs x (byte_in_all_bytes x Hx)). apply Z.eqb_eq in Hs.
  pose proof rcon_checked as Hr. rewrite forallb_forall in Hr.
  specialize (Hr i ltac:(apply in_seq; lia)). apply Z.eqb_eq in Hr.
  split; [exact Hs|]. split; [reflexivity|].
  split; [apply (bool_decide_unpack _); vm_compute; reflexivity|].
  split; [apply (bool_decide_unpack _); vm_compute; reflexivity|].
  split; [reflexivity|exact Hr].
Qed.

Lemma tables_are_those_of_aes_witness :
  is_byte 0x53 /\ (3 < 9)%nat /\ sbox 0x53 = 0xed /\ sbox 0x53 = aes_sbox 0x53.
Proof.
  assert (is_byte 0x53) as Hx by (unfold is_byte; lia).
  assert (3 < 9)%nat as Hi by lia.
  split; [exact Hx|]. split; [exact Hi|]. split; [reflexivity|].
  exact (proj1 (tables_are_those_of_aes 0x53 3 Hx Hi)).
Defined.

(** The script's block function on the example of FIPS-197, appendix C.3. *)
Example aesBlock_fips197 : aesBlock fips_plain (expandKey fips_key) = fips_cipher.
Proof. vm_compute. reflexivity. Qed.

(** ** An unread note waits *)

Lemma exec_keeps_unread e w (nid : string) n :
  is_reveal_of nid e = false -> timers_target_viewed w ->
  note w !! nid = Some n -> viewed n = false ->
  clock w <= createdAt n + DAYS_UNTIL_EXPIRY * MS_PER_DAY ->
  note (exec e w).2 !! nid = Some n.
Proof.
  intros He Hwf Hn Hv Hage.
  assert (forall w', grows w w' -> note w' !! nid = Some n) as Hgrows.
  { intros w' (_ & _ & Hg). destruct (Hg nid) as [->|[Hnone _]]; congruence. }
  assert (forall s i, i ≠ nid -> note (reveal s i w).2 !! nid = Some n) as Hother.
  { intros s i Hi. rewrite reveal_gate. unfold gate.
    destruct (faults w) as [|[] fs]; [| exact Hn |].
    all: destruct (note w !! i) as [m|]; [|exact Hn].
    all: destruct (viewed m); [exact Hn|].
    all: destruct (faults (drain w)) as [|[] fs']; try exact Hn.
    all: cbn; by rewrite lookup_insert_ne. }
  destruct e; cbn [exec prod_map snd]; unfold Datatypes.id; cbn [is_reveal_of] in He.
  - apply Hgrows, usage_grows.
  - apply Hgrows, upgrade_grows.
  - apply Hgrows, post_grows.
  - apply bool_decide_eq_false in He. apply (Hother DirectApi). exact He.
  - apply Hgrows, same_store_grows, page_load_same_store.
  - apply bool_decide_eq_false in He. apply (Hother WebReveal). exact He.
  - unfold cleanupExpiredNotes. rewrite try_catch_world.
    rewrite run_bind, run_call. cbn [perform is_db effect].
    rewrite run_bind, run_call, perform_db by done.
    destruct (faults w) as [|[] fs]; cbn [effect]; try exact Hn.
    all: cbn; unfold delete_many; apply map_lookup_filter_Some; split; [exact Hn|].
    all: cbn; unfold expired, setDate_back; rewrite Hv; cbn.
    all: apply bool_decide_eq_false; lia.
  - unfold fire. destruct (timers w !! k) as [t|] eqn:Hk; [|exact Hn].
    case_bool_decide as Hdue; [|exact Hn].
    pose proof (Hwf t (list_elem_of_lookup_2 _ _ _ Hk)) as Ht.
    destruct t as [d [j]]. cbn [task] in *. destruct Ht as (m & Hm & Hmv).
    assert (j ≠ nid) as Hj by (intros ->; congruence).
    rewrite run_task_world. cbn [faults set_timers note].
    destruct (faults w) as [|[] fs]; rewrite ?Hm; cbn; try exact Hn.
    all: by rewrite lookup_insert_ne.
  - exact Hn.
Qed.

(** X19. An unread note waits for its reader.  Whatever the store does, and
    whatever else is requested, swept or fired meanwhile, as long as nobody
    asks a reveal surface for it and no more than 30 days have passed since
    it was created, the note is stored exactly as it was: page loads of it,
    reveals of other notes, creations, sweeps and scrub timers leave it
    alone.  (Every pending scrub is assumed aimed at a viewed note, as the
    handlers keep it.) *)
Theorem unread_note_waits (w : World) (es : list Event) (id : string) (n : Note) :
  timers_target_viewed w ->
  note w !! id = Some n -> viewed n = false ->
  forallb (fun e => negb (is_reveal_of id e)) es = true ->
  clock (after es w) <= createdAt n + 30 * 86400000 ->
  note (after es w) !! id = Some n.
Proof.
  revert w. induction es as [|e es IH]; intros w Hwf Hn Hv Hes Hage; [exact Hn|].
  cbn [forallb] in Hes. apply andb_true_iff in Hes as [He Hes].
  apply negb_true_iff in He.
  rewrite after_cons in Hage |- *.
  pose proof (after_clock es (exec e w).2) as Hmono.
  pose proof (change_clock _ _ (exec_change e w)) as Hstep.
  apply IH; auto.
  - apply (change_wf w); [apply exec_change|exact Hwf].
  - apply exec_keeps_unread; auto.
    unfold DAYS_UNTIL_EXPIRY, MS_PER_DAY. lia.
Qed.

Lemma unread_note_waits_witness :
  timers_target_viewed busy /\
  note busy !! "X" = Some hello /\ viewed hello = false /\
  forallb (fun e => negb (is_reveal_of "X" e)) traffic = true /\
  clock (after traffic busy) <= createdAt hello + 30 * 86400000 /\
  note (after traffic busy) !! "X" = Some hello.
Proof.
  assert (timers_target_viewed busy) as Hwf
    by (apply quiet_timers_target_viewed; reflexivity).
  assert (clock (after traffic busy) <= createdAt hello + 30 * 86400000) as Hage
    by (vm_compute; discriminate).
  split; [exact Hwf|]. split; [reflexivity|]. split; [reflexivity|].
  split; [reflexivity|]. split; [exact Hage|].
  exact (unread_note_waits busy traffic "X" hello Hwf eq_refl eq_refl eq_refl Hage).
Defined.

(** ** No failure without a cause *)

Lemma create_up c dev (w : World) u :
  steady w -> find_first dev (noteUsage w) = Some u -> id_available w = true ->
  status (try_catch
            (created ← call (NoteCreate c dev);
             _ ← call (UsageUpdate (usageId u) (IncrementCount 1));
             Ret (json (CreateNoteResponse (fst (created : string * Note)) true)))
            (json_status (NoteErrorResponse "Failed to create note" NOT_FOUND) 500) w).1
  = 200.
Proof.
  intros [Hup Hkeys] Hff Hid. unfold try_catch, id_available in *.
  rewrite run_bind, run_call, perform_up by done. cbn [effect].
  destruct (idSupply w) as [|i ids]; [discriminate|].
  apply bool_decide_eq_true in Hid. rewrite Hid.
  rewrite run_bind, run_call, perform_up by done.
  cbn [effect noteUsage set_note set_idSupply].
  by destruct (update_spec dev w u (IncrementCount 1) Hkeys Hff) as (us' & -> & _).
Qed.

Lemma post_up c dev w :
  steady w -> id_available w = true ->
  status (notesRouter_post c dev w).1 ≠ 500.
Proof.
  intros [Hup Hkeys] Hid. unfold notesRouter_post.
  destruct (createNoteRequestSchema c dev); [|discriminate].
  unfold try_catch, notesRouter_post_body. rewrite run_bind.
  destruct (getOrCreateUsage_spec dev true w Hup Hkeys)
    as (u & w1 & Hrun & Hsame & Hkeys1 & Hff & _).
  rewrite Hrun.
  destruct (negb (isPremium u) && bool_decide (FREE_NOTE_LIMIT <= count u));
    [discriminate|].
  pose proof Hsame as (Hnote & _ & _ & Hids & Hup1 & _).
  assert (id_available w1 = true) as Hid1
    by (unfold id_available in *; by rewrite Hids, Hnote).
  pose proof (create_up c dev w1 u (conj Hup1 Hkeys1) Hff Hid1) as Hst.
  unfold try_catch in Hst. rewrite Hst. discriminate.
Qed.

(** X20. No failure without a cause.  With the store answering and one
    usage row per key, no endpoint answers 500, save one case: a creation
    for which the store has no free id to give.  Lookups, reveals, page
    loads, usage reports and upgrades never fail on their own. *)
Theorem failure_has_a_cause (e : Event) (w : World) (r : Response) :
  faults w = [] -> well_keyed w ->
  (exec e w).1 = Some r -> status r = 500 ->
  (exists c dev, e = POST_api_notes c dev) /\ id_available w = false.
Proof.
  intros Hup Hkeys Hr Hst.
  assert (steady w) as Hsteady by by split.
  destruct e as [dev|dev|c dev|i|i|i| |k|ms]; cbn [exec prod_map fst] in Hr; try discriminate Hr;
    injection Hr as <-.
  3: { split; [by eauto|]. destruct (id_available w) eqn:Hid; [|done].
       exfalso. by apply (post_up c dev w Hsteady Hid). }
  all: exfalso.
  - destruct (usage_spec dev w Hsteady) as (u & w' & Heq & _).
    rewrite Heq in Hst. discriminate Hst.
  - unfold notesRouter_post_upgrade in Hst.
    destruct (upgradeRequestSchema dev) eqn:Hs; [|discriminate Hst].
    destruct (upgrade_spec dev w Hsteady Hs) as (u & w' & Heq & _).
    unfold notesRouter_post_upgrade in Heq. rewrite Hs in Heq.
    rewrite Heq in Hst. discriminate Hst.
  - change (notesRouter_get_id i w) with (reveal DirectApi i w) in Hst.
    rewrite reveal_up in Hst by done.
    destruct (note w !! i) as [n|]; [destruct (viewed n)|]; discriminate Hst.
  - rewrite page_load_up in Hst by done.
    destruct (note w !! i) as [n|]; [destruct (viewed n)|]; discriminate Hst.
  - change (app_post_note_reveal i w) with (reveal WebReveal i w) in Hst.
    rewrite reveal_up in Hst by done.
    destruct (note w !! i) as [n|]; [destruct (viewed n)|]; discriminate Hst.
Qed.

Lemma failure_has_a_cause_witness :
  faults quiet = [] /\ well_keyed quiet /\
  (exec (POST_api_notes "hi" "device-1") quiet).1 =
    Some (json_status (NoteErrorResponse "Failed to create note" NOT_FOUND) 500) /\
  id_available quiet = false.
Proof.
  assert (well_keyed quiet) as Hk by apply NoDup_nil_2.
  split; [reflexivity|]. split; [exact Hk|]. split; [reflexivity|].
  exact (proj2 (failure_has_a_cause (POST_api_notes "hi" "device-1") quiet
                  (json_status (NoteErrorResponse "Failed to create note" NOT_FOUND) 500)
                  eq_refl Hk eq_refl eq_refl)).
Defined.
